(** * QuadricSLAM example front end: the drawing layer

    A shallow embedding of
    [examples/python/example_frontend/visualization/drawing.py]:
    [generate_uv_spherical], the methods of [CV2Drawing] ([box],
    [text], [box_and_text], [quadric], [bounds_3D]) and
    [MPLDrawing.plot_result], with their properties stated and proved
    over it.

    Numbers are IEEE-754 binary64 values ([spec_float] at precision 53,
    the format of Python floats and of numpy's float64), numpy arrays
    are nested lists, and the image buffer is threaded through a small
    state-and-exception monad.  The libraries the file calls (libm's
    [cos] and [sin], [numpy.linalg.inv], gtsam's [Pose3.between],
    [QuadricCamera.transformToImage], the OpenCV primitives and
    matplotlib) are the fields of the classes [Libs], [TextLibs] and
    [MPL.Pyplot]: a theorem stated for [L : Libs] holds for every
    implementation of them, and what depends on the camera being the
    pinhole camera is stated for the reference implementation [Ref]. *)

From Stdlib Require Import ZArith List Bool Lia SpecFloat.
From Stdlib Require String DecimalString.
Import ListNotations.

Set Implicit Arguments.

(** ** binary64 arithmetic *)

Module F64.

Definition prec : Z := 53.
Definition emax : Z := 1024.

Definition float : Type := spec_float.

Definition add : float -> float -> float := SFadd prec emax.
Definition sub : float -> float -> float := SFsub prec emax.
Definition mul : float -> float -> float := SFmul prec emax.
Definition div : float -> float -> float := SFdiv prec emax.
Definition ltb : float -> float -> bool := SFltb.
Definition eqb : float -> float -> bool := SFeqb.

(** Conversion of a Python int: correctly rounded, exact below 2^53. *)
Definition of_Z (z : Z) : float := binary_normalize prec emax z 0 false.

Definition zero : float := S754_zero false.
Definition one : float := of_Z 1.

(** [np.pi], the double 0x400921FB54442D18. *)
Definition pi : float := S754_finite false 7074237752028440 (-51).

Definition isnan (x : float) : bool :=
  match x with S754_nan => true | _ => false end.

Definition isinf (x : float) : bool :=
  match x with S754_infinity _ => true | _ => false end.

Definition is_zero (x : float) : bool :=
  match x with S754_zero _ => true | _ => false end.

(** A proper binary64 datum: canonical mantissa, exponent in range. *)
Definition valid (x : float) : bool := valid_binary prec emax x.

(** The integer [n] nearest to [m / 2^k], ties going to the even one. *)
Definition half_even (m k : Z) : Z :=
  let q := Z.shiftr m k in
  let r := (m - Z.shiftl q k)%Z in
  let h := Z.shiftl 1 (k - 1) in
  if (r <? h)%Z then q
  else if (h <? r)%Z then (q + 1)%Z
  else if Z.even q then q else (q + 1)%Z.

(** [np.round] on one float64 (decimals = 0): the C [rint], which rounds
    half to even and keeps the sign of a zero result. *)
Definition round (x : float) : float :=
  match x with
  | S754_finite s m e =>
      if (0 <=? e)%Z then x
      else binary_normalize prec emax
             (cond_Zopp s (half_even (Zpos m) (- e))) 0 s
  | _ => x
  end.

(** The integer part of a finite float (truncation toward zero). *)
Definition trunc (x : float) : option Z :=
  match x with
  | S754_zero _ => Some 0%Z
  | S754_finite s m e =>
      Some (cond_Zopp s (if (0 <=? e)%Z then Z.shiftl (Zpos m) e
                         else Z.shiftr (Zpos m) (- e)))
  | _ => None
  end.

Definition int64_min : Z := (- 2 ^ 63)%Z.
Definition int64_max : Z := (2 ^ 63 - 1)%Z.

(** [.astype('int')] on one float64: the C cast to int64.  It truncates;
    numpy leaves NaN, the infinities and values out of range undefined,
    and on x86-64 the conversion instruction yields INT64_MIN for them. *)
Definition astype_int (x : float) : Z :=
  match trunc x with
  | Some z =>
      if ((int64_min <=? z) && (z <=? int64_max))%bool%Z then z
      else int64_min
  | None => int64_min
  end.

End F64.

Abbreviation float := F64.float.

(** ** numpy arrays as nested lists *)

Definition vec : Type := list float.
Definition mat : Type := list vec.

Module np.

Definition shape0 {A} (a : list (list A)) : nat := length a.

Definition shape1 {A} (a : list (list A)) : nat :=
  match a with
  | [] => 0
  | r :: _ => length r
  end.

Definition get1 (a : vec) (i : nat) : float := nth i a F64.zero.
Definition get2 {A} (d : A) (a : list (list A)) (i j : nat) : A :=
  nth j (nth i a []) d.

Definition map2 {A B C} (f : A -> B -> C) (a : list A) (b : list B)
  : list C :=
  map (fun ab => f (fst ab) (snd ab)) (combine a b).

(** Sum of products, accumulated from left to right. *)
Definition inner (a b : vec) : float :=
  fold_left (fun acc xy => F64.add acc (F64.mul (fst xy) (snd xy)))
            (combine a b) F64.zero.

Definition column (m : mat) (k : nat) : vec :=
  map (fun row => get1 row k) m.

Definition transpose (m : mat) : mat :=
  map (column m) (seq 0 (shape1 m)).

(** [M.dot(v)] for a 2-D [M] and a 1-D [v]. *)
Definition dot_mv (m : mat) (v : vec) : vec :=
  map (fun row => inner row v) m.

(** [v.dot(M)] for a 1-D [v] and a 2-D [M]:
    entry k is the sum over i of [v[i] * M[i,k]]. *)
Definition dot_vm (v : vec) (m : mat) : vec :=
  map (fun k => inner v (column m k)) (seq 0 (shape1 m)).

(** [A.dot(B)] for 2-D arrays. *)
Definition dot_mm (a b : mat) : mat :=
  map (fun row => dot_vm row b) a.

Definition ones (n : nat) : vec := repeat F64.one n.
Definition ones_like (a : vec) : vec := ones (length a).

(** [np.outer(a, b)]: entry (i, j) is [a[i] * b[j]]. *)
Definition outer (a b : vec) : mat :=
  map (fun x => map (fun y => F64.mul x y) b) a.

(** A Python float times a 2-D array. *)
Definition scale (c : float) (m : mat) : mat :=
  map (map (F64.mul c)) m.

(** [np.arange(0, n)] as float64. *)
Definition arange (n : nat) : vec :=
  map (fun i => F64.of_Z (Z.of_nat i)) (seq 0 n).

(** [np.linspace(start, stop, num)] with the default [endpoint=True],
    after numpy's [function_base.linspace]: the samples are
    [arange(num) * step + start] with [step = (stop - start) / (num - 1)],
    and the last one is then overwritten with [stop]. *)
Definition linspace (start stop : float) (num : nat) : vec :=
  let div := (num - 1)%nat in
  let delta := F64.sub stop start in
  let y := arange num in
  let y :=
    if (0 <? div)%nat then
      let step := F64.div delta (F64.of_Z (Z.of_nat div)) in
      if F64.eqb step F64.zero
      then map (fun t => F64.mul (F64.div t (F64.of_Z (Z.of_nat div))) delta) y
      else map (fun t => F64.mul t step) y
    else map (fun t => F64.mul t delta) y in
  let y := map (fun t => F64.add t start) y in
  if (1 <? num)%nat then removelast y ++ [stop] else y.

Definition any (p : float -> bool) (m : mat) : bool :=
  existsb (existsb p) m.

End np.

(** ** The objects handed over by gtsam and quadricslam *)

Module gtsam.

(** Eigen's fixed-size types, matrices by rows. *)
Definition Vector3 : Type := (float * float * float)%type.
Definition Vector4 : Type := (float * float * float * float)%type.
Definition Matrix3 : Type := (Vector3 * Vector3 * Vector3)%type.
Definition Matrix34 : Type := (Vector4 * Vector4 * Vector4)%type.

(** The numpy arrays the Python wrapper returns for them. *)
Definition vector (v : Vector3) : vec :=
  let '(x, y, z) := v in [x; y; z].

Definition matrix (m : Matrix3) : mat :=
  let '(r0, r1, r2) := m in [vector r0; vector r1; vector r2].

Definition array34 (m : Matrix34) : mat :=
  let row := fun r : Vector4 => let '(a, b, c, d) := r in [a; b; c; d] in
  let '(r0, r1, r2) := m in [row r0; row r1; row r2].

(** [gtsam.Point3(a)] from a numpy array of three floats. *)
Definition Point3 (a : vec) : Vector3 :=
  (np.get1 a 0, np.get1 a 1, np.get1 a 2).

(** [gtsam.Pose3(R, t)], read back through [rotation().matrix()] and
    [translation().vector()]. *)
Record Pose3 : Type := {
  rotation : Matrix3;
  translation : Vector3
}.

(** [gtsam.Rot3()], the identity rotation. *)
Definition Rot3 : Matrix3 :=
  ((F64.one, F64.zero, F64.zero),
   (F64.zero, F64.one, F64.zero),
   (F64.zero, F64.zero, F64.one)).

(** [gtsam.Cal3_S2]: focal lengths, skew and principal point. *)
Record Cal3_S2 : Type := {
  fx : float; fy : float; skew : float; u0 : float; v0 : float
}.

End gtsam.

Module quadricslam.

(** [quadricslam.ConstrainedDualQuadric]: a pose and three radii. *)
Record ConstrainedDualQuadric : Type := {
  pose : gtsam.Pose3;
  radii : gtsam.Vector3
}.

(** [quadricslam.AlignedBox3]; [vector()] lists the six bounds. *)
Record AlignedBox3 : Type := {
  xmin : float; xmax : float;
  ymin : float; ymax : float;
  zmin : float; zmax : float
}.

Definition vector (b : AlignedBox3) : vec :=
  [xmin b; xmax b; ymin b; ymax b; zmin b; zmax b].

End quadricslam.

Definition Color : Type := (Z * Z * Z)%type.
Definition Point : Type := (Z * Z)%type.

Definition LINE_AA : Z := 16.

(** ** The libraries behind the calls

    An operation that can raise returns [None]: [np.linalg.inv] on a
    singular matrix, an OpenCV primitive on arguments it rejects. *)
Class Libs : Type := {
  np_cos : float -> float;
  np_sin : float -> float;
  np_linalg_inv : mat -> option mat;
  Pose3_between : gtsam.Pose3 -> gtsam.Pose3 -> gtsam.Pose3;
  transformToImage : gtsam.Pose3 -> gtsam.Cal3_S2 -> gtsam.Matrix34;
  Image : Type;
  (** [cv2.line(img, pt1, pt2, color, thickness, lineType)] *)
  cv2_line : Image -> Point -> Point -> Color -> Z -> Z -> option Image;
  (** [cv2.circle(img, center, radius, color, thickness, lineType)] *)
  cv2_circle : Image -> Point -> Z -> Color -> Z -> Z -> option Image;
  (** [cv2.addWeighted(src1, alpha, src2, beta, gamma, dst)] with
      [dst] the buffer [src1] itself. *)
  cv2_addWeighted : Image -> float -> Image -> float -> float -> option Image
}.

(** ** Drawing commands: the image buffer and exceptions

    A command receives [self._image] and returns the buffer as it has
    become, with [Some] result when it returned and [None] when an
    exception left it.  What was drawn before the exception stays
    drawn: the buffer is mutated in place. *)
Section Draw.

Context {L : Libs}.

Definition Draw (A : Type) : Type := Image -> Image * option A.

Definition ret {A} (a : A) : Draw A := fun img => (img, Some a).

Definition raise {A} : Draw A := fun img => (img, None).

Definition bind {A B} (c : Draw A) (k : A -> Draw B) : Draw B :=
  fun img =>
    match c img with
    | (img', Some a) => k a img'
    | (img', None) => (img', None)
    end.

Definition lift {A} (o : option A) : Draw A :=
  match o with
  | Some a => ret a
  | None => raise
  end.

(** [self._image.copy()] *)
Definition copy : Draw Image := fun img => (img, Some img).

(** An OpenCV primitive writing into [self._image]. *)
Definition primitive (f : Image -> option Image) : Draw unit :=
  fun img =>
    match f img with
    | Some img' => (img', Some tt)
    | None => (img, None)
    end.

(** [for x in xs: body(x)] *)
Fixpoint for_each {A} (xs : list A) (body : A -> Draw unit) : Draw unit :=
  match xs with
  | [] => ret tt
  | x :: rest => bind (body x) (fun _ => for_each rest body)
  end.

End Draw.

Declare Scope draw_scope.
Delimit Scope draw_scope with draw.
Notation "x <- c ;; k" := (bind c (fun x => k))
  (at level 61, c at next level, right associativity) : draw_scope.
Notation "c ;; k" := (bind c (fun _ => k))
  (at level 61, right associativity) : draw_scope.

(** [range(n)] for a Python int that may be negative. *)
Definition range (n : Z) : list nat := seq 0 (Z.to_nat n).

(** [a[i] = v] on a list; an index out of range leaves it as it is
    (numpy would raise IndexError; the loops below stay in range). *)
Fixpoint set_nth {A} (a : list A) (i : nat) (v : A) : list A :=
  match a, i with
  | [], _ => []
  | _ :: t, O => v :: t
  | h :: t, S i' => h :: set_nth t i' v
  end.

(** [a[i, j] = v] *)
Definition set2 {A} (a : list (list A)) (i j : nat) (v : A)
  : list (list A) :=
  set_nth a i (set_nth (nth i a []) j v).

(** A loop whose body may raise, threading the array it fills. *)
Fixpoint fold_opt {A S} (xs : list A) (body : S -> A -> option S) (s : S)
  : option S :=
  match xs with
  | [] => Some s
  | x :: rest =>
      match body s x with
      | Some s' => fold_opt rest body s'
      | None => None
      end
  end.

(** ** generate_uv_spherical (drawing.py, lines 216-250) *)
Section Projection.

Context {L : Libs}.

(** Lines 221-232: the samples of the ellipsoid in its own frame, the
    stacked array [points] of shape (3, theta_points, phi_points). *)
Definition surface_points (quadric : quadricslam.ConstrainedDualQuadric)
           (theta_points phi_points : nat) : list mat :=
  let '(rx, ry, rz) := quadricslam.radii quadric in
  let u := np.linspace F64.zero (F64.mul (F64.of_Z 2) F64.pi) theta_points in
  let v := np.linspace F64.zero F64.pi phi_points in
  let x := np.scale rx (np.outer (map np_cos u) (map np_sin v)) in
  let y := np.scale ry (np.outer (map np_sin u) (map np_sin v)) in
  let z := np.scale rz (np.outer (np.ones_like u) (map np_cos v)) in
  [x; y; z].

(** Lines 242-243: [point.dot(np.linalg.inv(rotation))], then
    [+= translation]. *)
Definition warp_point (rotation : mat) (translation point : vec)
  : option vec :=
  match np_linalg_inv rotation with
  | Some rotation_inv =>
      Some (np.map2 F64.add (np.dot_vm point rotation_inv) translation)
  | None => None
  end.

(** Lines 245-247: homogenise, multiply by the 3x4 matrix, divide by
    the last coordinate. *)
Definition project_point (transform_to_image : mat) (warped_point : vec)
  : vec :=
  let point_3D := [np.get1 warped_point 0; np.get1 warped_point 1;
                   np.get1 warped_point 2; F64.one] in
  let point_2D := np.dot_mv transform_to_image point_3D in
  map (fun c => F64.div c (last point_2D F64.zero)) (removelast point_2D).

Definition generate_uv_spherical
           (quadric : quadricslam.ConstrainedDualQuadric)
           (pose : gtsam.Pose3) (calibration : gtsam.Cal3_S2)
           (theta_points phi_points : nat) : option (list mat) :=
  let rotation := gtsam.matrix (gtsam.rotation (quadricslam.pose quadric)) in
  let translation :=
    gtsam.vector (gtsam.translation (quadricslam.pose quadric)) in
  let points := surface_points quadric theta_points phi_points in
  let shape1 := np.shape0 (nth 0 points []) in
  let shape2 := np.shape1 (nth 0 points []) in
  let points_2D := repeat (repeat [F64.zero; F64.zero] shape2) shape1 in
  let transform_to_image :=
    gtsam.array34 (transformToImage pose calibration) in
  fold_opt (seq 0 shape1) (fun points_2D i =>
    fold_opt (seq 0 shape2) (fun points_2D j =>
      let point := map (fun a => np.get2 F64.zero a i j) points in
      match warp_point rotation translation point with
      | Some warped_point =>
          Some (set2 points_2D i j
                     (project_point transform_to_image warped_point))
      | None => None
      end) points_2D) points_2D.

End Projection.

(** ** class CV2Drawing (drawing.py, lines 121-212) *)
Module CV2Drawing.
Section Methods.

Context {L : Libs}.
Local Open Scope draw_scope.

Definition line (pt1 pt2 : Point) (color : Color) (thickness lineType : Z)
  : Draw unit :=
  primitive (fun img => cv2_line img pt1 pt2 color thickness lineType).

Definition circle (center : Point) (radius : Z) (color : Color)
           (thickness lineType : Z) : Draw unit :=
  primitive (fun img => cv2_circle img center radius color thickness lineType).

(** [cv2.addWeighted(self._image, alpha, src2, beta, gamma, self._image)] *)
Definition addWeighted (alpha : float) (src2 : Image) (beta gamma : float)
  : Draw unit :=
  primitive (fun img => cv2_addWeighted img alpha src2 beta gamma).

(** [(p[0], p[1])] of an integer array. *)
Definition xy (p : list Z) : Point := (nth 0 p 0%Z, nth 1 p 0%Z).

(** Lines 168-178: the two loop nests of [quadric]. *)
Definition wireframe (points_2D : list (list (list Z))) (color : Color)
  : Draw unit :=
  for_each (range (Z.of_nat (np.shape0 points_2D))) (fun i =>
    for_each (range (Z.of_nat (np.shape1 points_2D) - 1)) (fun j =>
      let point_2D := np.get2 [] points_2D i j in
      let nextpoint_2D := np.get2 [] points_2D i (j + 1) in
      line (xy point_2D) (xy nextpoint_2D) color 1 LINE_AA)) ;;
  for_each (range (Z.of_nat (np.shape1 points_2D))) (fun j =>
    for_each (range (Z.of_nat (np.shape0 points_2D) - 1)) (fun i =>
      let point_2D := np.get2 [] points_2D i j in
      let nextpoint_2D := np.get2 [] points_2D (i + 1) j in
      line (xy point_2D) (xy nextpoint_2D) color 1 LINE_AA)).

(** Line 161: [np.round(points_2D).astype('int')]. *)
Definition to_pixels (points_2D : list mat) : list (list (list Z)) :=
  map (map (map F64.astype_int)) (map (map (map F64.round)) points_2D).

(** Line 163: [(color[2], color[1], color[0])], RGB to BGR. *)
Definition bgr (color : Color) : Color :=
  (snd color, snd (fst color), fst (fst color)).

(** Lines 159-181. *)
Definition quadric (pose : gtsam.Pose3)
           (quadric : quadricslam.ConstrainedDualQuadric)
           (calibration : gtsam.Cal3_S2) (color : Color) (alpha : float)
  : Draw unit :=
  points_2D <- lift (generate_uv_spherical quadric pose calibration 10 10) ;;
  let points_2D := to_pixels points_2D in
  let color := bgr color in
  full_image <- (if negb (F64.eqb alpha F64.one)
                 then (c <- copy ;; ret (Some c))
                 else ret None) ;;
  wireframe points_2D color ;;
  if negb (F64.eqb alpha F64.one) then
    match full_image with
    | Some full_image =>
        addWeighted alpha full_image (F64.sub F64.one alpha) F64.zero
    | None => raise
    end
  else ret tt.

(** Line 186: the eight corners of the box. *)
Definition corners (box3D : quadricslam.AlignedBox3) : mat :=
  let b := quadricslam.vector box3D in
  flat_map (fun x =>
    flat_map (fun y =>
      map (fun z => [x; y; z]) (firstn 2 (skipn 4 b)))
      (firstn 2 (skipn 2 b)))
    (firstn 2 b).

(** Line 190: the last coordinate of the point in the camera frame. *)
Definition depth (pose : gtsam.Pose3) (point : vec) : float :=
  last (gtsam.vector
          (gtsam.translation
             (Pose3_between pose
                {| gtsam.rotation := gtsam.Rot3;
                   gtsam.translation := gtsam.Point3 point |})))
       F64.zero.

(** Lines 194-196: the homogeneous image coordinates of the corners,
    one column each. *)
Definition homogeneous_corners (pose : gtsam.Pose3)
           (calibration : gtsam.Cal3_S2) (points_3D : mat) : mat :=
  let P := gtsam.array34 (transformToImage pose calibration) in
  let points_3DTH :=
    np.transpose points_3D ++ [np.ones (np.shape0 points_3D)] in
  np.dot_mm P points_3DTH.

(** Lines 197-198: the corners in pixel coordinates, one row each. *)
Definition project_corners (pose : gtsam.Pose3)
           (calibration : gtsam.Cal3_S2) (points_3D : mat) : mat :=
  let points_2D := homogeneous_corners pose calibration points_3D in
  let points_2D :=
    map (fun row => np.map2 F64.div row (nth 2 points_2D []))
        (firstn 2 points_2D) in
  np.transpose points_2D.

Definition edges : list (nat * nat) :=
  [(0,1); (1,3); (3,2); (2,0); (4,5); (5,7); (7,6); (6,4);
   (2,6); (1,5); (0,4); (3,7)]%nat.

(** [tuple(point.astype('int'))] *)
Definition pixel (point : vec) : Point := xy (map F64.astype_int point).

(** Lines 183-212.  The [return] inside the first loop leaves the
    method as soon as one corner has a negative depth; nothing else
    happens in that loop. *)
Definition bounds_3D (box3D : quadricslam.AlignedBox3)
           (pose : gtsam.Pose3) (calibration : gtsam.Cal3_S2)
           (color : Color) : Draw unit :=
  let points_3D := corners box3D in
  if existsb (fun point => F64.ltb (depth pose point) F64.zero) points_3D
  then ret tt
  else
    let points_2D := project_corners pose calibration points_3D in
    if (np.any F64.isinf points_2D || np.any F64.isnan points_2D)%bool
    then ret tt
    else
      for_each points_2D (fun point =>
        circle (pixel point) 1 (0, 0, 255)%Z (-1) LINE_AA) ;;
      for_each edges (fun index =>
        let p1 := pixel (nth (fst index) points_2D []) in
        let p2 := pixel (nth (snd index) points_2D []) in
        line p1 p2 color 1 LINE_AA).

End Methods.
End CV2Drawing.

(** ** A reference implementation of the libraries

    One instance of [Libs] on which the model runs: textbook formulas
    for the geometry, truncated power series in place of libm, and a
    canvas that records the OpenCV calls it receives. *)
Module Ref.

Definition neg (x : float) : float := SFopp x.

(** Sum of the first [n] terms of a power series whose term of index
    [k + 1] is the term of index [k] times [- x2 / ((d + 1) (d + 2))],
    [d] being the degree of the term of index [k]. *)
Fixpoint series (n : nat) (x2 term : float) (d : Z) (acc : float) : float :=
  match n with
  | O => acc
  | S n' =>
      let term' :=
        F64.div (F64.mul (neg term) x2) (F64.of_Z ((d + 1) * (d + 2))) in
      series n' x2 term' (d + 2) (F64.add acc term)
  end.

Definition cos (x : float) : float :=
  series 24 (F64.mul x x) F64.one 0 F64.zero.

Definition sin (x : float) : float :=
  series 24 (F64.mul x x) x 1 F64.zero.

Definition det2 (a b c d : float) : float :=
  F64.sub (F64.mul a d) (F64.mul b c).

(** Inverse of a 3x3 matrix by cofactors; [None] stands for numpy's
    LinAlgError on a singular matrix (or a matrix of another shape). *)
Definition inv (m : mat) : option mat :=
  match m with
  | [[a; b; c]; [d; e; f]; [g; h; i]] =>
      let A := det2 e f h i in
      let B := neg (det2 d f g i) in
      let C := det2 d e g h in
      let det := F64.add (F64.add (F64.mul a A) (F64.mul b B)) (F64.mul c C) in
      if F64.is_zero det then None
      else
        Some (map (map (fun t => F64.div t det))
               [[A; neg (det2 b c h i); det2 b c e f];
                [B; det2 a c g i; neg (det2 a c d f)];
                [C; neg (det2 a b g h); det2 a b d e]])
  | _ => None
  end.

Definition Matrix3_of (m : mat) : gtsam.Matrix3 :=
  (gtsam.Point3 (nth 0 m []), gtsam.Point3 (nth 1 m []),
   gtsam.Point3 (nth 2 m [])).

(** [Pose3.inverse()]: (R^T, R^T (-t)). *)
Definition inverse (p : gtsam.Pose3) : gtsam.Pose3 :=
  let Rt := np.transpose (gtsam.matrix (gtsam.rotation p)) in
  {| gtsam.rotation := Matrix3_of Rt;
     gtsam.translation :=
       gtsam.Point3
         (np.dot_mv Rt (map neg (gtsam.vector (gtsam.translation p)))) |}.

(** [Pose3.compose]: (R1 R2, t1 + R1 t2). *)
Definition compose (p1 p2 : gtsam.Pose3) : gtsam.Pose3 :=
  let R1 := gtsam.matrix (gtsam.rotation p1) in
  {| gtsam.rotation :=
       Matrix3_of (np.dot_mm R1 (gtsam.matrix (gtsam.rotation p2)));
     gtsam.translation :=
       gtsam.Point3
         (np.map2 F64.add (gtsam.vector (gtsam.translation p1))
            (np.dot_mv R1 (gtsam.vector (gtsam.translation p2)))) |}.

(** [p1.between(p2)] is [p1.inverse().compose(p2)]. *)
Definition between (p1 p2 : gtsam.Pose3) : gtsam.Pose3 :=
  compose (inverse p1) p2.

Definition K (c : gtsam.Cal3_S2) : mat :=
  [[gtsam.fx c; gtsam.skew c; gtsam.u0 c];
   [F64.zero; gtsam.fy c; gtsam.v0 c];
   [F64.zero; F64.zero; F64.one]].

(** Modelled from the spec: [QuadricCamera.transformToImage] is not
    part of the Python sources; section 4.3 gives the 3x4 matrix
    P = K [R|t]^-1, the calibration matrix times the inverse pose. *)
Definition image_T_world (pose : gtsam.Pose3) (c : gtsam.Cal3_S2)
  : gtsam.Matrix34 :=
  let inv_pose := inverse pose in
  let P := np.dot_mm (K c)
             (np.map2 (fun row t => row ++ [t])
                (gtsam.matrix (gtsam.rotation inv_pose))
                (gtsam.vector (gtsam.translation inv_pose))) in
  let row := fun r : vec =>
               (np.get1 r 0, np.get1 r 1, np.get1 r 2, np.get1 r 3) in
  (row (nth 0 P []), row (nth 1 P []), row (nth 2 P [])).

(** The picture as the history of the calls that made it. *)
Inductive canvas : Type :=
| Blank
| Line (c : canvas) (pt1 pt2 : Point) (color : Color) (thickness lineType : Z)
| Circle (c : canvas) (center : Point) (radius : Z) (color : Color)
         (thickness lineType : Z)
| Blend (src1 : canvas) (alpha : float) (src2 : canvas) (beta gamma : float).

(** Number of line segments drawn on a canvas since it was blank or
    last blended. *)
Fixpoint lines (c : canvas) : nat :=
  match c with
  | Blank => 0
  | Line c' _ _ _ _ _ => S (lines c')
  | Circle c' _ _ _ _ _ => lines c'
  | Blend _ _ _ _ _ => 0
  end.

#[export] Instance libs : Libs := {|
  np_cos := cos;
  np_sin := sin;
  np_linalg_inv := inv;
  Pose3_between := between;
  transformToImage := image_T_world;
  Image := canvas;
  cv2_line := fun img p q c t l => Some (Line img p q c t l);
  cv2_circle := fun img p r c t l => Some (Circle img p r c t l);
  cv2_addWeighted := fun img a img2 b g => Some (Blend img a img2 b g)
|}.

Definition identity_pose : gtsam.Pose3 :=
  {| gtsam.rotation := gtsam.Rot3;
     gtsam.translation := (F64.zero, F64.zero, F64.zero) |}.

End Ref.

(** ** What a method asks of OpenCV, as a list of calls *)

Inductive call : Type :=
| LineTo (pt1 pt2 : Point) (color : Color) (thickness lineType : Z)
| CircleAt (center : Point) (radius : Z) (color : Color)
           (thickness lineType : Z).

Section Calls.

Context {L : Libs}.

Definition perform (c : call) : Draw unit :=
  match c with
  | LineTo p q color t l => CV2Drawing.line p q color t l
  | CircleAt p r color t l => CV2Drawing.circle p r color t l
  end.

(** The calls of a list, one after the other, up to the first that
    raises. *)
Definition run (cs : list call) : Draw unit := for_each cs perform.

End Calls.

Definition is_line (c : call) : bool :=
  match c with LineTo _ _ _ _ _ => true | CircleAt _ _ _ _ _ => false end.

(** An edge of a grid: the indices of its two ends. *)
Definition edge : Type := ((nat * nat) * (nat * nat))%type.

(** The neighbours along the second axis of an m x n grid: (i, j) and
    (i, j + 1). *)
Definition row_edges (m n : nat) : list edge :=
  flat_map (fun i => map (fun j => ((i, j), (i, j + 1))) (seq 0 (n - 1)))
           (seq 0 m).

(** The neighbours along the first axis: (i, j) and (i + 1, j). *)
Definition col_edges (m n : nat) : list edge :=
  flat_map (fun j => map (fun i => ((i, j), (i + 1, j))) (seq 0 (m - 1)))
           (seq 0 n).

(** The call that draws an edge of the grid [points_2D]. *)
Definition segment (points_2D : list (list (list Z))) (color : Color)
           (e : edge) : call :=
  LineTo (CV2Drawing.xy (np.get2 [] points_2D (fst (fst e)) (snd (fst e))))
         (CV2Drawing.xy (np.get2 [] points_2D (fst (snd e)) (snd (snd e))))
         color 1 LINE_AA.

(** [points_2D] has [m] rows of [n] entries. *)
Definition has_shape {A} (a : list (list A)) (m n : nat) : Prop :=
  length a = m /\ Forall (fun row => length row = n) a.

(** ** The pieces of [generate_uv_spherical] named *)
Section Samples.

Context {L : Libs}.

(** [points[:, i, j]], the sample of index (i, j) in the frame of the
    quadric. *)
Definition sample (quadric : quadricslam.ConstrainedDualQuadric)
           (theta_points phi_points i j : nat) : vec :=
  map (fun a => np.get2 F64.zero a i j)
      (surface_points quadric theta_points phi_points).

(** What lines 242-243 compute once the inverse is at hand: the row
    vector [point] times [rotation_inv], plus [translation]. *)
Definition world_point (rotation_inv : mat) (translation point : vec) : vec :=
  np.map2 F64.add (np.dot_vm point rotation_inv) translation.

(** The inverse rotation applied to the point, then the translation
    added, as section 4.2 of the specification words it:
    R^-1 p + t. *)
Definition inverse_rotate_then_translate
           (rotation_inv : mat) (translation point : vec) : vec :=
  np.map2 F64.add (np.dot_mv rotation_inv point) translation.

End Samples.

(** ** The calls of [bounds_3D] when it draws *)
Section BoxCalls.

Context {L : Libs}.

(** The dots on the projected corners, in the order of the rows. *)
Definition corner_calls (points_2D : mat) : list call :=
  map (fun point =>
         CircleAt (CV2Drawing.pixel point) 1 (0, 0, 255)%Z (-1) LINE_AA)
      points_2D.

(** One line per pair of corner indices. *)
Definition edge_calls (points_2D : mat) (color : Color)
           (pairs : list (nat * nat)) : list call :=
  map (fun index =>
         LineTo (CV2Drawing.pixel (nth (fst index) points_2D []))
                (CV2Drawing.pixel (nth (snd index) points_2D []))
                color 1 LINE_AA)
      pairs.

Definition box_calls (box3D : quadricslam.AlignedBox3) (pose : gtsam.Pose3)
           (calibration : gtsam.Cal3_S2) (color : Color) : list call :=
  let points_2D :=
    CV2Drawing.project_corners pose calibration (CV2Drawing.corners box3D) in
  corner_calls points_2D ++ edge_calls points_2D color CV2Drawing.edges.

End BoxCalls.

(** Neither NaN nor an infinity. *)
Definition finite (x : float) : bool := negb (F64.isinf x || F64.isnan x).

(** ** Inputs on which the model is run *)
Module Examples.

Definition cal : gtsam.Cal3_S2 :=
  {| gtsam.fx := F64.of_Z 500; gtsam.fy := F64.of_Z 500;
     gtsam.skew := F64.zero;
     gtsam.u0 := F64.of_Z 320; gtsam.v0 := F64.of_Z 240 |}.

Definition box (z0 z1 : Z) : quadricslam.AlignedBox3 :=
  {| quadricslam.xmin := F64.of_Z (-1); quadricslam.xmax := F64.of_Z 1;
     quadricslam.ymin := F64.of_Z (-1); quadricslam.ymax := F64.of_Z 1;
     quadricslam.zmin := F64.of_Z z0; quadricslam.zmax := F64.of_Z z1 |}.

(** A unit sphere centred at height [z] on the optical axis. *)
Definition sphere (z : Z) : quadricslam.ConstrainedDualQuadric :=
  {| quadricslam.pose :=
       {| gtsam.rotation := gtsam.Rot3;
          gtsam.translation := (F64.zero, F64.zero, F64.of_Z z) |};
     quadricslam.radii := (F64.one, F64.one, F64.one) |}.

Definition magenta : Color := (255, 0, 255)%Z.
Definition red : Color := (255, 0, 0)%Z.

End Examples.

(** ** Rounding to pixels *)

(** [z] is an integer nearest to the finite float [x]: with
    x = (-1)^s m 2^e, either [x] is the integer [z] itself (e >= 0) or
    |x - z| <= 1/2, both sides scaled by 2^(-e). *)
Definition nearest_integer (x : float) (z : Z) : Prop :=
  match x with
  | S754_zero _ => z = 0%Z
  | S754_finite s m e =>
      if (0 <=? e)%Z then z = cond_Zopp s (Zpos m * 2 ^ e)%Z
      else (2 * Z.abs (cond_Zopp s (Zpos m) - z * 2 ^ (- e)) <= 2 ^ (- e))%Z
  | _ => False
  end.

(** The integer part of [x] fits an int64. *)
Definition in_int64 (x : float) : Prop :=
  match F64.trunc x with
  | Some z => (F64.int64_min <= z <= F64.int64_max)%Z
  | None => False
  end.

(** The pixel of a projected point, as line 161 computes it. *)
Definition rounded_pixel (point_2D : vec) : Point :=
  (F64.astype_int (F64.round (np.get1 point_2D 0)),
   F64.astype_int (F64.round (np.get1 point_2D 1))).

(** 2.7 and 2.5 in binary64. *)
Definition f2_7 : float := S754_finite false 6079859496950170 (-51).
Definition f2_5 : float := S754_finite false 5 (-1).

(** ** The calls of [quadric] *)
Section QuadricCalls.

Context {L : Libs}.

(** The line between the rounded pixels of two entries of the float
    grid [g]. *)
Definition rounded_segment (g : list mat) (color : Color) (e : edge) : call :=
  LineTo (rounded_pixel (np.get2 [] g (fst (fst e)) (snd (fst e))))
         (rounded_pixel (np.get2 [] g (fst (snd e)) (snd (snd e))))
         color 1 LINE_AA.

(** Lines 180-181: what follows the loops, [original] being the copy
    taken on line 166. *)
Definition finish (alpha : float) (original : Image) : Draw unit :=
  if negb (F64.eqb alpha F64.one)
  then CV2Drawing.addWeighted alpha original (F64.sub F64.one alpha) F64.zero
  else ret tt.

End QuadricCalls.

Module Inputs.

Definition half : float := S754_finite false 4503599627370496 (-53).

(** The float grid of the unit sphere five units in front of the
    camera, under the reference libraries. *)
Definition grid5 : list mat :=
  match generate_uv_spherical (L := Ref.libs) (Examples.sphere 5)
          Ref.identity_pose Examples.cal 10 10 with
  | Some g => g
  | None => []
  end.

(** The same sphere with its pole (u, v) = (., 0) on the centre of
    projection: centre at z = -1, radius 1. *)
Definition grid_pole : list mat :=
  match generate_uv_spherical (L := Ref.libs) (Examples.sphere (-1))
          Ref.identity_pose Examples.cal 10 10 with
  | Some g => g
  | None => []
  end.

Definition grid_2x3 : list (list (list Z)) :=
  [[[0; 0]; [10; 0]; [20; 0]];
   [[0; 10]; [10; 10]; [20; 10]]]%Z.

End Inputs.

(** ** The angles of the sampler *)

(** Line 224: [u = np.linspace(0, 2 * np.pi, theta_points)]. *)
Definition angles_u (theta_points : nat) : vec :=
  np.linspace F64.zero (F64.mul (F64.of_Z 2) F64.pi) theta_points.

(** Line 225: [v = np.linspace(0, np.pi, phi_points)]. *)
Definition angles_v (phi_points : nat) : vec :=
  np.linspace F64.zero F64.pi phi_points.

(** [a] holds [num] values from 0 to [stop], both ends included, the
    one of index i being i times the step [stop / (num - 1)], plus 0. *)
Definition evenly_spaced (stop : float) (num : nat) (a : vec) : Prop :=
  let step := F64.div stop (F64.of_Z (Z.of_nat (num - 1))) in
  length a = num
  /\ np.get1 a 0 = F64.zero
  /\ np.get1 a (num - 1) = stop
  /\ forall i, i < num - 1 ->
               np.get1 a i
               = F64.add (F64.mul (F64.of_Z (Z.of_nat i)) step) F64.zero.

(** ** A quadric turned a quarter of a turn about its z axis *)
Module Turned.

(** The rotation taking the x axis to the y axis. *)
Definition Rz90 : gtsam.Matrix3 :=
  ((F64.zero, F64.of_Z (-1), F64.zero),
   (F64.one, F64.zero, F64.zero),
   (F64.zero, F64.zero, F64.one)).

Definition quadric : quadricslam.ConstrainedDualQuadric :=
  {| quadricslam.pose :=
       {| gtsam.rotation := Rz90;
          gtsam.translation := (F64.zero, F64.zero, F64.of_Z 5) |};
     quadricslam.radii := (F64.of_Z 3, F64.of_Z 2, F64.one) |}.

(** The sample (u, v) = (0, pi / 2) of that quadric, on its x axis. *)
Definition point : vec := sample (L := Ref.libs) quadric 5 5 0 2.

End Turned.

(** ** An OpenCV that checks its arguments *)
Module Strict.

(** A coordinate the Python binding can hand to C as an [int]. *)
Definition c_int (z : Z) : bool := ((- 2 ^ 31 <=? z) && (z <? 2 ^ 31))%Z.

Definition accepts (p : Point) : bool := c_int (fst p) && c_int (snd p).

(** The reference libraries, with drawing primitives that raise on a
    point outside the range of a C [int] instead of drawing. *)
#[export] Instance libs : Libs := {|
  np_cos := Ref.cos;
  np_sin := Ref.sin;
  np_linalg_inv := Ref.inv;
  Pose3_between := Ref.between;
  transformToImage := Ref.image_T_world;
  Image := Ref.canvas;
  cv2_line := fun img p q c t l =>
    if accepts p && accepts q then Some (Ref.Line img p q c t l) else None;
  cv2_circle := fun img p r c t l =>
    if accepts p then Some (Ref.Circle img p r c t l) else None;
  cv2_addWeighted := fun img a img2 b g => Some (Ref.Blend img a img2 b g)
|}.

End Strict.

(** ** More inputs *)
Module Degenerate.

(** A quadric whose rotation matrix is all zeros, as [gtsam.Rot3(R)]
    accepts it. *)
Definition flat : quadricslam.ConstrainedDualQuadric :=
  {| quadricslam.pose :=
       {| gtsam.rotation :=
            ((F64.zero, F64.zero, F64.zero),
             (F64.zero, F64.zero, F64.zero),
             (F64.zero, F64.zero, F64.zero));
          gtsam.translation := (F64.zero, F64.zero, F64.of_Z 5) |};
     quadricslam.radii := (F64.one, F64.one, F64.one) |}.

End Degenerate.

(** ** Python and numpy scalars for the label methods *)

(** The value of a float in units of 2^-1074, of which every finite
    binary64 is an integer multiple; 0 for the others. *)
Definition scaled (x : float) : Z :=
  match x with
  | S754_finite s m e => cond_Zopp s (Zpos m * 2 ^ (e + 1074))%Z
  | _ => 0%Z
  end.

(** Neither NaN nor an infinity, as a test on the constructor. *)
Definition is_number (x : float) : bool :=
  match x with
  | S754_zero _ | S754_finite _ _ _ => true
  | _ => false
  end.

Module py.

(** A Python number as the methods receive it: an [int] or a [float]. *)
Inductive num : Type :=
| Int (z : Z)
| Float (x : float).

(** [int(n)]: the identity on an int, truncation toward zero on a
    float; [None] for the ValueError on NaN and the OverflowError on an
    infinity. *)
Definition int (n : num) : option Z :=
  match n with
  | Int z => Some z
  | Float x => F64.trunc x
  end.

(** [n + k] and [n - k] for an int [k]. *)
Definition add_int (n : num) (k : Z) : num :=
  match n with
  | Int z => Int (z + k)
  | Float x => Float (F64.add x (F64.of_Z k))
  end.

Definition sub_int (n : num) (k : Z) : num :=
  match n with
  | Int z => Int (z - k)
  | Float x => Float (F64.sub x (F64.of_Z k))
  end.

End py.

Module npy.

(** numpy's [_NPY_MAX] and [_NPY_MIN] on float64: the first operand
    when it is NaN or strictly beyond the second, the second
    otherwise. *)
Definition max (a b : float) : float :=
  if F64.isnan a || F64.ltb b a then a else b.

Definition min (a b : float) : float :=
  if F64.isnan a || F64.ltb a b then a else b.

(** [np.clip] on a float64 with float64 bounds, [min (max (x, lo), hi)]. *)
Definition clip_float (x lo hi : float) : float := min (max x lo) hi.

Definition fits_int64 (z : Z) : bool :=
  ((F64.int64_min <=? z) && (z <=? F64.int64_max))%Z.

(** [np.clip(n, lo, hi)] for a Python number and two Python ints: on
    an int the three become int64, on a float the bounds become
    float64.  An int that does not fit int64 makes numpy leave int64
    for uint64, float64 or object arrays, depending on its version:
    that case is outside the model ([None]), and the properties of
    [text] below keep to ints that fit. *)
Definition clip (n : py.num) (lo hi : Z) : option py.num :=
  match n with
  | py.Int z =>
      if fits_int64 z && fits_int64 lo && fits_int64 hi
      then Some (py.Int (Z.min (Z.max z lo) hi))
      else None
  | py.Float x => Some (py.Float (clip_float x (F64.of_Z lo) (F64.of_Z hi)))
  end.

End npy.

(** [quadricslam.AlignedBox2], a detection box in pixels. *)
Record AlignedBox2 : Type := {
  box_xmin : float; box_ymin : float; box_xmax : float; box_ymax : float
}.

Definition FONT_HERSHEY_SIMPLEX : Z := 0.
Definition FILLED : Z := -1.

(** ** The OpenCV calls of the label methods *)
Class TextLibs {L : Libs} : Type := {
  (** [img.shape[0]] and [img.shape[1]]: rows, then columns. *)
  image_shape : Image -> Z * Z;
  (** [cv2.rectangle(img, pt1, pt2, color, thickness)] *)
  cv2_rectangle : Image -> Point -> Point -> Color -> Z -> option Image;
  (** [cv2.getTextSize(text, font, scale, thickness)]:
      ((width, height), baseline). *)
  cv2_getTextSize : String.string -> Z -> float -> Z -> (Z * Z) * Z;
  (** [cv2.putText(img, text, org, font, scale, color, thickness,
      lineType)] *)
  cv2_putText : Image -> String.string -> Point -> Z -> float -> Color ->
                Z -> Z -> option Image;
  (** Drawing happens in place: the array keeps its shape. *)
  cv2_rectangle_shape :
    forall img pt1 pt2 color thickness img',
      cv2_rectangle img pt1 pt2 color thickness = Some img' ->
      image_shape img' = image_shape img
}.

(** ** class CV2Drawing, the label methods (drawing.py, lines 125-157) *)
Module CV2Labels.
Section Methods.

Context {L : Libs} {T : TextLibs}.
Local Open Scope draw_scope.
Local Open Scope Z_scope.

(** Reading an attribute of [self._image]. *)
Definition read {A} (f : Image -> A) : Draw A := fun img => (img, Some (f img)).

Definition rectangle (pt1 pt2 : Point) (color : Color) (thickness : Z)
  : Draw unit :=
  primitive (fun img => cv2_rectangle img pt1 pt2 color thickness).

Definition putText (text : String.string) (org : Point) (font : Z)
           (font_scale : float) (color : Color) (thickness lineType : Z)
  : Draw unit :=
  primitive (fun img =>
    cv2_putText img text org font font_scale color thickness lineType).

(** Lines 125-126.  The four [int(...)] are evaluated before the call. *)
Definition box (box : AlignedBox2) (color : Color) (thickness : Z)
  : Draw unit :=
  x0 <- lift (py.int (py.Float (box_xmin box))) ;;
  y0 <- lift (py.int (py.Float (box_ymin box))) ;;
  x1 <- lift (py.int (py.Float (box_xmax box))) ;;
  y1 <- lift (py.int (py.Float (box_ymax box))) ;;
  rectangle (x0, y0) (x1, y1) color thickness.

(** [int(np.clip(n, lo, hi))] *)
Definition clipped (n : py.num) (lo hi : Z) : option Z :=
  match npy.clip n lo hi with
  | Some c => py.int c
  | None => None
  end.

(** Lines 128-152. *)
Definition text (text : String.string) (lower_left : py.num * py.num)
           (color : Color) (thickness : Z) (background : bool)
           (background_color : Color) (background_margin : Z) : Draw unit :=
  let font := FONT_HERSHEY_SIMPLEX in
  let font_scale := S754_finite false 4503599627370496 (-53) in
  let lower_left := (py.add_int (fst lower_left) background_margin,
                     py.sub_int (snd lower_left) background_margin) in
  let text_size := cv2_getTextSize text font font_scale thickness in
  let text_width := fst (fst text_size) + background_margin * 2 in
  let text_height := snd (fst text_size) + background_margin * 2 in
  image_width <- read (fun img => snd (image_shape img)) ;;
  image_height <- read (fun img => fst (image_shape img)) ;;
  y <- lift (clipped (snd lower_left) text_height image_height) ;;
  x <- lift (clipped (fst lower_left) 0 (image_width - text_width)) ;;
  let final_position := (x, y) in
  (if background then
     let upper_left := (fst final_position, snd final_position - text_height) in
     let xmin := fst upper_left - background_margin + 1 in
     let ymin := snd upper_left - background_margin + 4 in
     let xmax := fst upper_left + text_width + background_margin in
     let ymax := snd upper_left + text_height + background_margin + 1 in
     rectangle (xmin, ymin) (xmax, ymax) background_color FILLED
   else ret tt) ;;
  putText text final_position font font_scale color thickness LINE_AA.

(** Lines 154-157. *)
Definition box_and_text (b : AlignedBox2) (box_color : Color)
           (label : String.string) (text_color : Color) : Draw unit :=
  let box_thickness := 2 in
  box b box_color box_thickness ;;
  text label
       (py.Float (F64.sub (box_xmin b) (F64.of_Z box_thickness)),
        py.Float (F64.sub (box_ymin b) (F64.of_Z box_thickness)))
       text_color 1 true box_color 3.

(** Where [text] puts a label of the given size on an image of the
    given size, for a lower-left corner already shifted by the margin. *)
Definition anchor (shifted : py.num * py.num) (text_width text_height : Z)
           (image_width image_height : Z) : option Point :=
  match clipped (snd shifted) text_height image_height,
        clipped (fst shifted) 0 (image_width - text_width) with
  | Some y, Some x => Some (x, y)
  | _, _ => None
  end.

End Methods.
End CV2Labels.

(** ** A canvas for the label methods *)
Module Sheet.

(** The picture as the history of its calls, on a blank image of a
    given number of rows and columns. *)
Inductive canvas : Type :=
| Blank (rows cols : Z)
| Line (c : canvas) (pt1 pt2 : Point) (color : Color) (thickness lineType : Z)
| Circle (c : canvas) (center : Point) (radius : Z) (color : Color)
         (thickness lineType : Z)
| Blend (src1 : canvas) (alpha : float) (src2 : canvas) (beta gamma : float)
| Rectangle (c : canvas) (pt1 pt2 : Point) (color : Color) (thickness : Z)
| Text (c : canvas) (text : String.string) (org : Point) (font : Z)
       (font_scale : float) (color : Color) (thickness lineType : Z).

Fixpoint shape (c : canvas) : Z * Z :=
  match c with
  | Blank rows cols => (rows, cols)
  | Line c' _ _ _ _ _ | Circle c' _ _ _ _ _ | Blend c' _ _ _ _
  | Rectangle c' _ _ _ _ | Text c' _ _ _ _ _ _ _ => shape c'
  end.

#[export] Instance libs : Libs := {|
  np_cos := Ref.cos;
  np_sin := Ref.sin;
  np_linalg_inv := Ref.inv;
  Pose3_between := Ref.between;
  transformToImage := Ref.image_T_world;
  Image := canvas;
  cv2_line := fun img p q c t l => Some (Line img p q c t l);
  cv2_circle := fun img p r c t l => Some (Circle img p r c t l);
  cv2_addWeighted := fun img a img2 b g => Some (Blend img a img2 b g)
|}.

(** Ten pixels a character and eleven pixels high stand in for the
    metrics of the Hershey font. *)
#[export] Instance text_libs : TextLibs (L := libs) := {|
  image_shape := shape;
  cv2_rectangle := fun img p q c t => Some (Rectangle img p q c t);
  cv2_getTextSize := fun text font scale thickness =>
    ((10 * Z.of_nat (String.length text), 11), 4)%Z;
  cv2_putText := fun img text org font scale c t l =>
    Some (Text img text org font scale c t l);
  cv2_rectangle_shape := fun img pt1 pt2 color thickness img' H =>
    match H in (_ = o) return
          (match o with Some i => shape i = shape img | None => True end)
    with eq_refl => eq_refl end
|}.

(** A detection of eighty by sixty pixels whose corner is above and to
    the left of the image. *)
Definition detection : AlignedBox2 :=
  {| box_xmin := F64.of_Z (-30); box_ymin := F64.of_Z (-20);
     box_xmax := F64.of_Z 50; box_ymax := F64.of_Z 40 |}.

(** A detection with bounds between the pixels:
    (-30.5, 20.75) to (50.25, 99.5). *)
Definition between_pixels : AlignedBox2 :=
  {| box_xmin := F64.div (F64.of_Z (-61)) (F64.of_Z 2);
     box_ymin := F64.div (F64.of_Z 83) (F64.of_Z 4);
     box_xmax := F64.div (F64.of_Z 201) (F64.of_Z 4);
     box_ymax := F64.div (F64.of_Z 199) (F64.of_Z 2) |}.

(** A detection with a NaN bound. *)
Definition broken : AlignedBox2 :=
  {| box_xmin := F64.of_Z 10; box_ymin := F64.of_Z 10;
     box_xmax := S754_nan; box_ymax := F64.of_Z 40 |}.

End Sheet.

Module Words.
Import String.

Definition cup : String.string := "cup"%string.

End Words.

(** A number [text] can place: an int of moderate size, or a float
    that is a well-formed double other than NaN. *)
Definition placeable (n : py.num) : Prop :=
  match n with
  | py.Int z => (Z.abs z < 2 ^ 62)%Z
  | py.Float x => F64.valid x = true /\ F64.isnan x = false
  end.

(** The calls of [text] once the label has its place [org]. *)
Definition label_at {L : Libs} {T : TextLibs} (text : String.string)
           (org : Point) (text_width text_height : Z) (color : Color)
           (thickness : Z) (background : bool) (background_color : Color)
           (background_margin : Z) : Draw unit :=
  bind (if background
        then CV2Labels.rectangle
               (fst org - background_margin + 1,
                snd org - text_height - background_margin + 4)%Z
               (fst org + text_width + background_margin,
                snd org - text_height + text_height + background_margin + 1)%Z
               background_color FILLED
        else ret tt)
       (fun _ => CV2Labels.putText text org FONT_HERSHEY_SIMPLEX
                   (S754_finite false 4503599627370496 (-53))
                   color thickness LINE_AA).

(** ** class MPLDrawing: plot_result (drawing.py, lines 86-116) *)
Module MPL.

(** What [plt.plot] is given for x and for y: a number or an array. *)
Inductive PlotArg : Type :=
| Scalar (x : float)
| Array (xs : vec).

(** matplotlib, as far as [plot_result] uses it.  [Plt] is the state of
    [matplotlib.pyplot], its figures and the current one; a call that
    raises returns [None]. *)
Class Pyplot : Type := {
  Plt : Type;
  Figure : Type;
  (** a matplotlib color, as the caller passes it *)
  MColor : Type;
  Line : Type;
  (** [plt.figure(name)] *)
  plt_figure : Plt -> String.string -> option (Plt * Figure);
  (** [figure.clf()] *)
  figure_clf : Plt -> Figure -> option Plt;
  (** [plt.plot(x, y, marker=, markersize=, c=, label=)] *)
  plt_plot : Plt -> PlotArg -> PlotArg -> String.string -> Z -> MColor ->
             String.string -> option Plt;
  (** [Line2D(xdata, ydata, color=, lw=)] *)
  Line2D : list Z -> list Z -> MColor -> Z -> option Line;
  (** [figure.legend(handles, labels)] *)
  figure_legend : Plt -> Figure -> list Line -> list String.string ->
                  option Plt;
  (** [plt.show()] *)
  plt_show : Plt -> option Plt
}.

(** The strings of the method. *)
Module Str.
Import String.

Definition o : string := "o"%string.

(** ['traj {}'.format(i)] and ['quads {}'.format(i)] *)
Definition traj (i : nat) : string :=
  append "traj "%string (DecimalString.NilEmpty.string_of_uint (Nat.to_uint i)).

Definition quads (i : nat) : string :=
  append "quads "%string (DecimalString.NilEmpty.string_of_uint (Nat.to_uint i)).

End Str.

Section Monad.

Context {P : Pyplot}.

Definition Plot (A : Type) : Type := Plt -> Plt * option A.

Definition ret {A} (a : A) : Plot A := fun s => (s, Some a).

Definition raise {A} : Plot A := fun s => (s, None).

Definition bind {A B} (c : Plot A) (k : A -> Plot B) : Plot B :=
  fun s =>
    match c s with
    | (s', Some a) => k a s'
    | (s', None) => (s', None)
    end.

Definition lift {A} (o : option A) : Plot A :=
  match o with
  | Some a => ret a
  | None => raise
  end.

(** A call that changes the state of pyplot. *)
Definition effect (f : Plt -> option Plt) : Plot unit :=
  fun s =>
    match f s with
    | Some s' => (s', Some tt)
    | None => (s, None)
    end.

Fixpoint for_each {A} (xs : list A) (body : A -> Plot unit) : Plot unit :=
  match xs with
  | [] => ret tt
  | x :: rest => bind (body x) (fun _ => for_each rest body)
  end.

End Monad.

Declare Scope plot_scope.
Delimit Scope plot_scope with plot.
Notation "x <- c ;; k" := (bind c (fun x => k))
  (at level 61, c at next level, right associativity) : plot_scope.
Notation "c ;; k" := (bind c (fun _ => k))
  (at level 61, right associativity) : plot_scope.

(** A list comprehension whose element expression can raise. *)
Fixpoint comprehension {A B} (f : A -> option B) (xs : list A)
  : option (list B) :=
  match xs with
  | [] => Some []
  | x :: rest =>
      match f x with
      | Some y =>
          match comprehension f rest with
          | Some ys => Some (y :: ys)
          | None => None
          end
      | None => None
      end
  end.

Definition enumerate {A} (xs : list A) : list (nat * A) :=
  combine (seq 0 (length xs)) xs.

(** [xy[:, k]] for [xy = np.array(rows)].  Without rows the array is
    one-dimensional, of shape (0,), and the index raises IndexError. *)
Definition slice_column (rows : mat) (k : nat) : option vec :=
  match rows with
  | [] => None
  | _ :: _ => if (k <? np.shape1 rows)%nat then Some (np.column rows k)
              else None
  end.

(** [pose.x()] and [pose.y()] *)
Definition x (pose : gtsam.Pose3) : float :=
  fst (fst (gtsam.translation pose)).

Definition y (pose : gtsam.Pose3) : float :=
  snd (fst (gtsam.translation pose)).

(** What [data()] returns for a [Trajectory] and for a [Quadrics]. *)
Definition Trajectory : Type := list gtsam.Pose3.
Definition Quadrics : Type := list quadricslam.ConstrainedDualQuadric.

Section Methods.

Context {P : Pyplot}.
Local Open Scope plot_scope.

Definition figure (name : String.string) : Plot Figure :=
  fun s =>
    match plt_figure s name with
    | Some (s', f) => (s', Some f)
    | None => (s, None)
    end.

Definition clf (f : Figure) : Plot unit :=
  effect (fun s => figure_clf s f).

Definition plot (px py : PlotArg) (marker : String.string) (markersize : Z)
           (c : MColor) (label : String.string) : Plot unit :=
  effect (fun s => plt_plot s px py marker markersize c label).

Definition legend (f : Figure) (handles : list Line)
           (labels : list String.string) : Plot unit :=
  effect (fun s => figure_legend s f handles labels).

Definition show : Plot unit := effect plt_show.

(** Lines 86-116; [figname] is [self._figname]. *)
Definition plot_result (figname : String.string)
           (trajectories : list Trajectory) (maps : list Quadrics)
           (colors : list MColor) (names : option (list String.string))
  : Plot unit :=
  fig <- figure figname ;;
  clf fig ;;
  for_each (enumerate trajectories) (fun it =>
    let i := fst it in
    let trajectory := snd it in
    let xy := map (fun pose => [x pose; y pose]) trajectory in
    xs <- lift (slice_column xy 0) ;;
    ys <- lift (slice_column xy 1) ;;
    c <- lift (nth_error colors i) ;;
    plot (Array xs) (Array ys) Str.o 3 c (Str.traj i)) ;;
  for_each (enumerate maps) (fun it =>
    let i := fst it in
    let quadrics := snd it in
    for_each quadrics (fun quadric =>
      c <- lift (nth_error colors i) ;;
      plot (Scalar (x (quadricslam.pose quadric)))
           (Scalar (y (quadricslam.pose quadric)))
           Str.o 3 c (Str.quads i))) ;;
  match names with
  | Some names =>
      legend_lines <- lift (comprehension
                              (fun i => match nth_error colors i with
                                        | Some c => Line2D [0%Z] [0%Z] c 2
                                        | None => None
                                        end)
                              (seq 0 (length names))) ;;
      legend fig legend_lines names
  | None => ret tt
  end ;;
  show.

(** The bodies of the two loops of [plot_result], by name. *)
Definition trajectory_body (colors : list MColor)
           (it : nat * Trajectory) : Plot unit :=
  xs <- lift (slice_column
                (map (fun pose => [x pose; y pose]) (snd it)) 0) ;;
  ys <- lift (slice_column
                (map (fun pose => [x pose; y pose]) (snd it)) 1) ;;
  c <- lift (nth_error colors (fst it)) ;;
  plot (Array xs) (Array ys) Str.o 3 c (Str.traj (fst it)).

Definition quadric_body (colors : list MColor)
           (it : nat * Quadrics) : Plot unit :=
  for_each (snd it) (fun quadric =>
    c <- lift (nth_error colors (fst it)) ;;
    plot (Scalar (x (quadricslam.pose quadric)))
         (Scalar (y (quadricslam.pose quadric)))
         Str.o 3 c (Str.quads (fst it))).

(** The requests [plot_result] makes of matplotlib once it has its
    figure. *)
Inductive request : Type :=
| Clf (f : Figure)
| PlotAt (px py : PlotArg) (c : MColor) (label : String.string)
| Legend (f : Figure) (cs : list MColor) (labels : list String.string)
| Show.

Definition perform (r : request) : Plot unit :=
  match r with
  | Clf f => clf f
  | PlotAt px py c label => plot px py Str.o 3 c label
  | Legend f cs labels =>
      handles <- lift (comprehension (fun c => Line2D [0%Z] [0%Z] c 2) cs) ;;
      legend f handles labels
  | Show => show
  end.

Definition run (rs : list request) : Plot unit := for_each rs perform.

(** One line through the poses of a trajectory, in its color. *)
Definition trajectory_request (itc : nat * Trajectory * MColor) : request :=
  PlotAt (Array (map x (snd (fst itc)))) (Array (map y (snd (fst itc))))
         (snd itc) (Str.traj (fst (fst itc))).

Definition trajectory_requests (trajectories : list Trajectory)
           (colors : list MColor) : list request :=
  map trajectory_request (combine (enumerate trajectories) colors).

(** One marker at the centre of each quadric, in the color of its map. *)
Definition quadric_request (imc : nat * Quadrics * MColor) : list request :=
  map (fun quadric =>
         PlotAt (Scalar (x (quadricslam.pose quadric)))
                (Scalar (y (quadricslam.pose quadric)))
                (snd imc) (Str.quads (fst (fst imc))))
      (snd (fst imc)).

Definition quadric_requests (maps : list Quadrics) (colors : list MColor)
  : list request :=
  flat_map quadric_request (combine (enumerate maps) colors).

Definition legend_requests (fig : Figure) (colors : list MColor)
           (names : option (list String.string)) : list request :=
  match names with
  | Some names => [Legend fig (firstn (length names) colors) names]
  | None => []
  end.

Definition is_plot (r : request) : bool :=
  match r with PlotAt _ _ _ _ => true | _ => false end.

End Methods.

(** A pyplot that records its calls, the latest first; a color is its
    name. *)
Module Recorder.

Inductive event : Type :=
| FigureOpened (name : String.string)
| Cleared (name : String.string)
| Plotted (px py : PlotArg) (marker : String.string) (markersize : Z)
          (c : String.string) (label : String.string)
| LegendDrawn (name : String.string)
              (handles : list (list Z * list Z * String.string * Z))
              (labels : list String.string)
| Shown.

#[export] Instance pyplot : Pyplot := {|
  Plt := list event;
  Figure := String.string;
  MColor := String.string;
  Line := (list Z * list Z * String.string * Z)%type;
  plt_figure := fun s name => Some (FigureOpened name :: s, name);
  figure_clf := fun s f => Some (Cleared f :: s);
  plt_plot := fun s px py marker markersize c label =>
                Some (Plotted px py marker markersize c label :: s);
  Line2D := fun xdata ydata c lw => Some (xdata, ydata, c, lw);
  figure_legend := fun s f handles labels =>
                     Some (LegendDrawn f handles labels :: s);
  plt_show := fun s => Some (Shown :: s)
|}.

Import String.

Definition fig : string := "result"%string.
Definition red : string := "r"%string.
Definition blue : string := "b"%string.
Definition odometry : string := "odometry"%string.
Definition slam : string := "slam"%string.

Definition at_xy (px py : Z) : gtsam.Pose3 :=
  {| gtsam.rotation := gtsam.Rot3;
     gtsam.translation := (F64.of_Z px, F64.of_Z py, F64.zero) |}.

Definition ball (px py : Z) : quadricslam.ConstrainedDualQuadric :=
  {| quadricslam.pose := at_xy px py;
     quadricslam.radii := (F64.one, F64.one, F64.one) |}.

End Recorder.

End MPL.

(** ** The OpenCV calls, made of the library directly *)
Section LibraryCalls.

Context {L : Libs}.

(** What the library makes of the image for one call; [None] when it
    raises. *)
Definition cv2_call (c : call) (img : Image) : option Image :=
  match c with
  | LineTo pt1 pt2 color thickness lineType =>
      cv2_line img pt1 pt2 color thickness lineType
  | CircleAt center radius color thickness lineType =>
      cv2_circle img center radius color thickness lineType
  end.

(** The image after every call of the list, when none of them
    raises. *)
Fixpoint cv2_calls (cs : list call) (img : Image) : option Image :=
  match cs with
  | [] => Some img
  | c :: rest =>
      match cv2_call c img with
      | Some img' => cv2_calls rest img'
      | None => None
      end
  end.

End LibraryCalls.

(** ** generate_uv_spherical with Python ints for the sample counts *)
Module Counts.
Section Counts.

Context {L : Libs}.

(** Lines 216-250 for counts that may be negative: [np.linspace] on
    lines 224 and 225 raises ValueError on a negative number of
    samples, before anything else can raise. *)
Definition generate_uv_spherical
           (quadric : quadricslam.ConstrainedDualQuadric)
           (pose : gtsam.Pose3) (calibration : gtsam.Cal3_S2)
           (theta_points phi_points : Z) : option (list mat) :=
  if ((theta_points <? 0) || (phi_points <? 0))%Z then None
  else generate_uv_spherical quadric pose calibration
         (Z.to_nat theta_points) (Z.to_nat phi_points).

End Counts.
End Counts.

(** ** The camera behind [bounds_3D] *)

(** The same float, or two zeros that differ by their sign. *)
Definition same_but_sign_of_zero (x y : float) : Prop :=
  x = y \/ (F64.is_zero x = true /\ F64.is_zero y = true).

(** A well-formed double that is neither NaN nor an infinity. *)
Definition regular (x : float) : bool := F64.valid x && is_number x.

(** Every entry of the rotation and of the translation is regular. *)
Definition regular_pose (p : gtsam.Pose3) : bool :=
  forallb (forallb regular) (gtsam.matrix (gtsam.rotation p))
  && forallb regular (gtsam.vector (gtsam.translation p)).

(** A parallel projection in place of the pinhole camera: the third
    homogeneous coordinate of every point is one, whatever its depth.
    The poses and the drawing primitives are those of [Ref]. *)
Module Parallel.

Definition image_T_world (pose : gtsam.Pose3) (c : gtsam.Cal3_S2)
  : gtsam.Matrix34 :=
  ((gtsam.fx c, gtsam.skew c, F64.zero, gtsam.u0 c),
   (F64.zero, gtsam.fy c, F64.zero, gtsam.v0 c),
   (F64.zero, F64.zero, F64.zero, F64.one)).

#[export] Instance libs : Libs := {|
  np_cos := Ref.cos;
  np_sin := Ref.sin;
  np_linalg_inv := Ref.inv;
  Pose3_between := Ref.between;
  transformToImage := image_T_world;
  Image := Ref.canvas;
  cv2_line := fun img p q c t l => Some (Ref.Line img p q c t l);
  cv2_circle := fun img p r c t l => Some (Ref.Circle img p r c t l);
  cv2_addWeighted := fun img a img2 b g => Some (Ref.Blend img a img2 b g)
|}.

End Parallel.

(** * Properties *)

(** ** Loops *)
Section DrawFacts.

Context {L : Libs}.

Lemma for_each_ext {A} (xs : list A) (f g : A -> Draw unit) :
  (forall x img, In x xs -> f x img = g x img) ->
  forall img, for_each xs f img = for_each xs g img.
Proof.
  induction xs as [|x xs IH]; intros Hfg img; [reflexivity|].
  simpl. unfold bind. rewrite (Hfg x img) by (left; reflexivity).
  destruct (g x img) as [img' [[]|]]; [|reflexivity].
  apply IH. intros y img0 Hy. apply Hfg. right. exact Hy.
Qed.

Lemma for_each_app {A} (xs ys : list A) (f : A -> Draw unit) img :
  for_each (xs ++ ys) f img
  = bind (for_each xs f) (fun _ => for_each ys f) img.
Proof.
  revert img. induction xs as [|x xs IH]; intro img; [reflexivity|].
  simpl. unfold bind.
  destruct (f x img) as [img' [[]|]]; [|reflexivity].
  rewrite IH. reflexivity.
Qed.

Lemma for_each_map {A B} (h : A -> B) (xs : list A) (f : B -> Draw unit) img :
  for_each (map h xs) f img = for_each xs (fun x => f (h x)) img.
Proof.
  revert img. induction xs as [|x xs IH]; intro img; [reflexivity|].
  simpl. unfold bind.
  destruct (f (h x) img) as [img' [[]|]]; [apply IH|reflexivity].
Qed.

(** A loop nest is one loop over the pairs of indices. *)
Lemma for_each_nest {A B C} (xs : list A) (inner : A -> list B)
      (mk : A -> B -> C) (f : C -> Draw unit) img :
  for_each xs (fun x => for_each (inner x) (fun y => f (mk x y))) img
  = for_each (flat_map (fun x => map (mk x) (inner x)) xs) f img.
Proof.
  revert img. induction xs as [|x xs IH]; intro img; [reflexivity|].
  simpl. rewrite for_each_app. unfold bind.
  rewrite for_each_map.
  destruct (for_each (inner x) (fun y => f (mk x y)) img) as [img' [[]|]];
    [apply IH|reflexivity].
Qed.

End DrawFacts.

Lemma flat_map_length_const {A B} (f : A -> list B) (xs : list A) (k : nat) :
  (forall x, length (f x) = k) -> length (flat_map f xs) = length xs * k.
Proof.
  intro Hk. induction xs as [|x xs IH]; [reflexivity|].
  simpl. rewrite length_app, Hk, IH. reflexivity.
Qed.

Lemma row_edges_length m n : length (row_edges m n) = m * (n - 1).
Proof.
  unfold row_edges.
  rewrite flat_map_length_const with (k := n - 1).
  - now rewrite length_seq.
  - intro i. now rewrite length_map, length_seq.
Qed.

Lemma col_edges_length m n : length (col_edges m n) = (m - 1) * n.
Proof.
  unfold col_edges.
  rewrite flat_map_length_const with (k := m - 1).
  - rewrite length_seq. apply Nat.mul_comm.
  - intro j. now rewrite length_map, length_seq.
Qed.

Lemma row_edges_adjacent m n :
  Forall (fun e : edge =>
            fst (snd e) = fst (fst e) /\ snd (snd e) = S (snd (fst e))
            /\ fst (fst e) < m /\ snd (snd e) < n)
         (row_edges m n).
Proof.
  apply Forall_forall. intros e He.
  apply in_flat_map in He. destruct He as [i [Hi He]].
  apply in_map_iff in He. destruct He as [j [<- Hj]].
  apply in_seq in Hi. apply in_seq in Hj. simpl. lia.
Qed.

Lemma col_edges_adjacent m n :
  Forall (fun e : edge =>
            snd (snd e) = snd (fst e) /\ fst (snd e) = S (fst (fst e))
            /\ snd (fst e) < n /\ fst (snd e) < m)
         (col_edges m n).
Proof.
  apply Forall_forall. intros e He.
  apply in_flat_map in He. destruct He as [j [Hj He]].
  apply in_map_iff in He. destruct He as [i [<- Hi]].
  apply in_seq in Hi. apply in_seq in Hj. simpl. lia.
Qed.

Lemma shape1_of_shape {A} (a : list (list A)) m n :
  has_shape a m n -> 0 < m -> np.shape1 a = n.
Proof.
  intros [Hm Hn] Hpos. destruct a as [|r a]; simpl in *; [lia|].
  now inversion Hn.
Qed.

Lemma col_edges_no_rows n : col_edges 0 n = [].
Proof.
  unfold col_edges. simpl. induction (seq 0 n); simpl; auto.
Qed.

Section WireframeFacts.

Context {L : Libs}.

(** The two loop nests of [quadric], as the list of calls they make. *)
Lemma wireframe_run points_2D color m n img :
  has_shape points_2D m n ->
  CV2Drawing.wireframe points_2D color img
  = run (map (segment points_2D color) (row_edges m n ++ col_edges m n)) img.
Proof.
  intros Hs. unfold CV2Drawing.wireframe, run.
  rewrite map_app, for_each_app.
  assert (Hm : np.shape0 points_2D = m) by apply Hs.
  unfold range. rewrite Hm, Nat2Z.id.
  destruct (Nat.eq_dec m 0) as [->|Hpos].
  - rewrite col_edges_no_rows. simpl.
    unfold bind, ret. simpl.
    induction (seq 0 _) as [|j js IH]; simpl; [reflexivity|].
    unfold bind, ret. simpl. exact IH.
  - rewrite (shape1_of_shape Hs) by lia.
    replace (Z.to_nat (Z.of_nat n - 1)) with (n - 1) by lia.
    replace (Z.to_nat (Z.of_nat m - 1)) with (m - 1) by lia.
    rewrite Nat2Z.id.
    unfold row_edges, col_edges, bind.
    rewrite for_each_map.
    rewrite <- (for_each_nest (seq 0 m) (fun _ => seq 0 (n - 1))
               (fun i j => ((i, j), (i, j + 1)))
               (fun e => perform (segment points_2D color e))).
    match goal with
    | |- (let (_, _) := ?a in _) = (let (_, _) := ?b in _) =>
        change b with a; destruct a as [img' [[]|]]; [|reflexivity]
    end.
    rewrite for_each_map.
    rewrite <- (for_each_nest (seq 0 n) (fun _ => seq 0 (m - 1))
               (fun j i => ((i, j), (i + 1, j)))
               (fun e => perform (segment points_2D color e))).
    reflexivity.
Qed.

End WireframeFacts.

(** ** Arrays filled in place *)

Lemma set_nth_app {A} (pre rest : list A) (r v : A) :
  set_nth (pre ++ r :: rest) (length pre) v = pre ++ v :: rest.
Proof. induction pre as [|p pre IH]; simpl; [reflexivity|now rewrite IH]. Qed.

Lemma set_nth_nth {A} (a : list A) (i : nat) (d : A) :
  set_nth a i (nth i a d) = a.
Proof.
  revert i. induction a as [|h t IH]; intros [|i]; simpl; try reflexivity.
  now rewrite IH.
Qed.

Lemma set_nth_twice {A} (a : list A) (i : nat) (v w : A) :
  set_nth (set_nth a i v) i w = set_nth a i w.
Proof.
  revert i. induction a as [|h t IH]; intros [|i]; simpl; try reflexivity.
  now rewrite IH.
Qed.

Lemma nth_set_nth {A} (a : list A) (i : nat) (v d : A) :
  i < length a -> nth i (set_nth a i v) d = v.
Proof.
  revert i. induction a as [|h t IH]; intros [|i] Hi; simpl in *;
    try lia; [reflexivity|apply IH; lia].
Qed.

Lemma fold_opt_total {A S} (xs : list A) (step : S -> A -> S) (s : S) :
  fold_opt xs (fun s x => Some (step s x)) s = Some (fold_left step xs s).
Proof. revert s. induction xs; intro s; simpl; auto. Qed.

Lemma fold_opt_ext {A S} (xs : list A) (f g : S -> A -> option S) (s : S) :
  (forall s x, f s x = g s x) -> fold_opt xs f s = fold_opt xs g s.
Proof.
  intro H. revert s. induction xs as [|x xs IH]; intro s; simpl; auto.
  rewrite H. destruct (g s x); auto.
Qed.

(** Writing cell after cell of a row gives the row of the values. *)
Lemma fill_row {A} (h : nat -> A) (pre rest : list A) :
  fold_left (fun row j => set_nth row j (h j))
            (seq (length pre) (length rest)) (pre ++ rest)
  = pre ++ map h (seq (length pre) (length rest)).
Proof.
  revert pre. induction rest as [|r rest IH]; intro pre; [reflexivity|].
  simpl. rewrite set_nth_app.
  specialize (IH (pre ++ [h (length pre)])).
  rewrite length_app, Nat.add_1_r, <- !app_assoc in IH. exact IH.
Qed.

Lemma fill_row_of_grid {A} (h : nat -> A) (i : nat) (js : list nat)
      (grid : list (list A)) :
  i < length grid ->
  fold_left (fun g j => set2 g i j (h j)) js grid
  = set_nth grid i
      (fold_left (fun row j => set_nth row j (h j)) js (nth i grid [])).
Proof.
  revert grid. induction js as [|j js IH]; intros grid Hi; simpl.
  - now rewrite set_nth_nth.
  - rewrite IH.
    + unfold set2. rewrite nth_set_nth by exact Hi.
      now rewrite set_nth_twice.
    + unfold set2. clear - Hi. revert i Hi.
      induction grid as [|r g IHg]; intros [|i] Hi; simpl in *; try lia.
      specialize (IHg i). lia.
Qed.

Lemma fill_grid {A} (h : nat -> nat -> A) (n : nat) (pre rest : list (list A)) :
  Forall (fun row => length row = n) rest ->
  fold_left (fun g i => fold_left (fun g j => set2 g i j (h i j)) (seq 0 n) g)
            (seq (length pre) (length rest)) (pre ++ rest)
  = pre ++ map (fun i => map (h i) (seq 0 n)) (seq (length pre) (length rest)).
Proof.
  revert pre. induction rest as [|r rest IH]; intros pre Hn; [reflexivity|].
  inversion Hn as [|? ? Hr Hrest]; subst.
  simpl. rewrite fill_row_of_grid by (rewrite length_app; simpl; lia).
  rewrite app_nth2, Nat.sub_diag by lia. simpl.
  pose proof (fill_row (h (length pre)) [] r) as E. simpl in E.
  rewrite E. clear E.
  rewrite set_nth_app.
  specialize (IH (pre ++ [map (h (length pre)) (seq 0 (length r))]) Hrest).
  rewrite length_app, Nat.add_1_r, <- !app_assoc in IH. exact IH.
Qed.

Lemma length_linspace start stop num :
  length (np.linspace start stop num) = num.
Proof.
  unfold np.linspace, np.arange.
  set (y := map (fun t => F64.add t start) _).
  assert (Hy : length y = num).
  { unfold y. rewrite length_map.
    destruct (0 <? num - 1); [destruct (F64.eqb _ _)|];
      now rewrite !length_map, length_seq. }
  destruct (1 <? num) eqn:H1; [|exact Hy].
  apply Nat.ltb_lt in H1.
  rewrite length_app, removelast_firstn_len, length_firstn. simpl. lia.
Qed.

(** ** generate_uv_spherical as a table *)
Section ProjectionFacts.

Context {L : Libs}.

Lemma surface_points_shape quadric m n :
  exists x y z,
    surface_points quadric m n = [x; y; z]
    /\ has_shape x m n /\ has_shape y m n /\ has_shape z m n.
Proof.
  unfold surface_points. destruct (quadricslam.radii quadric) as [[rx ry] rz].
  do 3 eexists. split; [reflexivity|].
  unfold has_shape, np.scale, np.outer, np.ones_like, np.ones.
  rewrite !length_map, ?repeat_length, !length_linspace.
  repeat split; try reflexivity;
    apply Forall_forall; intros row Hrow;
    apply in_map_iff in Hrow; destruct Hrow as [r [<- Hr]];
    apply in_map_iff in Hr; destruct Hr as [c [<- _]];
    now rewrite !length_map, length_linspace.
Qed.

Lemma fold_opt_skip {S} (xs : list nat) (s : S) :
  fold_opt xs (fun s _ => Some s) s = Some s.
Proof. induction xs; simpl; auto. Qed.

Lemma generate_uv_spherical_eq quadric pose calibration m n :
  generate_uv_spherical quadric pose calibration m n
  = if ((m =? 0) || (n =? 0))%nat then Some (repeat [] m)
    else
      match np_linalg_inv
              (gtsam.matrix (gtsam.rotation (quadricslam.pose quadric))) with
      | Some rotation_inv =>
          Some (map (fun i =>
                  map (fun j =>
                    project_point
                      (gtsam.array34 (transformToImage pose calibration))
                      (world_point rotation_inv
                         (gtsam.vector
                            (gtsam.translation (quadricslam.pose quadric)))
                         (sample quadric m n i j)))
                    (seq 0 n))
                  (seq 0 m))
      | None => None
      end.
Proof.
  unfold generate_uv_spherical.
  destruct (surface_points_shape quadric m n)
    as [x [y [z [Hp [[Hm Hn] _]]]]].
  assert (Hsample : forall i j,
             map (fun a => np.get2 F64.zero a i j)
                 (surface_points quadric m n) = sample quadric m n i j)
    by reflexivity.
  rewrite Hp in *. simpl nth. unfold np.shape0. rewrite Hm.
  destruct m as [|m'].
  - destruct x; [reflexivity|discriminate].
  - destruct x as [|r x']; [discriminate|]. simpl np.shape1.
    inversion Hn as [|? ? Hr Hx']; subst.
    destruct (length r) as [|n'] eqn:En.
    + simpl orb. cbv iota.
      rewrite (fold_opt_ext _ _ (fun g _ => Some g)) by reflexivity.
      apply fold_opt_skip.
    + simpl orb. cbv iota. unfold warp_point.
      destruct (np_linalg_inv _) as [rinv|]; [|reflexivity].
      rewrite (fold_opt_ext _ _
        (fun g i => Some (fold_left (fun g j =>
           set2 g i j (project_point (gtsam.array34 (transformToImage pose calibration))
             (world_point rinv
                (gtsam.vector (gtsam.translation (quadricslam.pose quadric)))
                (sample quadric (S m') (S n') i j)))) (seq 0 (S n')) g))).
      * rewrite fold_opt_total. f_equal.
        pose proof (@fill_grid _
          (fun i j => project_point
             (gtsam.array34 (transformToImage pose calibration))
             (world_point rinv
                (gtsam.vector (gtsam.translation (quadricslam.pose quadric)))
                (sample quadric (S m') (S n') i j)))
          (S n') []
          (repeat (repeat [F64.zero; F64.zero] (S n')) (S m'))) as E.
        rewrite repeat_length in E. apply E.
        apply Forall_forall. intros row Hrow.
        apply repeat_spec in Hrow. subst row. apply repeat_length.
      * intros g i. rewrite <- fold_opt_total. apply fold_opt_ext.
        intros g' j. rewrite <- Hp. reflexivity.
Qed.

End ProjectionFacts.

(** ** bounds_3D *)
Section BoundsFacts.

Context {L : Libs}.

Lemma corners_eq box3D :
  CV2Drawing.corners box3D
  = [[quadricslam.xmin box3D; quadricslam.ymin box3D; quadricslam.zmin box3D];
     [quadricslam.xmin box3D; quadricslam.ymin box3D; quadricslam.zmax box3D];
     [quadricslam.xmin box3D; quadricslam.ymax box3D; quadricslam.zmin box3D];
     [quadricslam.xmin box3D; quadricslam.ymax box3D; quadricslam.zmax box3D];
     [quadricslam.xmax box3D; quadricslam.ymin box3D; quadricslam.zmin box3D];
     [quadricslam.xmax box3D; quadricslam.ymin box3D; quadricslam.zmax box3D];
     [quadricslam.xmax box3D; quadricslam.ymax box3D; quadricslam.zmin box3D];
     [quadricslam.xmax box3D; quadricslam.ymax box3D; quadricslam.zmax box3D]].
Proof. reflexivity. Qed.

Lemma any_true (p : float -> bool) (m : mat) row c :
  In row m -> In c row -> p c = true -> np.any p m = true.
Proof.
  intros Hrow Hc Hp. unfold np.any.
  apply existsb_exists. exists row. split; [exact Hrow|].
  apply existsb_exists. exists c. split; assumption.
Qed.

Lemma any_false (p : float -> bool) (m : mat) :
  (forall row c, In row m -> In c row -> p c = false) ->
  np.any p m = false.
Proof.
  intro H. unfold np.any.
  destruct (existsb (existsb p) m) eqn:E; [|reflexivity].
  apply existsb_exists in E. destruct E as [row [Hrow E]].
  apply existsb_exists in E. destruct E as [c [Hc E]].
  rewrite (H row c Hrow Hc) in E. discriminate.
Qed.

(** The first [return]: some corner has a negative depth. *)
Lemma bounds_3D_culled box3D pose calibration color img point :
  In point (CV2Drawing.corners box3D) ->
  F64.ltb (CV2Drawing.depth pose point) F64.zero = true ->
  CV2Drawing.bounds_3D box3D pose calibration color img = (img, Some tt).
Proof.
  intros Hin Hlt. unfold CV2Drawing.bounds_3D.
  replace (existsb _ (CV2Drawing.corners box3D)) with true; [reflexivity|].
  symmetry. apply existsb_exists. exists point. split; assumption.
Qed.

(** The second [return]: some projected coordinate is not finite. *)
Lemma bounds_3D_guard box3D pose calibration color img row c :
  In row (CV2Drawing.project_corners pose calibration
            (CV2Drawing.corners box3D)) ->
  In c row ->
  finite c = false ->
  CV2Drawing.bounds_3D box3D pose calibration color img = (img, Some tt).
Proof.
  intros Hrow Hc Hfin. unfold CV2Drawing.bounds_3D.
  destruct (existsb _ (CV2Drawing.corners box3D)); [reflexivity|].
  replace (np.any F64.isinf _ || np.any F64.isnan _) with true;
    [reflexivity|].
  symmetry. apply orb_true_iff.
  unfold finite in Hfin. apply negb_false_iff, orb_true_iff in Hfin.
  destruct Hfin as [Hinf|Hnan]; [left|right]; eapply any_true; eassumption.
Qed.

(** No [return] taken: the dots, then the lines of the table. *)
Lemma bounds_3D_draws box3D pose calibration color img :
  (forall point, In point (CV2Drawing.corners box3D) ->
                 F64.ltb (CV2Drawing.depth pose point) F64.zero = false) ->
  (forall row c,
      In row (CV2Drawing.project_corners pose calibration
                (CV2Drawing.corners box3D)) ->
      In c row -> finite c = true) ->
  CV2Drawing.bounds_3D box3D pose calibration color img
  = run (box_calls box3D pose calibration color) img.
Proof.
  intros Hfront Hfin. unfold CV2Drawing.bounds_3D.
  replace (existsb _ (CV2Drawing.corners box3D)) with false.
  2:{ symmetry. destruct (existsb _ _) eqn:E; [|reflexivity].
      apply existsb_exists in E. destruct E as [pt [Hpt E]].
      rewrite (Hfront pt Hpt) in E. discriminate. }
  replace (np.any F64.isinf _ || np.any F64.isnan _) with false.
  2:{ symmetry. apply orb_false_iff. split; apply any_false;
      intros row c Hrow Hc; specialize (Hfin row c Hrow Hc);
      unfold finite in Hfin; apply negb_true_iff, orb_false_iff in Hfin;
      tauto. }
  unfold run, box_calls, corner_calls, edge_calls.
  rewrite for_each_app. unfold bind.
  rewrite for_each_map.
  match goal with
  | |- (let (_, _) := ?a in _) = (let (_, _) := ?b in _) =>
      change b with a; destruct a as [img' [[]|]]; [|reflexivity]
  end.
  rewrite for_each_map. reflexivity.
Qed.

Lemma edge_calls_lines points_2D color pairs :
  filter is_line (corner_calls points_2D ++ edge_calls points_2D color pairs)
  = edge_calls points_2D color pairs.
Proof.
  rewrite filter_app. unfold corner_calls, edge_calls.
  replace (filter is_line (map _ points_2D)) with (@nil call).
  - simpl. induction pairs as [|e es IH]; simpl; [reflexivity|].
    now rewrite IH.
  - induction points_2D as [|r rs IH]; simpl; auto.
Qed.

(** Perspective division, corner by corner. *)
Lemma project_corners_row box3D pose calibration k :
  k < 8 ->
  let H := CV2Drawing.homogeneous_corners pose calibration
             (CV2Drawing.corners box3D) in
  nth k (CV2Drawing.project_corners pose calibration
           (CV2Drawing.corners box3D)) []
  = [F64.div (np.get2 F64.zero H 0 k) (np.get2 F64.zero H 2 k);
     F64.div (np.get2 F64.zero H 1 k) (np.get2 F64.zero H 2 k)].
Proof.
  intros Hk H. subst H.
  unfold CV2Drawing.project_corners, CV2Drawing.homogeneous_corners.
  destruct (transformToImage pose calibration)
    as [[[[[a0 a1] a2] a3] [[[b0 b1] b2] b3]] [[[c0 c1] c2] c3]].
  destruct box3D as [x0 x1 y0 y1 z0 z1].
  do 8 (destruct k as [|k];
        [cbv - [F64.add F64.mul F64.div F64.one F64.zero]; reflexivity|]).
  lia.
Qed.

End BoundsFacts.

(** Dividing by a zero of either sign never gives a finite quotient. *)
Lemma div_by_zero_not_finite x w :
  F64.is_zero w = true -> finite (F64.div x w) = false.
Proof. destruct w; try discriminate. intros _. destruct x; reflexivity. Qed.

(** The strict test lets a zero depth through. *)
Lemma zero_not_negative d :
  F64.is_zero d = true -> F64.ltb d F64.zero = false.
Proof. destruct d; try discriminate. reflexivity. Qed.

Section BoundsShape.

Context {L : Libs}.

Lemma project_corners_length box3D pose calibration :
  length (CV2Drawing.project_corners pose calibration
            (CV2Drawing.corners box3D)) = 8.
Proof.
  unfold CV2Drawing.project_corners, CV2Drawing.homogeneous_corners.
  destruct (transformToImage pose calibration)
    as [[[[[a0 a1] a2] a3] [[[b0 b1] b2] b3]] [[[c0 c1] c2] c3]].
  destruct box3D as [x0 x1 y0 y1 z0 z1].
  cbv - [F64.add F64.mul F64.div F64.one F64.zero]. reflexivity.
Qed.

End BoundsShape.

(** ** The claims about [bounds_3D] *)

(** C5: if any of the eight corners of the box has a strictly negative
    depth in the camera frame, [bounds_3D] returns without a single
    OpenCV call: the image buffer is the one it was given, whatever the
    other corners are. *)
Theorem bounds_3D_rejects_box_behind_camera
        {L : Libs} box3D pose calibration color img :
  (exists point,
      In point (CV2Drawing.corners box3D)
      /\ F64.ltb (CV2Drawing.depth pose point) F64.zero = true) ->
  length (CV2Drawing.corners box3D) = 8
  /\ CV2Drawing.bounds_3D box3D pose calibration color img = (img, Some tt).
Proof.
  intros [point [Hin Hlt]]. split; [reflexivity|].
  eapply bounds_3D_culled; eassumption.
Qed.

Lemma bounds_3D_rejects_box_behind_camera_witness :
  length (CV2Drawing.corners (Examples.box (-3) 2)) = 8
  /\ CV2Drawing.bounds_3D (L := Ref.libs) (Examples.box (-3) 2)
       Ref.identity_pose Examples.cal Examples.magenta Ref.Blank
     = (Ref.Blank, Some tt).
Proof.
  apply (@bounds_3D_rejects_box_behind_camera Ref.libs).
  exists [F64.of_Z (-1); F64.of_Z (-1); F64.of_Z (-3)].
  split; [left; reflexivity|vm_compute; reflexivity].
Defined.

(** C6: if any coordinate of the eight projected corners is infinite or
    NaN, [bounds_3D] returns before the first circle or line: the image
    buffer is unchanged and the method returns normally, no exception
    reaches the caller. *)
Theorem bounds_3D_skips_nonfinite_projection
        {L : Libs} box3D pose calibration color img :
  (exists row c,
      In row (CV2Drawing.project_corners pose calibration
                (CV2Drawing.corners box3D))
      /\ In c row
      /\ (F64.isinf c = true \/ F64.isnan c = true)) ->
  CV2Drawing.bounds_3D box3D pose calibration color img = (img, Some tt).
Proof.
  intros [row [c [Hrow [Hc Hnf]]]].
  eapply bounds_3D_guard; try eassumption.
  unfold finite. apply negb_false_iff, orb_true_iff. exact Hnf.
Qed.

Lemma bounds_3D_skips_nonfinite_projection_witness :
  CV2Drawing.bounds_3D (L := Ref.libs) (Examples.box 0 2)
    Ref.identity_pose Examples.cal Examples.magenta Ref.Blank
  = (Ref.Blank, Some tt).
Proof.
  apply (@bounds_3D_skips_nonfinite_projection Ref.libs).
  exists [S754_infinity true; S754_infinity true], (S754_infinity true).
  split; [left; vm_compute; reflexivity|].
  split; [left; reflexivity|left; reflexivity].
Defined.

Lemma all_finite (m : mat) :
  forallb (forallb finite) m = true ->
  forall row c, In row m -> In c row ->
                F64.isinf c = false /\ F64.isnan c = false.
Proof.
  intros H row c Hrow Hc.
  rewrite forallb_forall in H. specialize (H row Hrow).
  rewrite forallb_forall in H. specialize (H c Hc).
  unfold finite in H. apply negb_true_iff, orb_false_iff in H. exact H.
Defined.

Lemma none_negative {L : Libs} pose (points_3D : mat) :
  forallb (fun point => negb (F64.ltb (CV2Drawing.depth pose point) F64.zero))
          points_3D = true ->
  forall point, In point points_3D ->
                F64.ltb (CV2Drawing.depth pose point) F64.zero = false.
Proof.
  intros H point Hin. rewrite forallb_forall in H.
  apply negb_true_iff. apply H. exact Hin.
Defined.

(** ** binary64: digits, exact conversions, rounding *)
Section FloatFacts.

Local Open Scope Z_scope.

Lemma digits2_size p : digits2_pos p = Pos.size p.
Proof. induction p; simpl; congruence. Qed.

Lemma digits2_bounds p :
  2 ^ (Zpos (digits2_pos p) - 1) <= Zpos p < 2 ^ Zpos (digits2_pos p).
Proof.
  rewrite digits2_size.
  pose proof (Pos.size_gt p) as Hgt. pose proof (Pos.size_le p) as Hle.
  apply Pos2Z.pos_lt_pos in Hgt. apply Pos2Z.pos_le_pos in Hle.
  rewrite Pos2Z.inj_pow in Hgt, Hle.
  change (Z.pos p~0) with (2 * Z.pos p) in Hle.
  assert (H2 : 2 ^ Zpos (Pos.size p) = 2 * 2 ^ (Zpos (Pos.size p) - 1)).
  { rewrite <- Z.pow_succ_r by lia. f_equal. lia. }
  lia.
Qed.

Lemma digits2_unique p d :
  2 ^ (d - 1) <= Zpos p < 2 ^ d -> Zpos (digits2_pos p) = d.
Proof.
  intros [Hlo Hhi]. pose proof (digits2_bounds p) as [Hlo' Hhi'].
  assert (0 < d).
  { destruct (Z.lt_ge_cases 0 d); auto.
    assert (2 ^ d <= 1). { destruct (Z.eq_dec d 0); subst; simpl; try lia. rewrite Z.pow_neg_r; lia. } lia. }
  destruct (Z.lt_trichotomy (Zpos (digits2_pos p)) d) as [Hlt|[Heq|Hgt]]; auto.
  - assert (2 ^ Zpos (digits2_pos p) <= 2 ^ (d - 1)) by (apply Z.pow_le_mono_r; lia). lia.
  - assert (2 ^ d <= 2 ^ (Zpos (digits2_pos p) - 1)) by (apply Z.pow_le_mono_r; lia). lia.
Qed.

Lemma iter_xO p n : Zpos (Pos.iter xO p n) = Zpos p * 2 ^ Zpos n.
Proof.
  induction n using Pos.peano_ind.
  - simpl. lia.
  - rewrite Pos.iter_succ, Pos2Z.inj_xO, IHn, Pos2Z.inj_succ, Z.pow_succ_r by lia. lia.
Qed.

Lemma shr_fexp_canonical m e l :
  Zpos (digits2_pos m) = 53 -> -1074 <= e ->
  shr_fexp 53 1024 (Zpos m) e l = (shr_record_of_loc (Zpos m) l, e).
Proof.
  intros Hd He. unfold shr_fexp, fexp, emin, Zdigits2. rewrite Hd.
  replace (Z.max (53 + e - 53) (3 - 1024 - 53) - e) with 0 by lia.
  reflexivity.
Qed.

Lemma round_aux_canonical s m e :
  Zpos (digits2_pos m) = 53 -> -1074 <= e <= 971 ->
  binary_round_aux 53 1024 s (Zpos m) e loc_Exact = S754_finite s m e.
Proof.
  intros Hd He. unfold binary_round_aux.
  rewrite shr_fexp_canonical by (auto; lia).
  cbv beta iota zeta delta [shr_record_of_loc loc_of_shr_record shr_m round_nearest_even].
  rewrite shr_fexp_canonical by (auto; lia).
  cbv beta iota zeta delta [shr_record_of_loc shr_m].
  destruct (e <=? 1024 - 53) eqn:E; [reflexivity|]. apply Z.leb_gt in E. lia.
Qed.

Lemma of_pos_exact s p :
  Zpos p < 2 ^ 53 ->
  exists m e, binary_round 53 1024 s p 0 = S754_finite s m e
              /\ -52 <= e <= 0 /\ Zpos m = Zpos p * 2 ^ (- e) /\ Zpos (digits2_pos m) = 53.
Proof.
  intro Hp. unfold binary_round.
  pose proof (digits2_bounds p) as [Hlo Hhi].
  set (d := Zpos (digits2_pos p)) in *.
  assert (Hd : 1 <= d <= 53).
  { split; [unfold d; lia|].
    destruct (Z.le_gt_cases d 53); auto.
    assert (2 ^ 53 <= 2 ^ (d - 1)) by (apply Z.pow_le_mono_r; lia). lia. }
  rewrite Z.add_0_r. unfold fexp, emin, shl_align.
  replace (Z.max (d - 53) (3 - 1024 - 53)) with (d - 53) by lia.
  rewrite Z.sub_0_r.
  destruct (d - 53) as [|q|q] eqn:Eq; try lia.
  - exists p, 0. rewrite round_aux_canonical by (unfold d in *; lia).
    split; [reflexivity|]. split; [lia|].
    split; [simpl; lia|unfold d in *; lia].
  - assert (Hm : Zpos (Pos.iter xO p q) = Zpos p * 2 ^ Zpos q) by apply iter_xO.
    assert (Hdm : Zpos (digits2_pos (Pos.iter xO p q)) = 53).
    { apply digits2_unique. rewrite Hm.
      replace 53 with (d + Zpos q) at 2 by lia.
      replace (53 - 1) with ((d - 1) + Zpos q) by lia.
      rewrite !Z.pow_add_r by lia.
      assert (0 < 2 ^ Zpos q) by (apply Z.pow_pos_nonneg; lia). nia. }
    exists (Pos.iter xO p q), (Zneg q).
    rewrite round_aux_canonical by (auto; lia).
    split; [reflexivity|]. split; [lia|].
    split; [rewrite Hm; reflexivity|exact Hdm].
Qed.

Lemma half_even_nearest m k :
  0 < k -> 0 <= m ->
  0 <= F64.half_even m k <= m / 2 ^ k + 1
  /\ 2 * Z.abs (m - F64.half_even m k * 2 ^ k) <= 2 ^ k.
Proof.
  intros Hk Hm. unfold F64.half_even.
  rewrite Z.shiftr_div_pow2, !Z.shiftl_mul_pow2 by lia.
  assert (Hp : 0 < 2 ^ k) by (apply Z.pow_pos_nonneg; lia).
  assert (Hh : 2 ^ k = 2 * 2 ^ (k - 1)).
  { rewrite <- Z.pow_succ_r by lia. f_equal. lia. }
  pose proof (Z.div_mod m (2 ^ k) ltac:(lia)) as Hdm.
  pose proof (Z.mod_pos_bound m (2 ^ k) Hp) as Hmod.
  assert (Hq : 0 <= m / 2 ^ k) by (apply Z.div_pos; lia).
  set (q := m / 2 ^ k) in *. set (r := m mod 2 ^ k) in *.
  rewrite Z.mul_1_l.
  replace (m - q * 2 ^ k) with r by lia.
  destruct (r <? 2 ^ (k - 1)) eqn:E1; [apply Z.ltb_lt in E1|apply Z.ltb_ge in E1].
  - split; [lia|]. replace (m - q * 2 ^ k) with r by lia. lia.
  - destruct (2 ^ (k - 1) <? r) eqn:E2; [apply Z.ltb_lt in E2|apply Z.ltb_ge in E2].
    + split; [lia|]. replace (m - (q + 1) * 2 ^ k) with (r - 2 ^ k) by lia. lia.
    + destruct (Z.even q).
      * split; [lia|]. replace (m - q * 2 ^ k) with r by lia. lia.
      * split; [lia|]. replace (m - (q + 1) * 2 ^ k) with (r - 2 ^ k) by lia. lia.
Qed.

Lemma valid_mantissa s m e :
  F64.valid (S754_finite s m e) = true -> Zpos m < 2 ^ 53 /\ e <= 971.
Proof.
  unfold F64.valid, valid_binary, bounded, canonical_mantissa, fexp, emin, F64.prec, F64.emax.
  intro H. apply andb_true_iff in H. destruct H as [Hc He].
  apply Z.eqb_eq in Hc. apply Z.leb_le in He.
  pose proof (digits2_bounds m) as [_ Hhi].
  split; [|lia].
  assert (Zpos (digits2_pos m) <= 53) by lia.
  assert (2 ^ Zpos (digits2_pos m) <= 2 ^ 53) by (apply Z.pow_le_mono_r; lia).
  lia.
Qed.

Lemma astype_int_of_small s n :
  0 <= n < 2 ^ 53 ->
  F64.astype_int (binary_normalize F64.prec F64.emax (cond_Zopp s n) 0 s)
  = cond_Zopp s n.
Proof.
  intros Hn. destruct n as [|p|p]; try lia.
  - destruct s; reflexivity.
  - assert (Hb : binary_normalize F64.prec F64.emax (cond_Zopp s (Zpos p)) 0 s
                 = binary_round 53 1024 s p 0) by (destruct s; reflexivity).
    rewrite Hb.
    destruct (@of_pos_exact s p ltac:(lia)) as [m [e [-> [He [Hm _]]]]].
    unfold F64.astype_int, F64.trunc.
    assert (Ht : (if 0 <=? e then Z.shiftl (Zpos m) e else Z.shiftr (Zpos m) (- e)) = Zpos p).
    { destruct (0 <=? e) eqn:E; [apply Z.leb_le in E|apply Z.leb_gt in E].
      - assert (e = 0) by lia. subst e. simpl in Hm. rewrite Z.shiftl_0_r. lia.
      - rewrite Z.shiftr_div_pow2 by lia. rewrite Hm.
        apply Z.div_mul. apply Z.pow_nonzero; lia. }
    rewrite Ht.
    assert (Hr : F64.int64_min <= cond_Zopp s (Zpos p) <= F64.int64_max).
    { unfold F64.int64_min, F64.int64_max.
      assert (2 ^ 53 < 2 ^ 63) by (apply Z.pow_lt_mono_r; lia).
      destruct s; simpl; lia. }
    destruct Hr as [H1 H2]. apply Z.leb_le in H1, H2. rewrite H1, H2. reflexivity.
Qed.

Lemma round_nearest x :
  F64.valid x = true -> in_int64 x ->
  nearest_integer x (F64.astype_int (F64.round x)).
Proof.
  intros Hv Hr. destruct x as [s|s| |s m e]; try (exact Hr).
  - reflexivity.
  - unfold nearest_integer, F64.round.
    destruct (0 <=? e) eqn:E.
    + apply Z.leb_le in E. unfold in_int64, F64.trunc in Hr.
      unfold F64.astype_int, F64.trunc. rewrite (proj2 (Z.leb_le 0 e) E) in *.
      destruct Hr as [H1 H2]. apply Z.leb_le in H1, H2. rewrite H1, H2.
      simpl. rewrite Z.shiftl_mul_pow2 by lia. reflexivity.
    + apply Z.leb_gt in E.
      destruct (@valid_mantissa _ _ _ Hv) as [Hm _].
      destruct (@half_even_nearest (Zpos m) (- e) ltac:(lia) ltac:(lia)) as [[Hn0 Hn1] Hn2].
      assert (Hq : Zpos m / 2 ^ (- e) < 2 ^ 52).
      { apply Z.div_lt_upper_bound; [apply Z.pow_pos_nonneg; lia|].
        assert (2 ^ 1 <= 2 ^ (- e)) by (apply Z.pow_le_mono_r; lia).
        change (2 ^ 53) with (2 * 2 ^ 52) in Hm. change (2 ^ 1) with 2 in *.
        nia. }
      rewrite astype_int_of_small.
      2:{ change (2 ^ 53) with (2 * 2 ^ 52). change (2 ^ 52) with 4503599627370496 in *. lia. }
      destruct s; simpl cond_Zopp.
      * replace (Z.neg m - - F64.half_even (Zpos m) (- e) * 2 ^ (- e))
          with (- (Zpos m - F64.half_even (Zpos m) (- e) * 2 ^ (- e))) by lia.
        rewrite Z.abs_opp. exact Hn2.
      * exact Hn2.
Qed.

End FloatFacts.

(** ** The grid returned by generate_uv_spherical *)
Section GridFacts.

Context {L : Libs}.

Lemma nth_tabulate {A} (f : nat -> A) (n i : nat) (d : A) :
  i < n -> nth i (map f (seq 0 n)) d = f i.
Proof.
  intro Hi. rewrite (nth_indep _ d (f 0)) by (now rewrite length_map, length_seq).
  rewrite map_nth, seq_nth by exact Hi. reflexivity.
Qed.

Lemma generate_uv_spherical_entry quadric pose calibration m n g i j :
  generate_uv_spherical quadric pose calibration m n = Some g ->
  i < m -> j < n ->
  exists rotation_inv,
    np_linalg_inv (gtsam.matrix (gtsam.rotation (quadricslam.pose quadric)))
    = Some rotation_inv
    /\ np.get2 [] g i j
       = project_point (gtsam.array34 (transformToImage pose calibration))
           (world_point rotation_inv
              (gtsam.vector (gtsam.translation (quadricslam.pose quadric)))
              (sample quadric m n i j)).
Proof.
  intros Hg Hi Hj. rewrite generate_uv_spherical_eq in Hg.
  rewrite (proj2 (Nat.eqb_neq m 0)), (proj2 (Nat.eqb_neq n 0)) in Hg by lia.
  simpl orb in Hg. cbv iota in Hg.
  destruct (np_linalg_inv _) as [rinv|]; [|discriminate].
  exists rinv. split; [reflexivity|].
  assert (Hg' : g = map (fun i : nat =>
              map (fun j : nat =>
                project_point (gtsam.array34 (transformToImage pose calibration))
                  (world_point rinv
                     (gtsam.vector (gtsam.translation (quadricslam.pose quadric)))
                     (sample quadric m n i j))) (seq 0 n)) (seq 0 m))
    by congruence.
  rewrite Hg'. unfold np.get2, vec.
  rewrite (@nth_tabulate _ _ _ _ []) by exact Hi. cbv beta.
  rewrite (@nth_tabulate _ _ _ _ []) by exact Hj.
  reflexivity.
Qed.

Lemma generate_uv_spherical_shape quadric pose calibration m n g :
  generate_uv_spherical quadric pose calibration m n = Some g ->
  has_shape g m n.
Proof.
  intro Hg. rewrite generate_uv_spherical_eq in Hg.
  destruct ((m =? 0) || (n =? 0))%nat eqn:E.
  - injection Hg as <-. split; [apply repeat_length|].
    apply Forall_forall. intros row Hrow.
    apply orb_true_iff in E. destruct E as [E|E]; apply Nat.eqb_eq in E.
    + subst m. destruct Hrow.
    + apply repeat_spec in Hrow. now subst.
  - destruct (np_linalg_inv _) as [rinv|]; [|discriminate].
    injection Hg as <-. split; [now rewrite length_map, length_seq|].
    apply Forall_forall. intros row Hrow.
    apply in_map_iff in Hrow. destruct Hrow as [i [<- _]].
    now rewrite length_map, length_seq.
Qed.

Lemma project_point_length transform_to_image warped_point :
  length (project_point (gtsam.array34 transform_to_image) warped_point) = 2.
Proof.
  destruct transform_to_image
    as [[[[[a0 a1] a2] a3] [[[b0 b1] b2] b3]] [[[c0 c1] c2] c3]].
  reflexivity.
Qed.

Lemma to_pixels_shape g m n :
  has_shape g m n -> has_shape (CV2Drawing.to_pixels g) m n.
Proof.
  intros [Hm Hn]. unfold CV2Drawing.to_pixels. split.
  - now rewrite !length_map.
  - rewrite !Forall_map. eapply Forall_impl; [|exact Hn].
    intros row Hrow. now rewrite !length_map.
Qed.

Lemma nth_map_map {A B} (f : A -> B) (l : list (list A)) (i : nat) :
  nth i (map (map f) l) [] = map f (nth i l []).
Proof. exact (map_nth (map f) l [] i). Qed.

Lemma to_pixels_entry g i j :
  np.get2 [] (CV2Drawing.to_pixels g) i j
  = map F64.astype_int (map F64.round (np.get2 [] g i j)).
Proof.
  unfold CV2Drawing.to_pixels, np.get2, mat, vec.
  now rewrite !nth_map_map.
Qed.

Lemma to_pixels_xy g i j :
  length (np.get2 [] g i j) = 2 ->
  CV2Drawing.xy (np.get2 [] (CV2Drawing.to_pixels g) i j)
  = rounded_pixel (np.get2 [] g i j).
Proof.
  intro Hlen. rewrite to_pixels_entry.
  destruct (np.get2 [] g i j) as [|x [|y [|z r]]]; try discriminate.
  reflexivity.
Qed.

(** [quadric] once the grid is there: the wireframe, then the blend
    when alpha is not 1. *)
Lemma quadric_eq pose quadric calibration color alpha img g :
  generate_uv_spherical quadric pose calibration 10 10 = Some g ->
  CV2Drawing.quadric pose quadric calibration color alpha img
  = bind (CV2Drawing.wireframe (CV2Drawing.to_pixels g) (CV2Drawing.bgr color))
         (fun _ =>
            if negb (F64.eqb alpha F64.one)
            then CV2Drawing.addWeighted alpha img (F64.sub F64.one alpha)
                                        F64.zero
            else ret tt) img.
Proof.
  intro Hg. unfold CV2Drawing.quadric. rewrite Hg.
  unfold bind, lift, ret, copy.
  destruct (negb (F64.eqb alpha F64.one)); reflexivity.
Qed.

(** [np.linalg.inv] raising: nothing is drawn and the error goes up. *)
Lemma quadric_raises pose quadric calibration color alpha img :
  generate_uv_spherical quadric pose calibration 10 10 = None ->
  CV2Drawing.quadric pose quadric calibration color alpha img = (img, None).
Proof. intro Hg. unfold CV2Drawing.quadric. rewrite Hg. reflexivity. Qed.

End GridFacts.

(** ** The claims about [quadric] *)

(** C9: with alpha different from 1, [quadric] ends with the image
    [cv2.addWeighted] makes of the buffer with the wireframe drawn,
    weighted by alpha, and of the buffer as it was before the call,
    weighted by 1 - alpha, with offset 0; with alpha equal to 1 there is
    neither copy nor blend: the result is the buffer the lines were
    drawn into. *)
Theorem quadric_alpha_blend
        {L : Libs} pose quadric calibration color alpha img g :
  generate_uv_spherical quadric pose calibration 10 10 = Some g ->
  let drawn :=
    CV2Drawing.wireframe (CV2Drawing.to_pixels g) (CV2Drawing.bgr color) img in
  (F64.eqb alpha F64.one = false ->
   CV2Drawing.quadric pose quadric calibration color alpha img
   = match drawn with
     | (with_wireframe, Some _) =>
         match cv2_addWeighted with_wireframe alpha img
                               (F64.sub F64.one alpha) F64.zero with
         | Some blended => (blended, Some tt)
         | None => (with_wireframe, None)
         end
     | (partly_drawn, None) => (partly_drawn, None)
     end)
  /\ (F64.eqb alpha F64.one = true ->
      CV2Drawing.quadric pose quadric calibration color alpha img = drawn).
Proof.
  intros Hg drawn. subst drawn. split; intro Ha.
  - rewrite (quadric_eq _ _ _ _ _ _ Hg). unfold bind. rewrite Ha. simpl negb.
    cbv iota. destruct (CV2Drawing.wireframe _ _ img) as [img1 [[]|]];
      reflexivity.
  - rewrite (quadric_eq _ _ _ _ _ _ Hg). unfold bind. rewrite Ha. simpl negb.
    cbv iota. destruct (CV2Drawing.wireframe _ _ img) as [img1 [[]|]];
      reflexivity.
Qed.

Lemma generated_grid5 :
  generate_uv_spherical (L := Ref.libs) (Examples.sphere 5) Ref.identity_pose
    Examples.cal 10 10 = Some Inputs.grid5.
Proof. vm_compute. reflexivity. Defined.

Lemma quadric_alpha_blend_witness :
  fst (CV2Drawing.quadric (L := Ref.libs) Ref.identity_pose (Examples.sphere 5)
         Examples.cal Examples.red Inputs.half Ref.Blank)
  = Ref.Blend
      (fst (CV2Drawing.wireframe (L := Ref.libs)
              (CV2Drawing.to_pixels Inputs.grid5)
              (CV2Drawing.bgr Examples.red) Ref.Blank))
      Inputs.half Ref.Blank Inputs.half F64.zero.
Proof.
  destruct (@quadric_alpha_blend Ref.libs Ref.identity_pose (Examples.sphere 5)
              Examples.cal Examples.red Inputs.half Ref.Blank Inputs.grid5
              generated_grid5) as [Hblend _].
  rewrite Hblend by reflexivity.
  vm_compute. reflexivity.
Defined.

(** C10: every end of every line [quadric] draws is a projected point
    of the grid with both coordinates rounded to the nearest integer
    ([np.round], ties to even, then the cast to int), the conversion
    being done on the whole grid before the first line; the rounded
    coordinate is within one half of the projected one, where
    truncation would give 2 for 2.7 instead of 3. *)
Theorem quadric_rounds_pixels
        {L : Libs} pose quadric calibration color alpha img g :
  generate_uv_spherical quadric pose calibration 10 10 = Some g ->
  CV2Drawing.quadric pose quadric calibration color alpha img
  = bind (run (map (rounded_segment g (CV2Drawing.bgr color))
                   (row_edges 10 10 ++ col_edges 10 10)))
         (fun _ => finish alpha img) img
  /\ (forall x, F64.valid x = true -> in_int64 x ->
                nearest_integer x (F64.astype_int (F64.round x)))
  /\ F64.astype_int (F64.round f2_7) = 3%Z
  /\ F64.astype_int f2_7 = 2%Z
  /\ F64.astype_int (F64.round f2_5) = 2%Z.
Proof.
  intro Hg. split; [|split; [apply round_nearest|repeat split]].
  rewrite (quadric_eq _ _ _ _ _ _ Hg). unfold bind.
  assert (Hs : has_shape (CV2Drawing.to_pixels g) 10 10)
    by (apply to_pixels_shape; eapply generate_uv_spherical_shape; exact Hg).
  rewrite (wireframe_run _ _ Hs).
  assert (Hlen : forall i j, i < 10 -> j < 10 ->
                             length (np.get2 [] g i j) = 2).
  { intros i j Hi Hj.
    destruct (generate_uv_spherical_entry _ _ _ Hg Hi Hj) as [rinv [_ ->]].
    apply project_point_length. }
  assert (Hmap : map (segment (CV2Drawing.to_pixels g) (CV2Drawing.bgr color))
                     (row_edges 10 10 ++ col_edges 10 10)
                 = map (rounded_segment g (CV2Drawing.bgr color))
                       (row_edges 10 10 ++ col_edges 10 10)).
  { apply map_ext_in. intros [[i j] [i' j']] He.
    unfold segment, rounded_segment. simpl fst. simpl snd.
    apply in_app_or in He. destruct He as [He|He].
    - pose proof (proj1 (Forall_forall _ _) (row_edges_adjacent 10 10) _ He)
        as [H1 [H2 [H3 H4]]].
      simpl in H1, H2, H3, H4.
      rewrite !to_pixels_xy by (apply Hlen; lia). reflexivity.
    - pose proof (proj1 (Forall_forall _ _) (col_edges_adjacent 10 10) _ He)
        as [H1 [H2 [H3 H4]]].
      simpl in H1, H2, H3, H4.
      rewrite !to_pixels_xy by (apply Hlen; lia). reflexivity. }
  rewrite Hmap. reflexivity.
Qed.

Lemma quadric_rounds_pixels_witness :
  CV2Drawing.quadric (L := Ref.libs) Ref.identity_pose (Examples.sphere 5)
    Examples.cal Examples.red F64.one Ref.Blank
  = bind (L := Ref.libs)
         (run (map (rounded_segment Inputs.grid5 (CV2Drawing.bgr Examples.red))
                   (row_edges 10 10 ++ col_edges 10 10)))
         (fun _ => finish (L := Ref.libs) F64.one Ref.Blank) Ref.Blank.
Proof.
  exact (proj1 (@quadric_rounds_pixels Ref.libs Ref.identity_pose
                  (Examples.sphere 5) Examples.cal Examples.red F64.one
                  Ref.Blank Inputs.grid5 generated_grid5)).
Defined.

(** C1: [quadric] has no test on the projected coordinates.  With the
    pole of the unit sphere on the centre of projection the ten grid
    points of that pole are NaN, and [quadric] still asks OpenCV for all
    180 lines, forty of them with an end cast from NaN: the draw is not
    skipped and the buffer is not the one it was given. *)
Theorem quadric_draws_nonfinite_projection :
  generate_uv_spherical (L := Ref.libs) (Examples.sphere (-1))
    Ref.identity_pose Examples.cal 10 10 = Some Inputs.grid_pole
  /\ np.get2 [] Inputs.grid_pole 0 0 = [S754_nan; S754_nan]
  /\ np.any F64.isnan (map (fun row => nth 0 row []) Inputs.grid_pole) = true
  /\ snd (CV2Drawing.quadric (L := Ref.libs) Ref.identity_pose
            (Examples.sphere (-1)) Examples.cal Examples.red F64.one
            Ref.Blank) = Some tt
  /\ Ref.lines (fst (CV2Drawing.quadric (L := Ref.libs) Ref.identity_pose
                       (Examples.sphere (-1)) Examples.cal Examples.red
                       F64.one Ref.Blank)) = 180
  /\ fst (CV2Drawing.quadric (L := Ref.libs) Ref.identity_pose
            (Examples.sphere (-1)) Examples.cal Examples.red F64.one
            Ref.Blank) <> Ref.Blank
  /\ hd_error (map (rounded_segment Inputs.grid_pole
                       (CV2Drawing.bgr Examples.red))
                   (row_edges 10 10 ++ col_edges 10 10))
     = Some (LineTo (F64.int64_min, F64.int64_min) (-2516, 240)%Z
                    (0, 0, 255)%Z 1 LINE_AA).
Proof.
  split; [vm_compute; reflexivity|].
  split; [vm_compute; reflexivity|].
  split; [vm_compute; reflexivity|].
  split; [vm_compute; reflexivity|].
  split; [vm_compute; reflexivity|].
  split; [|vm_compute; reflexivity].
  intro H. apply (f_equal Ref.lines) in H. vm_compute in H. discriminate.
Qed.

(** ** binary64: quotients and products that stay exact or normal *)
Section FloatRounding.

Local Open Scope Z_scope.

Lemma shr_fexp_one p e l :
  Zpos (digits2_pos p) = 54 -> -1074 <= e ->
  shr_fexp 53 1024 (Zpos p) e l
  = (shr_1 (shr_record_of_loc (Zpos p) l), e + 1).
Proof.
  intros Hd He. unfold shr_fexp, fexp, emin, Zdigits2. rewrite Hd.
  replace (Z.max (54 + e - 53) (3 - 1024 - 53) - e) with 1 by lia.
  reflexivity.
Qed.

Lemma shr_1_half p l :
  shr_m (shr_1 (shr_record_of_loc (Zpos p) l)) = Zpos p / 2.
Proof.
  assert (H : forall r s, shr_m (shr_1 (Build_shr_record (Zpos p) r s)) = Zpos p / 2).
  { intros r s. destruct p as [p|p|]; simpl.
    - rewrite Pos2Z.inj_xI. apply Z.div_unique with (r := 1); lia.
    - rewrite Pos2Z.inj_xO. apply Z.div_unique with (r := 0); lia.
    - reflexivity. }
  destruct l as [|[]]; apply H.
Qed.

Lemma round_nearest_even_cases m l :
  round_nearest_even m l = m \/ round_nearest_even m l = m + 1.
Proof. destruct l as [|[]]; simpl; auto. destruct (Z.even m); auto. Qed.

Lemma digits_53 p : 2 ^ 52 <= Zpos p < 2 ^ 53 -> Zpos (digits2_pos p) = 53.
Proof. intro H. apply digits2_unique. exact H. Qed.

Lemma digits_54 p : 2 ^ 53 <= Zpos p < 2 ^ 54 -> Zpos (digits2_pos p) = 54.
Proof. intro H. apply digits2_unique. exact H. Qed.

(** Second half of [binary_round_aux]: a mantissa of 53 bits, or 2^53. *)
Lemma round_aux_renormalize s m e :
  2 ^ 52 <= m <= 2 ^ 53 -> -1074 <= e <= 970 ->
  exists m' e',
    (let '(mrs, e'') := shr_fexp 53 1024 m e loc_Exact in
     match shr_m mrs with
     | Z0 => S754_zero s
     | Zpos m => if e'' <=? 1024 - 53 then S754_finite s m e''
                 else S754_infinity s
     | Zneg _ => S754_nan
     end) = S754_finite s m' e'.
Proof.
  intros Hm He. destruct m as [|p|p]; try (simpl in Hm; lia).
  destruct (Z.eq_dec (Zpos p) (2 ^ 53)) as [Heq|Hne].
  - rewrite shr_fexp_one by (try apply digits_54; simpl in *; lia).
    rewrite shr_1_half. rewrite Heq. change (2 ^ 53 / 2) with (Zpos 4503599627370496).
    cbv iota beta.
    destruct (e + 1 <=? 1024 - 53) eqn:E; [eauto|]. apply Z.leb_gt in E. lia.
  - rewrite shr_fexp_canonical by (try apply digits_53; lia).
    cbv beta iota zeta delta [shr_record_of_loc shr_m].
    destruct (e <=? 1024 - 53) eqn:E; [eauto|]. apply Z.leb_gt in E. lia.
Qed.

Lemma round_aux_normal s p e l :
  2 ^ 52 <= Zpos p < 2 ^ 54 -> -1074 <= e <= 900 ->
  exists m' e', binary_round_aux 53 1024 s (Zpos p) e l = S754_finite s m' e'.
Proof.
  intros Hp He. unfold binary_round_aux.
  destruct (Z.lt_ge_cases (Zpos p) (2 ^ 53)) as [Hlt|Hge].
  - rewrite shr_fexp_canonical by (try apply digits_53; lia).
    assert (Hl : loc_of_shr_record (shr_record_of_loc (Zpos p) l) = l)
      by (destruct l as [|[]]; reflexivity).
    rewrite Hl.
    assert (Hm : shr_m (shr_record_of_loc (Zpos p) l) = Zpos p)
      by (destruct l as [|[]]; reflexivity).
    rewrite Hm.
    apply round_aux_renormalize; [|lia].
    destruct (round_nearest_even_cases (Zpos p) l) as [-> | ->]; lia.
  - rewrite shr_fexp_one by (try apply digits_54; lia).
    set (mrs := shr_1 (shr_record_of_loc (Zpos p) l)).
    assert (Hm : shr_m mrs = Zpos p / 2) by apply shr_1_half.
    assert (Hb : 2 ^ 52 <= Zpos p / 2 < 2 ^ 53).
    { change (2 ^ 53) with (2 * 2 ^ 52) in Hge. change (2 ^ 54) with (2 * 2 ^ 53) in Hp.
      split; [apply Z.div_le_lower_bound; lia|apply Z.div_lt_upper_bound; lia]. }
    apply round_aux_renormalize; [|lia].
    destruct (round_nearest_even_cases (shr_m mrs) (loc_of_shr_record mrs))
      as [-> | ->]; lia.
Qed.

Lemma div_by_index M E k :
  2 ^ 52 <= Zpos M < 2 ^ 53 -> -100 <= E <= 100 -> 1 <= k < 2 ^ 53 ->
  exists m e, F64.div (S754_finite false M E) (F64.of_Z k) = S754_finite false m e.
Proof.
  intros HM HE Hk. destruct k as [|p|p]; try lia.
  unfold F64.of_Z, binary_normalize.
  destruct (@of_pos_exact false p ltac:(lia)) as [mk [ek [Hof [Hek [Hmk Hdk]]]]].
  change F64.prec with 53. change F64.emax with 1024. rewrite Hof.
  unfold F64.div, SFdiv, SFdiv_core_binary, Zdigits2.
  change F64.prec with 53. change F64.emax with 1024.
  rewrite Hdk, (@digits_53 M HM).
  unfold fexp, emin.
  replace (Z.min (Z.max (53 + E - (53 + ek) - 53) (3 - 1024 - 53)) (E - ek))
    with (E - ek - 53) by lia.
  replace (E - ek - (E - ek - 53)) with 53 by lia.
  cbv iota.
  assert (Hmk' : 2 ^ 52 <= Zpos mk < 2 ^ 53).
  { pose proof (digits2_bounds mk) as Hb. rewrite Hdk in Hb. exact Hb. }
  rewrite Z.shiftl_mul_pow2 by lia.
  pose proof (Z.div_eucl_eq (Zpos M * 2 ^ 53) (Zpos mk) ltac:(lia)) as Heq.
  pose proof (Z.mod_pos_bound (Zpos M * 2 ^ 53) (Zpos mk) ltac:(lia)) as Hmod.
  unfold Z.modulo in Hmod.
  destruct (Z.div_eucl (Zpos M * 2 ^ 53) (Zpos mk)) as [q r].
  assert (Hq : 2 ^ 52 <= q < 2 ^ 54).
  { change (2 ^ 54) with (2 * 2 ^ 53). change (2 ^ 53) with (2 * 2 ^ 52) in *.
    set (a := 2 ^ 52) in *. nia. }
  simpl xorb.
  destruct q as [|qp|qp]; try (change (2 ^ 52) with 4503599627370496 in Hq; lia).
  apply round_aux_normal; [exact Hq|lia].
Qed.

Lemma mul_one_valid c : F64.valid c = true -> F64.mul F64.one c = c.
Proof.
  intro Hv. destruct c as [s|s| |s m e]; try reflexivity.
  unfold F64.valid, valid_binary, bounded, canonical_mantissa, fexp, emin in Hv.
  change F64.prec with 53 in Hv. change F64.emax with 1024 in Hv.
  apply andb_true_iff in Hv. destruct Hv as [Hc He].
  apply Z.eqb_eq in Hc. apply Z.leb_le in He.
  change F64.one with (S754_finite false 4503599627370496 (-52)).
  unfold F64.mul, SFmul. change F64.prec with 53. change F64.emax with 1024.
  simpl xorb. cbn [Pos.mul].
  unfold binary_round_aux, shr_fexp, Zdigits2. cbn [digits2_pos].
  match goal with
  | |- context [fexp 53 1024 (Zpos ?d + (-52 + e)) - (-52 + e)] =>
      assert (Hd : Zpos d = Zpos (digits2_pos m) + 52)
        by (rewrite !Pos2Z.inj_succ; lia);
      replace (fexp 53 1024 (Zpos d + (-52 + e)) - (-52 + e)) with 52
        by (unfold fexp, emin; rewrite Hd; lia)
  end.
  cbn [shr iter_pos shr_1 shr_record_of_loc orb].
  cbv beta iota zeta delta [shr_m loc_of_shr_record round_nearest_even shr_record_of_loc].
  replace (-52 + e + 52) with e by lia.
  replace (fexp 53 1024 (Zpos (digits2_pos m) + e) - e) with 0
    by (unfold fexp, emin; lia).
  cbn [shr]. cbv beta iota.
  destruct (e <=? 1024 - 53) eqn:E; [reflexivity|]. apply Z.leb_gt in E. lia.
Qed.

End FloatRounding.

(** ** linspace and the sampler *)

Lemma linspace_evenly_spaced M E num :
  (2 ^ 52 <= Zpos M < 2 ^ 53)%Z -> (-100 <= E <= 100)%Z ->
  2 <= num -> (Z.of_nat num <= 2 ^ 53)%Z ->
  evenly_spaced (S754_finite false M E) num
                (np.linspace F64.zero (S754_finite false M E) num).
Proof.
  intros HM HE Hnum Hbig. set (stop := S754_finite false M E).
  destruct (@div_by_index M E (Z.of_nat (num - 1)) HM HE ltac:(lia))
    as [m [e Hstep]]. fold stop in Hstep.
  assert (Hlin : np.linspace F64.zero stop num
                 = removelast
                     (map (fun t => F64.add t F64.zero)
                        (map (fun t => F64.mul t (S754_finite false m e))
                           (np.arange num))) ++ [stop]).
  { unfold np.linspace.
    change (F64.sub stop F64.zero) with stop.
    rewrite Hstep.
    replace (0 <? num - 1) with true by (symmetry; apply Nat.ltb_lt; lia).
    replace (1 <? num) with true by (symmetry; apply Nat.ltb_lt; lia).
    reflexivity. }
  set (y := map (fun t => F64.add t F64.zero)
              (map (fun t => F64.mul t (S754_finite false m e))
                 (np.arange num))) in Hlin.
  assert (Hy : length y = num)
    by (unfold y, np.arange; now rewrite !length_map, length_seq).
  assert (Hyi : forall i, i < num ->
                  nth i y F64.zero
                  = F64.add (F64.mul (F64.of_Z (Z.of_nat i)) (S754_finite false m e))
                            F64.zero).
  { intros i Hi. unfold y, np.arange. rewrite !map_map.
    exact (@nth_tabulate _
             (fun x => F64.add (F64.mul (F64.of_Z (Z.of_nat x))
                                        (S754_finite false m e)) F64.zero)
             num i F64.zero Hi). }
  assert (Hr : length (removelast y) = num - 1)
    by (rewrite removelast_firstn_len, length_firstn; lia).
  unfold evenly_spaced. rewrite Hstep, Hlin. unfold np.get1.
  split; [rewrite length_app, Hr; simpl; lia|].
  assert (Hpre : forall i, i < num - 1 ->
                   nth i (removelast y ++ [stop]) F64.zero
                   = F64.add (F64.mul (F64.of_Z (Z.of_nat i))
                                      (S754_finite false m e)) F64.zero).
  { intros i Hi. rewrite app_nth1 by lia.
    rewrite removelast_firstn_len, nth_firstn.
    replace (i <? Nat.pred (length y)) with true
      by (symmetry; apply Nat.ltb_lt; lia).
    apply Hyi. lia. }
  split; [rewrite Hpre by lia; reflexivity|].
  split; [|exact Hpre].
  rewrite app_nth2 by lia. rewrite Hr, Nat.sub_diag. reflexivity.
Qed.

Lemma nth_map_in {A B} (f : A -> B) (l : list A) i d d' :
  i < length l -> nth i (map f l) d' = f (nth i l d).
Proof.
  intro Hi. rewrite (nth_indep _ d' (f d)) by (now rewrite length_map).
  apply map_nth.
Qed.

Lemma scale_outer_entry c (a b : vec) i j :
  i < length a -> j < length b ->
  np.get2 F64.zero (np.scale c (np.outer a b)) i j
  = F64.mul c (F64.mul (nth i a F64.zero) (nth j b F64.zero)).
Proof.
  intros Hi Hj. unfold np.get2, np.scale, np.outer, mat, vec.
  rewrite nth_map_map.
  rewrite (@nth_map_in _ _ _ a i F64.zero []) by exact Hi.
  rewrite (@nth_map_in _ _ _ _ j (F64.mul (nth i a F64.zero) F64.zero) F64.zero)
    by (now rewrite length_map).
  rewrite (@nth_map_in _ _ _ b j F64.zero) by exact Hj.
  reflexivity.
Qed.

(** C3: for theta_points and phi_points at least 2, the sampler returns
    three arrays x, y, z of theta_points rows and phi_points columns
    with x[i, j] = rx (cos u_i sin v_j), y[i, j] = ry (sin u_i sin v_j) and
    z[i, j] = rz cos v_j, the u_i being theta_points values from 0 to
    2 pi and the v_j phi_points values from 0 to pi, first and last
    included, a constant step apart.  The sample counts are below 2^53,
    where indices are exact in binary64, and libm's cosines are proper
    doubles. *)
Theorem surface_sampler_grid {L : Libs} quadric theta_points phi_points :
  2 <= theta_points -> 2 <= phi_points ->
  (Z.of_nat theta_points <= 2 ^ 53)%Z -> (Z.of_nat phi_points <= 2 ^ 53)%Z ->
  (forall j, j < phi_points ->
             F64.valid (np_cos (np.get1 (angles_v phi_points) j)) = true) ->
  exists x y z,
    surface_points quadric theta_points phi_points = [x; y; z]
    /\ has_shape x theta_points phi_points
    /\ has_shape y theta_points phi_points
    /\ has_shape z theta_points phi_points
    /\ (forall i j, i < theta_points -> j < phi_points ->
          let u_i := np.get1 (angles_u theta_points) i in
          let v_j := np.get1 (angles_v phi_points) j in
          np.get2 F64.zero x i j
          = F64.mul (fst (fst (quadricslam.radii quadric)))
                    (F64.mul (np_cos u_i) (np_sin v_j))
          /\ np.get2 F64.zero y i j
             = F64.mul (snd (fst (quadricslam.radii quadric)))
                       (F64.mul (np_sin u_i) (np_sin v_j))
          /\ np.get2 F64.zero z i j
             = F64.mul (snd (quadricslam.radii quadric)) (np_cos v_j))
    /\ evenly_spaced (F64.mul (F64.of_Z 2) F64.pi) theta_points
                     (angles_u theta_points)
    /\ evenly_spaced F64.pi phi_points (angles_v phi_points).
Proof.
  intros Ht Hp Htb Hpb Hcos.
  destruct (surface_points_shape quadric theta_points phi_points)
    as [x [y [z [Hsp [Hx [Hy Hz]]]]]].
  exists x, y, z. split; [exact Hsp|]. do 3 (split; [assumption|]).
  split.
  - intros i j Hi Hj u_i v_j.
    unfold surface_points in Hsp.
    destruct (quadricslam.radii quadric) as [[rx ry] rz].
    fold (angles_u theta_points) in Hsp. fold (angles_v phi_points) in Hsp.
    injection Hsp as <- <- <-. simpl fst. simpl snd.
    assert (Hlu : length (angles_u theta_points) = theta_points)
      by apply length_linspace.
    assert (Hlv : length (angles_v phi_points) = phi_points)
      by apply length_linspace.
    rewrite !scale_outer_entry
      by (unfold np.ones_like, np.ones;
          rewrite ?length_map, ?repeat_length; lia).
    rewrite !(@nth_map_in _ _ _ _ _ F64.zero F64.zero) by lia.
    split; [reflexivity|]. split; [reflexivity|].
    unfold np.ones_like, np.ones.
    rewrite (nth_indep _ F64.zero F64.one) by (rewrite repeat_length; lia).
    rewrite nth_repeat.
    rewrite mul_one_valid by (apply Hcos; exact Hj).
    reflexivity.
  - split.
    + apply (@linspace_evenly_spaced 7074237752028440 (-50) theta_points);
        [split; [discriminate|reflexivity]|split; discriminate|exact Ht
        |exact Htb].
    + apply (@linspace_evenly_spaced 7074237752028440 (-51) phi_points);
        [split; [discriminate|reflexivity]|split; discriminate|exact Hp
        |exact Hpb].
Qed.

Lemma surface_sampler_grid_witness :
  exists x y z,
    surface_points (L := Ref.libs) (Examples.sphere 5) 10 10 = [x; y; z]
    /\ has_shape x 10 10
    /\ np.get2 F64.zero z 0 0 = F64.mul F64.one (Ref.cos F64.zero)
    /\ evenly_spaced F64.pi 10 (angles_v 10).
Proof.
  assert (Hcos : forall j, j < 10 ->
             F64.valid (np_cos (Libs := Ref.libs) (np.get1 (angles_v 10) j))
             = true).
  { intros j Hj.
    do 10 (destruct j as [|j]; [vm_compute; reflexivity|]). lia. }
  destruct (@surface_sampler_grid Ref.libs (Examples.sphere 5) 10 10
              ltac:(lia) ltac:(lia) ltac:(vm_compute; discriminate)
              ltac:(vm_compute; discriminate) Hcos)
    as [x [y [z [Hsp [Hx [_ [_ [Hent [_ Hv]]]]]]]]].
  exists x, y, z.
  split; [exact Hsp|]. split; [exact Hx|].
  split; [|exact Hv].
  destruct (Hent 0 0 ltac:(lia) ltac:(lia)) as [_ [_ Hz]].
  exact Hz.
Defined.

(** ** The world transform *)

Lemma mul_comm x y : F64.mul x y = F64.mul y x.
Proof.
  destruct x as [sx|sx| |sx mx ex], y as [sy|sy| |sy my ey]; simpl;
    try reflexivity; try (now rewrite xorb_comm).
  unfold F64.mul, SFmul.
  now rewrite (xorb_comm sx sy), (Pos.mul_comm mx my), (Z.add_comm ex ey).
Qed.

Lemma inner_comm (a b : vec) : np.inner a b = np.inner b a.
Proof.
  unfold np.inner. generalize F64.zero as acc. revert b.
  induction a as [|x a IH]; intros [|y b] acc; simpl; try reflexivity.
  rewrite (mul_comm x y). apply IH.
Qed.

(** A row vector times a matrix is the transposed matrix applied to
    the vector. *)
Lemma dot_vm_transpose (p : vec) (m : mat) :
  np.dot_vm p m = np.dot_mv (np.transpose m) p.
Proof.
  unfold np.dot_vm, np.dot_mv, np.transpose. rewrite map_map.
  apply map_ext. intro k. apply inner_comm.
Qed.

(** C2, as it is worded: on the quarter-turned quadric the world point
    of the sample on the x axis is not the inverse rotation applied to
    it plus the translation; the two differ in the sign of y. *)
Lemma world_transform_is_not_inverse_rotation :
  exists rotation_inv,
    np_linalg_inv (Libs := Ref.libs) (gtsam.matrix Turned.Rz90)
    = Some rotation_inv
    /\ warp_point (L := Ref.libs) (gtsam.matrix Turned.Rz90)
         (gtsam.vector (gtsam.translation (quadricslam.pose Turned.quadric)))
         Turned.point
       <> Some (inverse_rotate_then_translate rotation_inv
                  (gtsam.vector
                     (gtsam.translation (quadricslam.pose Turned.quadric)))
                  Turned.point).
Proof.
  eexists. split; [vm_compute; reflexivity|].
  vm_compute. discriminate.
Qed.

(** C2, amended: every sample p of every quadric goes to the world as
    the row vector p times the inverse of the rotation matrix, plus the
    translation: coordinate k is the sum over i of p_i (R^-1)[i, k], plus
    t_k.  That is the transpose of R^-1 applied to p, and the point that
    is projected into the grid. *)
Theorem world_transform_row_vector
        {L : Libs} quadric pose calibration m n g i j :
  generate_uv_spherical quadric pose calibration m n = Some g ->
  i < m -> j < n ->
  let rotation := gtsam.matrix (gtsam.rotation (quadricslam.pose quadric)) in
  let translation :=
    gtsam.vector (gtsam.translation (quadricslam.pose quadric)) in
  let p := sample quadric m n i j in
  exists rotation_inv,
    np_linalg_inv rotation = Some rotation_inv
    /\ warp_point rotation translation p
       = Some (world_point rotation_inv translation p)
    /\ world_point rotation_inv translation p
       = np.map2 F64.add
           (map (fun k => np.inner p (np.column rotation_inv k))
                (seq 0 (np.shape1 rotation_inv)))
           translation
    /\ world_point rotation_inv translation p
       = np.map2 F64.add (np.dot_mv (np.transpose rotation_inv) p) translation
    /\ np.get2 [] g i j
       = project_point (gtsam.array34 (transformToImage pose calibration))
           (world_point rotation_inv translation p).
Proof.
  intros Hg Hi Hj rotation translation p.
  destruct (generate_uv_spherical_entry _ _ _ Hg Hi Hj) as [rinv [Hinv Hent]].
  exists rinv. split; [exact Hinv|].
  split; [unfold warp_point; subst rotation; rewrite Hinv; reflexivity|].
  split; [reflexivity|].
  split; [unfold world_point; now rewrite dot_vm_transpose|exact Hent].
Qed.

Lemma generated_turned :
  exists g, generate_uv_spherical (L := Ref.libs) Turned.quadric
              Ref.identity_pose Examples.cal 5 5 = Some g.
Proof. eexists. vm_compute. reflexivity. Defined.

Lemma world_transform_row_vector_witness :
  exists rotation_inv,
    np_linalg_inv (Libs := Ref.libs) (gtsam.matrix Turned.Rz90)
    = Some rotation_inv
    /\ warp_point (L := Ref.libs) (gtsam.matrix Turned.Rz90)
         (gtsam.vector (gtsam.translation (quadricslam.pose Turned.quadric)))
         Turned.point
       = Some (world_point rotation_inv
                 (gtsam.vector
                    (gtsam.translation (quadricslam.pose Turned.quadric)))
                 Turned.point).
Proof.
  destruct generated_turned as [g Hg].
  destruct (@world_transform_row_vector Ref.libs Turned.quadric
              Ref.identity_pose Examples.cal 5 5 g 0 2 Hg
              ltac:(lia) ltac:(lia)) as [rinv [Hinv [Hwarp _]]].
  exists rinv. split; [exact Hinv|exact Hwarp].
Defined.

(** * Further properties of the projection and of the renderers *)

(** ** generate_uv_spherical: errors and shape *)

(** Whenever [generate_uv_spherical] returns, its result has
    theta_points rows of phi_points entries, each a pair of
    coordinates: the shape (theta_points, phi_points, 2) of the array
    allocated on line 234. *)
Theorem generate_uv_spherical_returns_grid
        {L : Libs} quadric pose calibration m n g :
  generate_uv_spherical quadric pose calibration m n = Some g ->
  length g = m
  /\ forall row, In row g ->
       length row = n /\ forall point, In point row -> length point = 2.
Proof.
  intro Hg. destruct (generate_uv_spherical_shape _ _ _ _ _ Hg) as [Hm Hn].
  split; [exact Hm|]. intros row Hrow.
  split; [exact (proj1 (Forall_forall _ _) Hn row Hrow)|].
  intros point Hpoint.
  rewrite generate_uv_spherical_eq in Hg.
  destruct ((m =? 0) || (n =? 0))%nat.
  - injection Hg as <-. apply repeat_spec in Hrow. subst row. destruct Hpoint.
  - destruct (np_linalg_inv _) as [rinv|]; [|discriminate].
    injection Hg as <-.
    apply in_map_iff in Hrow. destruct Hrow as [i [<- _]].
    apply in_map_iff in Hpoint. destruct Hpoint as [j [<- _]].
    apply project_point_length.
Qed.

Lemma generate_uv_spherical_returns_grid_witness :
  length Inputs.grid5 = 10
  /\ forall row, In row Inputs.grid5 ->
       length row = 10 /\ forall point, In point row -> length point = 2.
Proof.
  exact (@generate_uv_spherical_returns_grid Ref.libs (Examples.sphere 5)
           Ref.identity_pose Examples.cal 10 10 Inputs.grid5 generated_grid5).
Defined.

(** ** quadric: exceptions *)

(** When [np.linalg.inv] raises on the rotation of the quadric,
    [quadric] raises before the buffer is copied or a line is drawn:
    the image is the one it was given, whatever alpha is. *)
Theorem quadric_singular_rotation
        {L : Libs} pose quadric calibration color alpha img :
  np_linalg_inv (gtsam.matrix (gtsam.rotation (quadricslam.pose quadric)))
  = None ->
  CV2Drawing.quadric pose quadric calibration color alpha img = (img, None).
Proof.
  intro Hinv. apply quadric_raises.
  rewrite generate_uv_spherical_eq.
  change ((10 =? 0) || (10 =? 0))%nat with false. cbv iota.
  rewrite Hinv. reflexivity.
Qed.

Lemma quadric_singular_rotation_witness :
  CV2Drawing.quadric (L := Ref.libs) Ref.identity_pose Degenerate.flat
    Examples.cal Examples.red Inputs.half Ref.Blank
  = (Ref.Blank, None).
Proof.
  apply (@quadric_singular_rotation Ref.libs). reflexivity.
Defined.

(** [quadric] as the list of its line calls, then the blend. *)
Lemma quadric_run {L : Libs} pose quadric calibration color alpha img g :
  generate_uv_spherical quadric pose calibration 10 10 = Some g ->
  CV2Drawing.quadric pose quadric calibration color alpha img
  = bind (run (map (rounded_segment g (CV2Drawing.bgr color))
                   (row_edges 10 10 ++ col_edges 10 10)))
         (fun _ => finish alpha img) img.
Proof.
  intro Hg. rewrite (quadric_eq _ _ _ _ _ _ Hg). unfold bind.
  assert (Hs : has_shape (CV2Drawing.to_pixels g) 10 10)
    by (apply to_pixels_shape; eapply generate_uv_spherical_shape; exact Hg).
  rewrite (wireframe_run _ _ Hs).
  assert (Hlen : forall i j, i < 10 -> j < 10 ->
                             length (np.get2 [] g i j) = 2).
  { intros i j Hi Hj.
    destruct (generate_uv_spherical_entry _ _ _ Hg Hi Hj) as [rinv [_ ->]].
    apply project_point_length. }
  assert (Hmap : map (segment (CV2Drawing.to_pixels g) (CV2Drawing.bgr color))
                     (row_edges 10 10 ++ col_edges 10 10)
                 = map (rounded_segment g (CV2Drawing.bgr color))
                       (row_edges 10 10 ++ col_edges 10 10)).
  { apply map_ext_in. intros [[i j] [i' j']] He.
    unfold segment, rounded_segment. simpl fst. simpl snd.
    apply in_app_or in He. destruct He as [He|He].
    - pose proof (proj1 (Forall_forall _ _) (row_edges_adjacent 10 10) _ He)
        as [H1 [H2 [H3 H4]]].
      simpl in H1, H2, H3, H4.
      rewrite !to_pixels_xy by (apply Hlen; lia). reflexivity.
    - pose proof (proj1 (Forall_forall _ _) (col_edges_adjacent 10 10) _ He)
        as [H1 [H2 [H3 H4]]].
      simpl in H1, H2, H3, H4.
      rewrite !to_pixels_xy by (apply Hlen; lia). reflexivity. }
  rewrite Hmap. reflexivity.
Qed.

Lemma run_app {L : Libs} (pre post : list call) img :
  run (pre ++ post) img = bind (run pre) (fun _ => run post) img.
Proof. apply for_each_app. Qed.

(** When a [cv2.line] call raises in the loops of [quadric], the lines
    drawn before it stay in the buffer, the remaining ones are not
    attempted, and for alpha different from 1 the blend with the
    original is not done either: the exception leaves the partial
    wireframe at full opacity. *)
Theorem quadric_line_raises
        {L : Libs} pose quadric calibration color alpha img g
        pre failing post partly_drawn :
  generate_uv_spherical quadric pose calibration 10 10 = Some g ->
  map (rounded_segment g (CV2Drawing.bgr color))
      (row_edges 10 10 ++ col_edges 10 10)
  = pre ++ failing :: post ->
  run pre img = (partly_drawn, Some tt) ->
  snd (perform failing partly_drawn) = None ->
  CV2Drawing.quadric pose quadric calibration color alpha img
  = (partly_drawn, None).
Proof.
  intros Hg Hcalls Hpre Hfail.
  rewrite (quadric_run _ _ _ _ _ _ Hg), Hcalls.
  unfold bind. rewrite run_app. unfold bind.
  rewrite Hpre. unfold run. simpl for_each. unfold bind.
  destruct failing as [p q c t l|p r c t l];
    unfold perform, CV2Drawing.line, CV2Drawing.circle, primitive in *;
    [destruct (cv2_line _ _ _ _ _ _)|destruct (cv2_circle _ _ _ _ _ _)];
    simpl in Hfail; try discriminate; reflexivity.
Qed.

Lemma generated_grid_pole_strict :
  generate_uv_spherical (L := Strict.libs) (Examples.sphere (-1))
    Ref.identity_pose Examples.cal 10 10 = Some Inputs.grid_pole.
Proof. vm_compute. reflexivity. Defined.

Lemma quadric_line_raises_witness :
  CV2Drawing.quadric (L := Strict.libs) Ref.identity_pose
    (Examples.sphere (-1)) Examples.cal Examples.red Inputs.half Ref.Blank
  = (Ref.Blank, None).
Proof.
  apply (@quadric_line_raises Strict.libs Ref.identity_pose
           (Examples.sphere (-1)) Examples.cal Examples.red Inputs.half
           Ref.Blank Inputs.grid_pole []
           (LineTo (F64.int64_min, F64.int64_min) (-2516, 240)%Z
                   (0, 0, 255)%Z 1 LINE_AA)
           (tl (map (rounded_segment Inputs.grid_pole
                       (CV2Drawing.bgr Examples.red))
                    (row_edges 10 10 ++ col_edges 10 10)))
           Ref.Blank generated_grid_pole_strict).
  - vm_compute. reflexivity.
  - reflexivity.
  - vm_compute. reflexivity.
Defined.

(** ** bounds_3D: all or nothing *)

(** The two ways out of [bounds_3D]. *)
Lemma bounds_3D_cases
        {L : Libs} box3D pose calibration color img :
  (CV2Drawing.bounds_3D box3D pose calibration color img = (img, Some tt)
   \/ CV2Drawing.bounds_3D box3D pose calibration color img
      = run (box_calls box3D pose calibration color) img)
  /\ length (box_calls box3D pose calibration color) = 20
  /\ length (filter (fun c => negb (is_line c))
                    (box_calls box3D pose calibration color)) = 8.
Proof.
  split.
  - destruct (existsb (fun point =>
                F64.ltb (CV2Drawing.depth pose point) F64.zero)
                (CV2Drawing.corners box3D)) eqn:Ebehind.
    + left. apply existsb_exists in Ebehind.
      destruct Ebehind as [point [Hin Hlt]].
      eapply bounds_3D_culled; eassumption.
    + destruct (forallb (forallb finite)
                  (CV2Drawing.project_corners pose calibration
                     (CV2Drawing.corners box3D))) eqn:Efin.
      * right. apply bounds_3D_draws.
        -- intros point Hin.
           destruct (F64.ltb (CV2Drawing.depth pose point) F64.zero) eqn:E;
             [|reflexivity].
           assert (existsb (fun point =>
                     F64.ltb (CV2Drawing.depth pose point) F64.zero)
                     (CV2Drawing.corners box3D) = true)
             by (apply existsb_exists; exists point; split; assumption).
           congruence.
        -- intros row c Hrow Hc.
           rewrite forallb_forall in Efin. specialize (Efin row Hrow).
           rewrite forallb_forall in Efin. exact (Efin c Hc).
      * left.
        assert (Hex : exists row, In row (CV2Drawing.project_corners pose
                        calibration (CV2Drawing.corners box3D))
                      /\ forallb finite row = false).
        { clear - Efin.
          induction (CV2Drawing.project_corners pose calibration
                       (CV2Drawing.corners box3D)) as [|r rs IH];
            [discriminate|].
          simpl in Efin. apply andb_false_iff in Efin.
          destruct Efin as [E|E].
          - exists r. split; [left; reflexivity|exact E].
          - destruct (IH E) as [row [Hin Hrow]]. exists row.
            split; [right; exact Hin|exact Hrow]. }
        destruct Hex as [row [Hrow Hnf]].
        assert (Hc : exists c, In c row /\ finite c = false).
        { clear - Hnf. induction row as [|c cs IH]; [discriminate|].
          simpl in Hnf. apply andb_false_iff in Hnf. destruct Hnf as [E|E].
          - exists c. split; [left; reflexivity|exact E].
          - destruct (IH E) as [c' [Hin Hc']]. exists c'.
            split; [right; exact Hin|exact Hc']. }
        destruct Hc as [c [Hc Hcf]].
        eapply bounds_3D_guard; eassumption.
  - unfold box_calls, corner_calls, edge_calls.
    rewrite length_app, !length_map, project_corners_length.
    split; [reflexivity|].
    rewrite filter_app, length_app.
    set (pts := CV2Drawing.project_corners pose calibration
                  (CV2Drawing.corners box3D)).
    assert (H1 : forall l : mat,
               length (filter (fun c => negb (is_line c))
                         (map (fun point =>
                            CircleAt (CV2Drawing.pixel point) 1 (0, 0, 255)%Z
                                     (-1) LINE_AA) l)) = length l)
      by (induction l as [|a l IH]; simpl; [reflexivity|now rewrite IH]).
    rewrite H1. unfold pts. rewrite project_corners_length. reflexivity.
Qed.

(** ** binary64: validity of sums, order and truncation *)
Section FloatOrder.

Local Open Scope Z_scope.


Lemma shr_1_m mrs : 0 <= shr_m mrs -> shr_m (shr_1 mrs) = shr_m mrs / 2.
Proof.
  destruct mrs as [m r s]. simpl. intro Hm.
  destruct m as [|[p|p|]|p]; simpl; try reflexivity; try lia.
  - rewrite Pos2Z.inj_xI. apply Z.div_unique with (r := 1); lia.
  - rewrite Pos2Z.inj_xO. apply Z.div_unique with (r := 0); lia.
Qed.

Lemma iter_shr_m k mrs :
  0 <= shr_m mrs ->
  shr_m (iter_pos shr_1 k mrs) = shr_m mrs / 2 ^ Zpos k.
Proof.
  revert mrs. induction k as [k IH|k IH|]; intros mrs Hm; simpl iter_pos.
  - assert (H1 : 0 <= shr_m (shr_1 mrs))
      by (rewrite shr_1_m by exact Hm; apply Z.div_pos; lia).
    assert (H2 : 0 <= shr_m (iter_pos shr_1 k (shr_1 mrs)))
      by (rewrite IH by exact H1; apply Z.div_pos; [exact H1|apply Z.pow_pos_nonneg; lia]).
    rewrite IH by exact H2. rewrite IH by exact H1. rewrite shr_1_m by exact Hm.
    rewrite !Z.div_div by (try apply Z.pow_pos_nonneg; lia).
    f_equal.
    assert (E : 2 ^ Zpos k~1 = 2 * (2 ^ Zpos k * 2 ^ Zpos k)).
    { rewrite <- Z.pow_add_r, <- Z.pow_succ_r by lia. f_equal. lia. }
    rewrite E. ring.
  - assert (H1 : 0 <= shr_m (iter_pos shr_1 k mrs))
      by (rewrite IH by exact Hm; apply Z.div_pos; [exact Hm|apply Z.pow_pos_nonneg; lia]).
    rewrite IH by exact H1. rewrite IH by exact Hm.
    rewrite !Z.div_div by (try apply Z.pow_pos_nonneg; lia).
    f_equal.
    assert (E : 2 ^ Zpos k~0 = 2 ^ Zpos k * 2 ^ Zpos k).
    { rewrite <- Z.pow_add_r by lia. f_equal. lia. }
    rewrite E. ring.
  - rewrite shr_1_m by exact Hm. reflexivity.
Qed.

Lemma shr_spec mrs e k :
  0 <= k -> 0 <= shr_m mrs ->
  shr_m (fst (shr mrs e k)) = shr_m mrs / 2 ^ k /\ snd (shr mrs e k) = e + k.
Proof.
  intros Hk Hm. destruct k as [|p|p]; try lia; simpl.
  - rewrite Z.div_1_r. lia.
  - split; [apply iter_shr_m; exact Hm|reflexivity].
Qed.

Lemma Zdigits2_pos_bounds m :
  0 < m -> 2 ^ (Zdigits2 m - 1) <= m < 2 ^ Zdigits2 m.
Proof. destruct m as [|p|p]; try lia. intros _. apply digits2_bounds. Qed.

Lemma Zdigits2_unique m d :
  2 ^ (d - 1) <= m < 2 ^ d -> 0 < m -> Zdigits2 m = d.
Proof.
  destruct m as [|p|p]; try lia. intros H _. simpl. apply digits2_unique. exact H.
Qed.

Lemma Zdigits2_nonneg m : 0 <= Zdigits2 m.
Proof. destruct m; simpl; lia. Qed.

(** Digits of a quotient by a power of two. *)
Lemma Zdigits2_shift m k :
  0 < m -> 0 <= k ->
  (k < Zdigits2 m -> Zdigits2 (m / 2 ^ k) = Zdigits2 m - k /\ 0 < m / 2 ^ k)
  /\ (Zdigits2 m <= k -> m / 2 ^ k = 0).
Proof.
  intros Hm Hk. pose proof (@Zdigits2_pos_bounds m Hm) as [Hlo Hhi].
  set (d := Zdigits2 m) in *.
  assert (Hpk : 0 < 2 ^ k) by (apply Z.pow_pos_nonneg; lia).
  split.
  - intro Hlt.
    assert (E1 : 2 ^ (d - 1) = 2 ^ (d - k - 1) * 2 ^ k)
      by (rewrite <- Z.pow_add_r by lia; f_equal; lia).
    assert (E2 : 2 ^ d = 2 ^ (d - k) * 2 ^ k)
      by (rewrite <- Z.pow_add_r by lia; f_equal; lia).
    assert (Hq1 : 2 ^ (d - k - 1) <= m / 2 ^ k)
      by (apply Z.div_le_lower_bound; [exact Hpk|rewrite Z.mul_comm; lia]).
    assert (Hq2 : m / 2 ^ k < 2 ^ (d - k))
      by (apply Z.div_lt_upper_bound; [exact Hpk|rewrite Z.mul_comm; lia]).
    assert (0 < 2 ^ (d - k - 1)) by (apply Z.pow_pos_nonneg; lia).
    split; [|lia]. apply Zdigits2_unique; [|lia].
    replace (d - k - 1) with (d - k - 1) by lia. split; [|exact Hq2].
    replace (d - k - 1) with (d - k - 1) by lia. exact Hq1.
  - intro Hge. apply Z.div_small. split; [lia|].
    assert (2 ^ d <= 2 ^ k) by (apply Z.pow_le_mono_r; lia). lia.
Qed.

Lemma fexp_eq x : fexp 53 1024 x = Z.max (x - 53) (-1074).
Proof. reflexivity. Qed.

Lemma shr_any mrs e k :
  0 <= shr_m mrs ->
  shr_m (fst (shr mrs e k)) = shr_m mrs / 2 ^ Z.max 0 k
  /\ snd (shr mrs e k) = e + Z.max 0 k.
Proof.
  intro Hm. destruct k as [|p|p]; simpl.
  - rewrite Z.div_1_r. lia.
  - split; [apply iter_shr_m; exact Hm|reflexivity].
  - rewrite Z.div_1_r. lia.
Qed.

Lemma shr_record_of_loc_m m l : shr_m (shr_record_of_loc m l) = m.
Proof. destruct l as [|[]]; reflexivity. Qed.

Lemma Zdigits2_succ m :
  0 < m ->
  Zdigits2 (m + 1) = Zdigits2 m \/ Zdigits2 (m + 1) = Zdigits2 m + 1.
Proof.
  intro Hm. pose proof (@Zdigits2_pos_bounds m Hm) as [Hlo Hhi].
  pose proof (Zdigits2_nonneg m) as Hd.
  destruct (Z.eq_dec (m + 1) (2 ^ Zdigits2 m)) as [E|E].
  - right. apply Zdigits2_unique; [|lia].
    replace (Zdigits2 m + 1 - 1) with (Zdigits2 m) by lia.
    split; [lia|].
    replace (Zdigits2 m + 1) with (Z.succ (Zdigits2 m)) by lia.
    rewrite Z.pow_succ_r by lia. lia.
  - left. apply Zdigits2_unique; lia.
Qed.

(** The second half of [binary_round_aux] yields a valid float as soon
    as the exponent is that of the mantissa, or one less. *)
Lemma renormalize_valid s m2 e' :
  0 <= m2 -> -1074 <= e' ->
  (0 < m2 -> fexp 53 1024 (Zdigits2 m2 + e') = e'
             \/ fexp 53 1024 (Zdigits2 m2 + e') = e' + 1) ->
  valid_binary 53 1024
    (let '(mrs, e'') := shr_fexp 53 1024 m2 e' loc_Exact in
     match shr_m mrs with
     | Z0 => S754_zero s
     | Zpos m => if e'' <=? 1024 - 53 then S754_finite s m e''
                 else S754_infinity s
     | Zneg _ => S754_nan
     end) = true.
Proof.
  intros Hm He Hcases. unfold shr_fexp.
  set (k2 := fexp 53 1024 (Zdigits2 m2 + e') - e').
  pose proof (@shr_any (shr_record_of_loc m2 loc_Exact) e' k2) as Hs.
  rewrite shr_record_of_loc_m in Hs. specialize (Hs Hm).
  destruct (shr (shr_record_of_loc m2 loc_Exact) e' k2) as [mrs e''].
  simpl fst in Hs. simpl snd in Hs. destruct Hs as [Hm3 He3].
  destruct (shr_m mrs) as [|m3|m3] eqn:Em3; try reflexivity.
  destruct (e'' <=? 1024 - 53) eqn:Ele; [|reflexivity].
  unfold valid_binary, bounded. rewrite Ele, andb_true_r.
  unfold canonical_mantissa. apply Z.eqb_eq.
  change (Zpos (digits2_pos m3)) with (Zdigits2 (Zpos m3)).
  assert (Hm2 : 0 < m2).
  { destruct (Z.eq_dec m2 0) as [->|]; [|lia].
    rewrite Z.div_0_l in Hm3 by (apply Z.pow_nonzero; lia). lia. }
  destruct (Hcases Hm2) as [Hc|Hc].
  - assert (k2 = 0) by (unfold k2; lia).
    replace (Z.max 0 k2) with 0 in * by lia.
    rewrite Z.div_1_r in Hm3. rewrite Hm3, He3, Z.add_0_r. exact Hc.
  - assert (k2 = 1) by (unfold k2; lia).
    replace (Z.max 0 k2) with 1 in * by lia.
    rewrite fexp_eq in Hc.
    assert (Hd2 : Zdigits2 m2 = 54) by lia.
    destruct (@Zdigits2_shift m2 1 Hm2 ltac:(lia)) as [Hsh _].
    destruct (Hsh ltac:(lia)) as [Hd3 _].
    rewrite Hm3, He3, Hd3, fexp_eq. lia.
Qed.

Lemma round_aux_valid s mx ex lx :
  0 <= mx -> ex <= fexp 53 1024 (Zdigits2 mx + ex) ->
  valid_binary 53 1024 (binary_round_aux 53 1024 s mx ex lx) = true.
Proof.
  intros Hmx Hex. unfold binary_round_aux, shr_fexp at 1.
  set (k := fexp 53 1024 (Zdigits2 mx + ex) - ex).
  pose proof (@shr_any (shr_record_of_loc mx lx) ex k) as Hs.
  rewrite shr_record_of_loc_m in Hs. specialize (Hs Hmx).
  destruct (shr (shr_record_of_loc mx lx) ex k) as [mrs' e'].
  simpl fst in Hs. simpl snd in Hs. destruct Hs as [Hm' He'].
  replace (Z.max 0 k) with k in * by (unfold k; lia).
  assert (Hpk : 0 < 2 ^ k) by (apply Z.pow_pos_nonneg; unfold k; lia).
  assert (Hm'0 : 0 <= shr_m mrs') by (rewrite Hm'; apply Z.div_pos; lia).
  assert (He'lo : -1074 <= e') by (rewrite He'; unfold k; rewrite fexp_eq; lia).
  assert (HA : shr_m mrs' = 0 /\ e' = -1074
               \/ 0 < shr_m mrs'
                  /\ fexp 53 1024 (Zdigits2 (shr_m mrs') + e') = e').
  { destruct (Z.eq_dec mx 0) as [E0|E0].
    - left. subst mx. rewrite Z.div_0_l in Hm' by lia. split; [exact Hm'|].
      unfold k in *. change (Zdigits2 0) with 0 in *.
      rewrite fexp_eq in He', Hex. lia.
    - destruct (@Zdigits2_shift mx k ltac:(lia) ltac:(unfold k; lia))
        as [Hlt Hge].
      destruct (Z.lt_ge_cases k (Zdigits2 mx)) as [Hk|Hk].
      + right. destruct (Hlt Hk) as [Hd Hpos]. rewrite Hm'.
        split; [exact Hpos|]. rewrite Hd, He'.
        replace (Zdigits2 mx - k + (ex + k)) with (Zdigits2 mx + ex) by lia.
        unfold k. lia.
      + left. rewrite Hm'. split; [apply Hge; exact Hk|].
        rewrite He'. unfold k in *. rewrite fexp_eq in *. lia. }
  set (m2 := round_nearest_even (shr_m mrs') (loc_of_shr_record mrs')).
  assert (Hm2 : m2 = shr_m mrs' \/ m2 = shr_m mrs' + 1)
    by apply round_nearest_even_cases.
  apply renormalize_valid; [lia|exact He'lo|].
  intro Hpos. rewrite !fexp_eq.
  destruct HA as [[H0 He0]|[Hp Hc]].
  - assert (m2 = 1) by lia.
    replace m2 with 1 by lia. simpl Zdigits2. lia.
  - rewrite fexp_eq in Hc. destruct Hm2 as [-> | ->]; [lia|].
    destruct (@Zdigits2_succ (shr_m mrs') Hp) as [-> | ->]; lia.
Qed.

Lemma digits2_iter_xO m d :
  Zpos (digits2_pos (Pos.iter xO m d)) = Zpos (digits2_pos m) + Zpos d.
Proof.
  apply digits2_unique. rewrite iter_xO.
  pose proof (digits2_bounds m) as [Hlo Hhi].
  assert (Hp : 0 < 2 ^ Zpos d) by (apply Z.pow_pos_nonneg; lia).
  replace (Zpos (digits2_pos m) + Zpos d - 1)
    with (Zpos (digits2_pos m) - 1 + Zpos d) by lia.
  rewrite !Z.pow_add_r by lia. nia.
Qed.

Lemma binary_round_valid s m e :
  valid_binary 53 1024 (binary_round 53 1024 s m e) = true.
Proof.
  unfold binary_round, shl_align.
  set (ex' := fexp 53 1024 (Zpos (digits2_pos m) + e)).
  destruct (ex' - e) as [|d|d] eqn:Ed.
  - apply round_aux_valid; [lia|]. simpl Zdigits2. fold ex'. lia.
  - apply round_aux_valid; [lia|]. simpl Zdigits2. fold ex'. lia.
  - apply round_aux_valid; [lia|]. simpl Zdigits2.
    rewrite digits2_iter_xO.
    replace (Zpos (digits2_pos m) + Zpos d + ex')
      with (Zpos (digits2_pos m) + e) by lia.
    fold ex'. lia.
Qed.

Lemma binary_normalize_valid m e szero :
  valid_binary 53 1024 (binary_normalize 53 1024 m e szero) = true.
Proof. destruct m; simpl; [reflexivity|apply binary_round_valid..]. Qed.

Lemma of_Z_valid z : F64.valid (F64.of_Z z) = true.
Proof. apply binary_normalize_valid. Qed.

Lemma add_valid x y :
  F64.valid x = true -> F64.valid y = true -> F64.valid (F64.add x y) = true.
Proof.
  intros Hx Hy. unfold F64.valid, F64.add in *.
  destruct x as [sx|sx| |sx mx ex], y as [sy|sy| |sy my ey];
    try reflexivity; try assumption;
    try (destruct sx, sy; reflexivity).
  apply binary_normalize_valid.
Qed.

Lemma sub_valid x y :
  F64.valid x = true -> F64.valid y = true -> F64.valid (F64.sub x y) = true.
Proof.
  intros Hx Hy. unfold F64.valid, F64.sub in *.
  destruct x as [sx|sx| |sx mx ex], y as [sy|sy| |sy my ey];
    try reflexivity; try assumption;
    try (destruct sx, sy; reflexivity).
  apply binary_normalize_valid.
Qed.

Lemma valid_canonical s m e :
  F64.valid (S754_finite s m e) = true ->
  -1074 <= e <= 971 /\ Zpos m < 2 ^ 53 /\ (-1074 < e -> 2 ^ 52 <= Zpos m).
Proof.
  unfold F64.valid, valid_binary, bounded, canonical_mantissa.
  change F64.prec with 53. change F64.emax with 1024. rewrite fexp_eq.
  intro H. apply andb_true_iff in H. destruct H as [Hc He].
  apply Z.eqb_eq in Hc. apply Z.leb_le in He.
  pose proof (digits2_bounds m) as [Hlo Hhi].
  assert (Hd : Zpos (digits2_pos m) <= 53) by lia.
  split; [lia|]. split.
  - assert (2 ^ Zpos (digits2_pos m) <= 2 ^ 53) by (apply Z.pow_le_mono_r; lia).
    lia.
  - intro Hn. assert (Zpos (digits2_pos m) = 53) by lia.
    replace (2 ^ 52) with (2 ^ (Zpos (digits2_pos m) - 1))
      by (f_equal; lia). exact Hlo.
Qed.

Lemma scaled_pos_lt m1 e1 m2 e2 :
  F64.valid (S754_finite false m1 e1) = true ->
  F64.valid (S754_finite false m2 e2) = true ->
  e1 < e2 ->
  Zpos m1 * 2 ^ (e1 + 1074) < Zpos m2 * 2 ^ (e2 + 1074).
Proof.
  intros H1 H2 Hlt.
  destruct (@valid_canonical _ _ _ H1) as [He1 [Hm1 _]].
  destruct (@valid_canonical _ _ _ H2) as [He2 [_ Hm2]].
  specialize (Hm2 ltac:(lia)).
  assert (Hp : 0 < 2 ^ (e1 + 1074)) by (apply Z.pow_pos_nonneg; lia).
  assert (E : 2 ^ (e2 + 1074) = 2 ^ (e1 + 1074) * 2 ^ (e2 - e1))
    by (rewrite <- Z.pow_add_r by lia; f_equal; lia).
  assert (H2' : 2 ^ 1 <= 2 ^ (e2 - e1)) by (apply Z.pow_le_mono_r; lia).
  change (2 ^ 1) with 2 in H2'. change (2 ^ 53) with (2 * 2 ^ 52) in Hm1.
  rewrite E. set (a := 2 ^ 52) in *. nia.
Qed.

Lemma compare_mul_pos a b c : 0 < c -> (a * c ?= b * c) = (a ?= b).
Proof.
  intro Hc. destruct (Z.compare_spec a b) as [E|E|E].
  - subst. apply Z.compare_refl.
  - apply Z.compare_lt_iff. nia.
  - apply Z.compare_gt_iff. nia.
Qed.

Lemma compare_pos m1 e1 m2 e2 :
  F64.valid (S754_finite false m1 e1) = true ->
  F64.valid (S754_finite false m2 e2) = true ->
  match e1 ?= e2 with
  | Lt => Lt
  | Gt => Gt
  | Eq => Pos.compare_cont Eq m1 m2
  end
  = (Zpos m1 * 2 ^ (e1 + 1074) ?= Zpos m2 * 2 ^ (e2 + 1074)).
Proof.
  intros H1 H2. destruct (Z.compare_spec e1 e2) as [E|E|E].
  - subst e2.
    destruct (@valid_canonical _ _ _ H1) as [He1 _].
    assert (Hp : 0 < 2 ^ (e1 + 1074)) by (apply Z.pow_pos_nonneg; lia).
    change (Pos.compare_cont Eq m1 m2) with (Zpos m1 ?= Zpos m2).
    symmetry. apply compare_mul_pos. exact Hp.
  - symmetry. apply Z.compare_lt_iff. apply scaled_pos_lt; assumption.
  - symmetry. apply Z.compare_gt_iff. apply scaled_pos_lt; assumption.
Qed.

Lemma scaled_finite s m e :
  F64.valid (S754_finite s m e) = true ->
  scaled (S754_finite s m e) = cond_Zopp s (Zpos m * 2 ^ (e + 1074))
  /\ 0 < Zpos m * 2 ^ (e + 1074).
Proof.
  intro H. destruct (@valid_canonical _ _ _ H) as [He _].
  split; [reflexivity|].
  assert (0 < 2 ^ (e + 1074)) by (apply Z.pow_pos_nonneg; lia). nia.
Qed.

(** On valid numbers the comparison of floats is that of their values. *)
Lemma compare_scaled x y :
  F64.valid x = true -> F64.valid y = true ->
  is_number x = true -> is_number y = true ->
  SFcompare x y = Some (scaled x ?= scaled y).
Proof.
  intros Hx Hy Nx Ny.
  destruct x as [sx|sx| |sx mx ex], y as [sy|sy| |sy my ey];
    try discriminate.
  - reflexivity.
  - destruct (@scaled_finite _ _ _ Hy) as [-> Hp].
    change (SFcompare (S754_zero sx) (S754_finite sy my ey))
      with (Some (if sy then Gt else Lt)).
    change (scaled (S754_zero sx)) with 0.
    f_equal. symmetry.
    destruct sy; unfold cond_Zopp;
      [apply Z.compare_gt_iff|apply Z.compare_lt_iff]; lia.
  - destruct (@scaled_finite _ _ _ Hx) as [-> Hp].
    change (SFcompare (S754_finite sx mx ex) (S754_zero sy))
      with (Some (if sx then Lt else Gt)).
    change (scaled (S754_zero sy)) with 0.
    f_equal. symmetry.
    destruct sx; unfold cond_Zopp;
      [apply Z.compare_lt_iff|apply Z.compare_gt_iff]; lia.
  - assert (Hx' : F64.valid (S754_finite false mx ex) = true) by exact Hx.
    assert (Hy' : F64.valid (S754_finite false my ey) = true) by exact Hy.
    destruct (@scaled_finite _ _ _ Hx) as [-> Hpx].
    destruct (@scaled_finite _ _ _ Hy) as [-> Hpy].
    pose proof (@compare_pos _ _ _ _ Hx' Hy') as Hc.
    destruct sx, sy; unfold SFcompare, cond_Zopp; f_equal.
    + transitivity (CompOpp (match ex ?= ey with
                             | Eq => Pos.compare_cont Eq mx my
                             | Lt => Lt
                             | Gt => Gt
                             end)); [destruct (ex ?= ey); reflexivity|].
      rewrite Hc, <- Z.compare_antisym. symmetry. apply Z.compare_opp.
    + symmetry. apply Z.compare_lt_iff. lia.
    + symmetry. apply Z.compare_gt_iff. lia.
    + exact Hc.
Qed.

Lemma trunc_scaled x :
  F64.valid x = true -> is_number x = true ->
  F64.trunc x = Some (Z.quot (scaled x) (2 ^ 1074)).
Proof.
  intros Hv Hn. destruct x as [s|s| |s m e]; try discriminate.
  - reflexivity.
  - destruct (@valid_canonical _ _ _ Hv) as [He _].
    unfold F64.trunc, scaled. f_equal.
    assert (HK : 0 < 2 ^ 1074) by (apply Z.pow_pos_nonneg; lia).
    assert (Hq : (if 0 <=? e then Z.shiftl (Zpos m) e
                  else Z.shiftr (Zpos m) (- e))
                 = Z.quot (Zpos m * 2 ^ (e + 1074)) (2 ^ 1074)).
    { assert (Hp : 0 < 2 ^ (e + 1074)) by (apply Z.pow_pos_nonneg; lia).
      rewrite Z.quot_div_nonneg by nia.
      destruct (0 <=? e) eqn:E; [apply Z.leb_le in E|apply Z.leb_gt in E].
      - rewrite Z.shiftl_mul_pow2 by lia.
        rewrite Z.pow_add_r by lia. rewrite Z.mul_assoc.
        symmetry. apply Z.div_mul. lia.
      - rewrite Z.shiftr_div_pow2 by lia.
        replace (2 ^ 1074) with (2 ^ (- e) * 2 ^ (e + 1074))
          by (rewrite <- Z.pow_add_r by lia; f_equal; lia).
        symmetry. apply Z.div_mul_cancel_r; lia. }
    rewrite Hq. destruct s; unfold cond_Zopp; [|reflexivity].
    symmetry. apply Z.quot_opp_l. lia.
Qed.

Lemma scaled_of_Z z :
  Z.abs z < 2 ^ 53 ->
  is_number (F64.of_Z z) = true /\ scaled (F64.of_Z z) = z * 2 ^ 1074.
Proof.
  intro Hz. unfold F64.of_Z, binary_normalize.
  change F64.prec with 53. change F64.emax with 1024.
  assert (Hpow : forall p e, -52 <= e <= 0 ->
             Zpos p * 2 ^ (- e) * 2 ^ (e + 1074) = Zpos p * 2 ^ 1074).
  { intros p e He. rewrite <- Z.mul_assoc, <- Z.pow_add_r by lia.
    do 2 f_equal. lia. }
  destruct z as [|p|p].
  - split; reflexivity.
  - destruct (@of_pos_exact false p ltac:(lia)) as [m [e [-> [He [Hm _]]]]].
    split; [reflexivity|]. unfold scaled, cond_Zopp. rewrite Hm.
    apply Hpow. exact He.
  - destruct (@of_pos_exact true p ltac:(lia)) as [m [e [-> [He [Hm _]]]]].
    split; [reflexivity|]. unfold scaled, cond_Zopp. rewrite Hm.
    rewrite Hpow by exact He. lia.
Qed.

Lemma ltb_scaled x y :
  F64.valid x = true -> F64.valid y = true ->
  is_number x = true -> is_number y = true ->
  F64.ltb x y = (scaled x <? scaled y).
Proof.
  intros Hx Hy Nx Ny. unfold F64.ltb, SFltb.
  rewrite (@compare_scaled _ _ Hx Hy Nx Ny). unfold Z.ltb.
  destruct (scaled x ?= scaled y); reflexivity.
Qed.

Lemma clip_between x lo hi :
  F64.valid x = true -> F64.isnan x = false ->
  lo <= hi -> Z.abs lo < 2 ^ 53 -> Z.abs hi < 2 ^ 53 ->
  exists z, F64.trunc (npy.clip_float x (F64.of_Z lo) (F64.of_Z hi)) = Some z
            /\ lo <= z <= hi
            /\ (is_number x = true ->
                z = Z.quot (Z.min (Z.max (scaled x) (lo * 2 ^ 1074))
                                  (hi * 2 ^ 1074)) (2 ^ 1074)).
Proof.
  intros Hx Hnan Hle Hlo Hhi.
  destruct (@scaled_of_Z lo Hlo) as [NL SL].
  destruct (@scaled_of_Z hi Hhi) as [NH SH].
  pose proof (of_Z_valid lo) as VL. pose proof (of_Z_valid hi) as VH.
  set (L := F64.of_Z lo) in *. set (H := F64.of_Z hi) in *.
  assert (HK : 0 < 2 ^ 1074) by (apply Z.pow_pos_nonneg; lia).
  assert (Hfin : forall r, F64.valid r = true -> is_number r = true ->
             lo * 2 ^ 1074 <= scaled r <= hi * 2 ^ 1074 ->
             exists z, F64.trunc r = Some z /\ lo <= z <= hi
                       /\ z = Z.quot (scaled r) (2 ^ 1074)).
  { intros r Vr Nr [H1 H2]. exists (Z.quot (scaled r) (2 ^ 1074)).
    split; [apply trunc_scaled; assumption|]. split; [|reflexivity]. split.
    - rewrite <- (Z.quot_mul lo (2 ^ 1074)) by lia.
      apply Z.quot_le_mono; lia.
    - rewrite <- (Z.quot_mul hi (2 ^ 1074)) by lia.
      apply Z.quot_le_mono; lia. }
  assert (HL : exists z, F64.trunc L = Some z /\ lo <= z <= hi
                         /\ z = Z.quot (scaled L) (2 ^ 1074))
    by (apply Hfin; try assumption; rewrite SL; nia).
  assert (HH : exists z, F64.trunc H = Some z /\ lo <= z <= hi
                         /\ z = Z.quot (scaled H) (2 ^ 1074))
    by (apply Hfin; try assumption; rewrite SH; nia).
  assert (LH : F64.ltb L H = (lo * 2 ^ 1074 <? hi * 2 ^ 1074))
    by (rewrite ltb_scaled, SL, SH by assumption; reflexivity).
  unfold npy.clip_float, npy.max, npy.min. rewrite Hnan. simpl orb.
  destruct x as [s|[|]| |s m e]; try discriminate.
  - (* zero *)
    rewrite (@ltb_scaled L (S754_zero s)) by (assumption || reflexivity).
    destruct (scaled L <? scaled (S754_zero s)) eqn:E1;
      [apply Z.ltb_lt in E1|apply Z.ltb_ge in E1].
    + change (F64.isnan (S754_zero s)) with false. simpl orb.
      rewrite (@ltb_scaled (S754_zero s) H) by (assumption || reflexivity).
      destruct (scaled (S754_zero s) <? scaled H) eqn:E2;
        [apply Z.ltb_lt in E2|apply Z.ltb_ge in E2].
      * destruct (Hfin (S754_zero s) Hx eq_refl ltac:(lia)) as [z [T [B Q]]].
        exists z. repeat split; try assumption; try lia.
        intros _. rewrite Q. f_equal. lia.
      * destruct HH as [z [T [B Q]]]. exists z.
        repeat split; try assumption; try lia.
        intros _. rewrite Q. f_equal. lia.
    + replace (F64.isnan L) with false by (destruct L; try discriminate; reflexivity).
      simpl orb. rewrite LH.
      destruct (lo * 2 ^ 1074 <? hi * 2 ^ 1074) eqn:E2;
        [apply Z.ltb_lt in E2|apply Z.ltb_ge in E2].
      * destruct HL as [z [T [B Q]]]. exists z.
        repeat split; try assumption; try lia.
        intros _. rewrite Q. f_equal. lia.
      * destruct HH as [z [T [B Q]]]. exists z.
        repeat split; try assumption; try lia.
        intros _. rewrite Q. f_equal. lia.
  - (* -inf *)
    replace (F64.ltb L (S754_infinity true)) with false
      by (destruct L; try discriminate; reflexivity).
    replace (F64.isnan L) with false by (destruct L; try discriminate; reflexivity).
    simpl orb. rewrite LH.
    destruct (lo * 2 ^ 1074 <? hi * 2 ^ 1074) eqn:E2.
    + destruct HL as [z [T [B Q]]]. exists z.
      repeat split; try assumption; try lia. discriminate.
    + destruct HH as [z [T [B Q]]]. exists z.
      repeat split; try assumption; try lia. discriminate.
  - (* +inf *)
    replace (F64.ltb L (S754_infinity false)) with true
      by (destruct L; try discriminate; reflexivity).
    change (F64.isnan (S754_infinity false)) with false. simpl orb.
    replace (F64.ltb (S754_infinity false) H) with false
      by (destruct H; try discriminate; reflexivity).
    destruct HH as [z [T [B Q]]]. exists z.
    repeat split; try assumption; try lia. discriminate.
  - (* finite *)
    rewrite (@ltb_scaled L (S754_finite s m e)) by (assumption || reflexivity).
    destruct (scaled L <? scaled (S754_finite s m e)) eqn:E1;
      [apply Z.ltb_lt in E1|apply Z.ltb_ge in E1].
    + change (F64.isnan (S754_finite s m e)) with false. simpl orb.
      rewrite (@ltb_scaled (S754_finite s m e) H) by (assumption || reflexivity).
      destruct (scaled (S754_finite s m e) <? scaled H) eqn:E2;
        [apply Z.ltb_lt in E2|apply Z.ltb_ge in E2].
      * destruct (Hfin (S754_finite s m e) Hx eq_refl ltac:(lia))
          as [z [T [B Q]]].
        exists z. repeat split; try assumption; try lia.
        intros _. rewrite Q. f_equal. lia.
      * destruct HH as [z [T [B Q]]]. exists z.
        repeat split; try assumption; try lia.
        intros _. rewrite Q. f_equal. lia.
    + replace (F64.isnan L) with false by (destruct L; try discriminate; reflexivity).
      simpl orb. rewrite LH.
      destruct (lo * 2 ^ 1074 <? hi * 2 ^ 1074) eqn:E2;
        [apply Z.ltb_lt in E2|apply Z.ltb_ge in E2].
      * destruct HL as [z [T [B Q]]]. exists z.
        repeat split; try assumption; try lia.
        intros _. rewrite Q. f_equal. lia.
      * destruct HH as [z [T [B Q]]]. exists z.
        repeat split; try assumption; try lia.
        intros _. rewrite Q. f_equal. lia.
Qed.

End FloatOrder.

(** ** binary64: sums that are numbers *)
Section FloatNumbers.

Local Open Scope Z_scope.

Lemma round_aux_not_nan s mx ex lx :
  0 <= mx -> F64.isnan (binary_round_aux 53 1024 s mx ex lx) = false.
Proof.
  intro Hmx. unfold binary_round_aux, shr_fexp.
  set (k := fexp 53 1024 (Zdigits2 mx + ex) - ex).
  pose proof (@shr_any (shr_record_of_loc mx lx) ex k) as Hs.
  rewrite shr_record_of_loc_m in Hs. specialize (Hs Hmx).
  destruct (shr (shr_record_of_loc mx lx) ex k) as [mrs' e'].
  simpl fst in Hs. destruct Hs as [Hm' _].
  assert (Hm'0 : 0 <= shr_m mrs')
    by (rewrite Hm'; apply Z.div_pos; [lia|apply Z.pow_pos_nonneg; lia]).
  set (m2 := round_nearest_even (shr_m mrs') (loc_of_shr_record mrs')).
  assert (Hm2 : 0 <= m2)
    by (destruct (round_nearest_even_cases (shr_m mrs')
                    (loc_of_shr_record mrs')) as [E|E]; unfold m2; lia).
  set (k2 := fexp 53 1024 (Zdigits2 m2 + e') - e').
  pose proof (@shr_any (shr_record_of_loc m2 loc_Exact) e' k2) as Hs.
  rewrite shr_record_of_loc_m in Hs. specialize (Hs Hm2).
  destruct (shr (shr_record_of_loc m2 loc_Exact) e' k2) as [mrs'' e''].
  simpl fst in Hs. destruct Hs as [Hm3 _].
  assert (Hm3' : 0 <= shr_m mrs'')
    by (rewrite Hm3; apply Z.div_pos; [lia|apply Z.pow_pos_nonneg; lia]).
  destruct (shr_m mrs'') as [|m3|m3]; try reflexivity; [|lia].
  destruct (e'' <=? 1024 - 53); reflexivity.
Qed.

Lemma binary_normalize_not_nan m e szero :
  F64.isnan (binary_normalize 53 1024 m e szero) = false.
Proof.
  destruct m as [|p|p]; [reflexivity| |];
    unfold binary_normalize, binary_round;
    destruct (shl_align _ _ _) as [mz ez]; apply round_aux_not_nan; lia.
Qed.

Lemma add_number x y :
  F64.isnan x = false -> is_number y = true -> F64.isnan (F64.add x y) = false.
Proof.
  intros Hx Hy. unfold F64.add.
  destruct x as [sx|sx| |sx mx ex], y as [sy|sy| |sy my ey];
    try discriminate; try reflexivity;
    try (destruct sx, sy; reflexivity).
  apply binary_normalize_not_nan.
Qed.

Lemma sub_number x y :
  F64.isnan x = false -> is_number y = true -> F64.isnan (F64.sub x y) = false.
Proof.
  intros Hx Hy. unfold F64.sub.
  destruct x as [sx|sx| |sx mx ex], y as [sy|sy| |sy my ey];
    try discriminate; try reflexivity;
    try (destruct sx, sy; reflexivity).
  apply binary_normalize_not_nan.
Qed.

(** A number minus a number is a number whenever it is not an
    overflow; here only: it is valid and not NaN. *)
Lemma trunc_of_Z z : Z.abs z < 2 ^ 53 -> F64.trunc (F64.of_Z z) = Some z.
Proof.
  intro Hz. destruct (@scaled_of_Z z Hz) as [Hn Hs].
  rewrite trunc_scaled by (try apply of_Z_valid; exact Hn).
  rewrite Hs. f_equal. apply Z.quot_mul.
  apply Z.pow_nonzero; lia.
Qed.

Lemma trunc_none x : F64.trunc x = None <-> is_number x = false.
Proof. destruct x; simpl; split; congruence. Qed.

(** [np.clip] with its bounds the wrong way round gives the upper
    one. *)
Lemma clip_inverted x lo hi :
  F64.valid x = true -> F64.isnan x = false ->
  hi < lo -> Z.abs lo < 2 ^ 53 -> Z.abs hi < 2 ^ 53 ->
  F64.trunc (npy.clip_float x (F64.of_Z lo) (F64.of_Z hi)) = Some hi.
Proof.
  intros Hx Hnan Hlt Hlo Hhi.
  destruct (@scaled_of_Z lo Hlo) as [NL SL].
  destruct (@scaled_of_Z hi Hhi) as [NH SH].
  pose proof (of_Z_valid lo) as VL. pose proof (of_Z_valid hi) as VH.
  pose proof (@trunc_of_Z hi Hhi) as TH.
  set (L := F64.of_Z lo) in *. set (H := F64.of_Z hi) in *.
  assert (HK : 0 < 2 ^ 1074) by (apply Z.pow_pos_nonneg; lia).
  assert (LH : F64.ltb L H = false).
  { rewrite ltb_scaled, SL, SH by assumption. apply Z.ltb_ge. nia. }
  assert (NaL : F64.isnan L = false)
    by (destruct L; try discriminate; reflexivity).
  unfold npy.clip_float, npy.max, npy.min. rewrite Hnan. simpl orb.
  destruct x as [s|[|]| |s m e]; try discriminate.
  - rewrite (@ltb_scaled L (S754_zero s)) by (assumption || reflexivity).
    destruct (scaled L <? scaled (S754_zero s)) eqn:E1;
      [apply Z.ltb_lt in E1|apply Z.ltb_ge in E1].
    + change (F64.isnan (S754_zero s)) with false. simpl orb.
      rewrite (@ltb_scaled (S754_zero s) H) by (assumption || reflexivity).
      replace (scaled (S754_zero s) <? scaled H) with false
        by (symmetry; apply Z.ltb_ge; nia).
      exact TH.
    + rewrite NaL, LH. exact TH.
  - replace (F64.ltb L (S754_infinity true)) with false
      by (destruct L; try discriminate; reflexivity).
    rewrite NaL, LH. exact TH.
  - replace (F64.ltb L (S754_infinity false)) with true
      by (destruct L; try discriminate; reflexivity).
    change (F64.isnan (S754_infinity false)) with false. simpl orb.
    replace (F64.ltb (S754_infinity false) H) with false
      by (destruct H; try discriminate; reflexivity).
    exact TH.
  - rewrite (@ltb_scaled L (S754_finite s m e)) by (assumption || reflexivity).
    destruct (scaled L <? scaled (S754_finite s m e)) eqn:E1;
      [apply Z.ltb_lt in E1|apply Z.ltb_ge in E1].
    + change (F64.isnan (S754_finite s m e)) with false. simpl orb.
      rewrite (@ltb_scaled (S754_finite s m e) H) by (assumption || reflexivity).
      replace (scaled (S754_finite s m e) <? scaled H) with false
        by (symmetry; apply Z.ltb_ge; nia).
      exact TH.
    + rewrite NaL, LH. exact TH.
Qed.

End FloatNumbers.

(** * The label methods: box, text, box_and_text *)
Section LabelFacts.

Context {L : Libs} {T : TextLibs}.
Local Open Scope Z_scope.

(** [text], once the place of the label is computed. *)
Lemma text_eq label ll color thickness background background_color margin img :
  let size := cv2_getTextSize label FONT_HERSHEY_SIMPLEX
                (S754_finite false 4503599627370496 (-53)) thickness in
  let text_width := fst (fst size) + margin * 2 in
  let text_height := snd (fst size) + margin * 2 in
  CV2Labels.text label ll color thickness background background_color margin img
  = match CV2Labels.anchor (py.add_int (fst ll) margin,
                            py.sub_int (snd ll) margin)
            text_width text_height
            (snd (image_shape img)) (fst (image_shape img)) with
    | Some org => label_at label org text_width text_height color thickness
                           background background_color margin img
    | None => (img, None)
    end.
Proof.
  intros size text_width text_height.
  unfold CV2Labels.text, CV2Labels.anchor, label_at, bind, CV2Labels.read, lift.
  fold size. fold text_width. fold text_height.
  cbn [fst snd].
  destruct (CV2Labels.clipped (py.sub_int (snd ll) margin) text_height
              (fst (image_shape img))) as [y|]; [|reflexivity].
  unfold ret.
  destruct (CV2Labels.clipped (py.add_int (fst ll) margin) 0
              (snd (image_shape img) - text_width)) as [x|]; reflexivity.
Qed.

Lemma clipped_int z lo hi :
  Z.abs z < 2 ^ 63 -> Z.abs lo < 2 ^ 53 -> Z.abs hi < 2 ^ 53 ->
  CV2Labels.clipped (py.Int z) lo hi = Some (Z.min (Z.max z lo) hi).
Proof.
  intros Hz Hlo Hhi. unfold CV2Labels.clipped, npy.clip, npy.fits_int64.
  unfold F64.int64_min, F64.int64_max.
  assert (H53 : 2 ^ 53 < 2 ^ 63) by (apply Z.pow_lt_mono_r; lia).
  replace ((- 2 ^ 63 <=? z) && (z <=? 2 ^ 63 - 1)) with true
    by (symmetry; apply andb_true_iff; split; apply Z.leb_le; lia).
  replace ((- 2 ^ 63 <=? lo) && (lo <=? 2 ^ 63 - 1)) with true
    by (symmetry; apply andb_true_iff; split; apply Z.leb_le; lia).
  replace ((- 2 ^ 63 <=? hi) && (hi <=? 2 ^ 63 - 1)) with true
    by (symmetry; apply andb_true_iff; split; apply Z.leb_le; lia).
  reflexivity.
Qed.

Lemma shifted_float x k :
  F64.valid x = true -> F64.isnan x = false -> Z.abs k < 2 ^ 53 ->
  (F64.valid (F64.add x (F64.of_Z k)) = true
   /\ F64.isnan (F64.add x (F64.of_Z k)) = false)
  /\ (F64.valid (F64.sub x (F64.of_Z k)) = true
      /\ F64.isnan (F64.sub x (F64.of_Z k)) = false).
Proof.
  intros Hv Hn Hk. destruct (@scaled_of_Z k Hk) as [Nk _].
  repeat split.
  - apply add_valid; [exact Hv|apply of_Z_valid].
  - apply add_number; assumption.
  - apply sub_valid; [exact Hv|apply of_Z_valid].
  - apply sub_number; assumption.
Qed.

(** A placeable coordinate shifted by the margin and clipped lands
    between the bounds; between bounds the wrong way round, on the
    upper one. *)
Lemma clipped_placeable n k lo hi (up : bool) :
  placeable n -> Z.abs k < 2 ^ 53 ->
  Z.abs lo < 2 ^ 53 -> Z.abs hi < 2 ^ 53 ->
  exists z,
    CV2Labels.clipped (if up then py.add_int n k else py.sub_int n k) lo hi
    = Some z
    /\ (lo <= hi -> lo <= z <= hi)
    /\ (hi < lo -> z = hi).
Proof.
  intros Hn Hk Hlo Hhi.
  assert (H62 : 2 ^ 62 + 2 ^ 53 < 2 ^ 63) by (vm_compute; reflexivity).
  destruct n as [z|x]; simpl in Hn.
  - exists (Z.min (Z.max (if up then z + k else z - k) lo) hi).
    split; [|split; lia].
    destruct up; simpl; apply clipped_int; lia.
  - destruct Hn as [Hv Hnan].
    destruct (@shifted_float x k Hv Hnan Hk) as [[Va Na] [Vs Ns]].
    set (x' := if up then F64.add x (F64.of_Z k) else F64.sub x (F64.of_Z k)).
    assert (Hx' : F64.valid x' = true /\ F64.isnan x' = false)
      by (unfold x'; destruct up; split; assumption).
    destruct Hx' as [Vx Nx].
    assert (Hc : CV2Labels.clipped
                   (if up then py.add_int (py.Float x) k
                    else py.sub_int (py.Float x) k) lo hi
                 = F64.trunc (npy.clip_float x' (F64.of_Z lo) (F64.of_Z hi)))
      by (unfold x'; destruct up; reflexivity).
    rewrite Hc.
    destruct (Z.le_gt_cases lo hi) as [Hle|Hgt].
    + destruct (@clip_between x' lo hi Vx Nx Hle Hlo Hhi) as [z [Ht [Hb _]]].
      exists z. split; [exact Ht|]. split; [intros _; exact Hb|lia].
    + exists hi. split; [apply clip_inverted; assumption|]. split; [lia|reflexivity].
Qed.

End LabelFacts.

(** With a NaN for one of its coordinates, [text] raises (the
    ValueError of [int] on NaN) before it draws anything: neither
    background nor text, and the image is untouched. *)
Theorem text_nan_raises
        {L : Libs} {T : TextLibs} label ll color thickness background
        background_color margin img :
  fst ll = py.Float S754_nan \/ snd ll = py.Float S754_nan ->
  CV2Labels.text label ll color thickness background background_color margin img
  = (img, None).
Proof.
  intro Hnan. rewrite text_eq. unfold CV2Labels.anchor.
  destruct Hnan as [E|E]; rewrite E; cbn [fst snd].
  - match goal with
    | |- context [CV2Labels.clipped (py.sub_int ?a ?b) ?c ?d] =>
        destruct (CV2Labels.clipped (py.sub_int a b) c d)
    end; reflexivity.
  - reflexivity.
Qed.

Lemma text_nan_raises_witness :
  CV2Labels.text (T := Sheet.text_libs) Words.cup
    (py.Float S754_nan, py.Int 40) Examples.red 1 true Examples.magenta 3
    (Sheet.Blank 480 640)
  = (Sheet.Blank 480 640, None).
Proof.
  apply (@text_nan_raises Sheet.libs Sheet.text_libs). left. reflexivity.
Defined.

Lemma anchor_placed n1 n2 margin text_width text_height image_width image_height :
  placeable n1 -> placeable n2 -> (Z.abs margin < 2 ^ 53)%Z ->
  (Z.abs text_height < 2 ^ 53)%Z -> (Z.abs image_height < 2 ^ 53)%Z ->
  (Z.abs (image_width - text_width) < 2 ^ 53)%Z ->
  exists x y,
    CV2Labels.anchor (py.add_int n1 margin, py.sub_int n2 margin)
      text_width text_height image_width image_height = Some (x, y)
    /\ ((0 <= image_width - text_width -> 0 <= x <= image_width - text_width)
        /\ (image_width - text_width < 0 -> x = image_width - text_width))%Z
    /\ ((text_height <= image_height -> text_height <= y <= image_height)
        /\ (image_height < text_height -> y = image_height))%Z.
Proof.
  intros P1 P2 Hm Hth Hih Hw.
  assert (H0 : (Z.abs 0 < 2 ^ 53)%Z) by (vm_compute; reflexivity).
  destruct (@clipped_placeable n2 margin text_height image_height false
              P2 Hm Hth Hih) as [y [Ey By]].
  destruct (@clipped_placeable n1 margin 0%Z (image_width - text_width)%Z true
              P1 Hm H0 Hw) as [x [Ex Bx]].
  exists x, y. unfold CV2Labels.anchor. cbn [fst snd].
  cbv beta iota in Ex, Ey. rewrite Ey, Ex.
  split; [reflexivity|]. split; assumption.
Qed.

(** For a label that fits the image, [text] draws it with its lower-left corner
    [(x, y)] such that [0 <= x <= image_width - text_width] and
    [text_height <= y <= image_height], whatever corner was asked
    for: the background (when asked) and then the text, nothing
    else. *)
Theorem text_stays_inside_image
        {L : Libs} {T : TextLibs} label ll color thickness background
        background_color margin img :
  let size := cv2_getTextSize label FONT_HERSHEY_SIMPLEX
                (S754_finite false 4503599627370496 (-53)) thickness in
  let text_width := (fst (fst size) + margin * 2)%Z in
  let text_height := (snd (fst size) + margin * 2)%Z in
  let image_width := snd (image_shape img) in
  let image_height := fst (image_shape img) in
  placeable (fst ll) -> placeable (snd ll) ->
  (Z.abs margin < 2 ^ 53)%Z ->
  (0 <= image_width - text_width < 2 ^ 53)%Z ->
  (Z.abs text_height < 2 ^ 53)%Z ->
  (text_height <= image_height < 2 ^ 53)%Z ->
  exists x y,
    (0 <= x <= image_width - text_width)%Z
    /\ (text_height <= y <= image_height)%Z
    /\ CV2Labels.text label ll color thickness background background_color
         margin img
       = label_at label (x, y) text_width text_height color thickness
           background background_color margin img.
Proof.
  intros size text_width text_height image_width image_height
         P1 P2 Hm Hw Hth Hh.
  destruct (@anchor_placed (fst ll) (snd ll) margin text_width text_height
              image_width image_height P1 P2 Hm Hth ltac:(lia) ltac:(lia))
    as [x [y [Ea [[Bx _] [By _]]]]].
  exists x, y. split; [apply Bx; lia|]. split; [apply By; lia|].
  rewrite text_eq. fold size. fold text_width. fold text_height.
  fold image_width. fold image_height. rewrite Ea. reflexivity.
Qed.

Lemma text_stays_inside_image_witness :
  exists x y,
    (0 <= x <= 640 - 36)%Z /\ (17 <= y <= 480)%Z
    /\ CV2Labels.text (T := Sheet.text_libs) Words.cup
         (py.Float (F64.of_Z 1000), py.Int (-7)) Examples.red 1 true
         Examples.magenta 3 (Sheet.Blank 480 640)
       = label_at (T := Sheet.text_libs) Words.cup (x, y) 36 17 Examples.red 1
           true Examples.magenta 3 (Sheet.Blank 480 640).
Proof.
  apply (@text_stays_inside_image Sheet.libs Sheet.text_libs Words.cup
           (py.Float (F64.of_Z 1000), py.Int (-7)) Examples.red 1 true
           Examples.magenta 3 (Sheet.Blank 480 640)).
  - split; reflexivity.
  - reflexivity.
  - reflexivity.
  - split; [discriminate|reflexivity].
  - reflexivity.
  - split; [discriminate|reflexivity].
Defined.

(** A label wider than the image is not kept inside it: the bounds of
    the horizontal clip are then the wrong way round and [np.clip]
    returns the upper one, so the label starts at the negative column
    [image_width - text_width], left of the image. *)
Theorem text_wider_than_image
        {L : Libs} {T : TextLibs} label ll color thickness background
        background_color margin img :
  let size := cv2_getTextSize label FONT_HERSHEY_SIMPLEX
                (S754_finite false 4503599627370496 (-53)) thickness in
  let text_width := (fst (fst size) + margin * 2)%Z in
  let text_height := (snd (fst size) + margin * 2)%Z in
  let image_width := snd (image_shape img) in
  let image_height := fst (image_shape img) in
  placeable (fst ll) -> placeable (snd ll) ->
  (Z.abs margin < 2 ^ 53)%Z ->
  (- 2 ^ 53 < image_width - text_width < 0)%Z ->
  (Z.abs text_height < 2 ^ 53)%Z ->
  (text_height <= image_height < 2 ^ 53)%Z ->
  exists y,
    (text_height <= y <= image_height)%Z
    /\ CV2Labels.text label ll color thickness background background_color
         margin img
       = label_at label (image_width - text_width, y)%Z text_width text_height
           color thickness background background_color margin img.
Proof.
  intros size text_width text_height image_width image_height
         P1 P2 Hm Hw Hth Hh.
  destruct (@anchor_placed (fst ll) (snd ll) margin text_width text_height
              image_width image_height P1 P2 Hm Hth ltac:(lia) ltac:(lia))
    as [x [y [Ea [[_ Bx] [By _]]]]].
  exists y. split; [apply By; lia|].
  rewrite text_eq. fold size. fold text_width. fold text_height.
  fold image_width. fold image_height. rewrite Ea.
  rewrite (Bx ltac:(lia)). reflexivity.
Qed.

Lemma text_wider_than_image_witness :
  exists y,
    (17 <= y <= 480)%Z
    /\ CV2Labels.text (T := Sheet.text_libs) Words.cup
         (py.Int 5, py.Int 100) Examples.red 1 false
         Examples.magenta 3 (Sheet.Blank 480 20)
       = label_at (T := Sheet.text_libs) Words.cup (20 - 36, y)%Z 36 17
           Examples.red 1 false Examples.magenta 3 (Sheet.Blank 480 20).
Proof.
  apply (@text_wider_than_image Sheet.libs Sheet.text_libs Words.cup
           (py.Int 5, py.Int 100) Examples.red 1 false
           Examples.magenta 3 (Sheet.Blank 480 20)).
  - reflexivity.
  - reflexivity.
  - reflexivity.
  - split; reflexivity.
  - reflexivity.
  - split; [discriminate|reflexivity].
Defined.

Section BoxFacts.

Context {L : Libs} {T : TextLibs}.

Lemma box_eq b color thickness img :
  CV2Labels.box b color thickness img
  = match F64.trunc (box_xmin b), F64.trunc (box_ymin b),
          F64.trunc (box_xmax b), F64.trunc (box_ymax b) with
    | Some x0, Some y0, Some x1, Some y1 =>
        CV2Labels.rectangle (x0, y0) (x1, y1) color thickness img
    | _, _, _, _ => (img, None)
    end.
Proof.
  unfold CV2Labels.box, bind, lift, py.int.
  destruct (F64.trunc (box_xmin b)); [|reflexivity].
  destruct (F64.trunc (box_ymin b)); [|reflexivity].
  destruct (F64.trunc (box_xmax b)); [|reflexivity].
  destruct (F64.trunc (box_ymax b)); reflexivity.
Qed.

Lemma box_not_numbers b color thickness img :
  is_number (box_xmin b) && is_number (box_ymin b)
  && is_number (box_xmax b) && is_number (box_ymax b) = false ->
  CV2Labels.box b color thickness img = (img, None).
Proof.
  intro H. rewrite box_eq.
  destruct (F64.trunc (box_xmin b)) eqn:E0; [|reflexivity].
  destruct (F64.trunc (box_ymin b)) eqn:E1; [|reflexivity].
  destruct (F64.trunc (box_xmax b)) eqn:E2; [|reflexivity].
  destruct (F64.trunc (box_ymax b)) eqn:E3; [|reflexivity].
  exfalso.
  assert (N : forall x k, F64.trunc x = Some k -> is_number x = true).
  { intros x k E. destruct (is_number x) eqn:Ex; [reflexivity|].
    apply trunc_none in Ex. congruence. }
  rewrite (N _ _ E0), (N _ _ E1), (N _ _ E2), (N _ _ E3) in H.
  discriminate.
Qed.

Lemma box_shape b color thickness img img' r :
  CV2Labels.box b color thickness img = (img', r) ->
  image_shape img' = image_shape img.
Proof.
  rewrite box_eq.
  destruct (F64.trunc (box_xmin b)) as [x0|];
    [|intro E; inversion E; reflexivity].
  destruct (F64.trunc (box_ymin b)) as [y0|];
    [|intro E; inversion E; reflexivity].
  destruct (F64.trunc (box_xmax b)) as [x1|];
    [|intro E; inversion E; reflexivity].
  destruct (F64.trunc (box_ymax b)) as [y1|];
    [|intro E; inversion E; reflexivity].
  unfold CV2Labels.rectangle, primitive.
  destruct (cv2_rectangle img (x0, y0) (x1, y1) color thickness) as [i|] eqn:Er;
    intro E; inversion E; subst.
  - apply (cv2_rectangle_shape _ _ _ _ _ Er).
  - reflexivity.
Qed.

End BoxFacts.

(** [box] draws one rectangle whose corners are the bounds of the
    detection truncated toward zero (not rounded, not floored): a bound
    of -30.5 gives column -30, one of 99.5 gives row 99. *)
Theorem box_truncates_toward_zero
        {L : Libs} {T : TextLibs} b color thickness img :
  F64.valid (box_xmin b) = true -> F64.valid (box_ymin b) = true ->
  F64.valid (box_xmax b) = true -> F64.valid (box_ymax b) = true ->
  is_number (box_xmin b) = true -> is_number (box_ymin b) = true ->
  is_number (box_xmax b) = true -> is_number (box_ymax b) = true ->
  CV2Labels.box b color thickness img
  = CV2Labels.rectangle
      (Z.quot (scaled (box_xmin b)) (2 ^ 1074),
       Z.quot (scaled (box_ymin b)) (2 ^ 1074))
      (Z.quot (scaled (box_xmax b)) (2 ^ 1074),
       Z.quot (scaled (box_ymax b)) (2 ^ 1074))
      color thickness img.
Proof.
  intros V0 V1 V2 V3 N0 N1 N2 N3. rewrite box_eq.
  rewrite (@trunc_scaled _ V0 N0), (@trunc_scaled _ V1 N1),
          (@trunc_scaled _ V2 N2), (@trunc_scaled _ V3 N3).
  reflexivity.
Qed.

Lemma box_truncates_toward_zero_witness :
  CV2Labels.box (T := Sheet.text_libs) Sheet.between_pixels Examples.red 2
    (Sheet.Blank 480 640)
  = (Sheet.Rectangle (Sheet.Blank 480 640) (-30, 20)%Z (50, 99)%Z
       Examples.red 2, Some tt).
Proof.
  apply (@box_truncates_toward_zero Sheet.libs Sheet.text_libs
           Sheet.between_pixels Examples.red 2%Z (Sheet.Blank 480 640));
    reflexivity.
Defined.

(** When a bound of the detection is NaN or infinite, [box] raises
    (the ValueError or OverflowError of [int]) before the call of
    [cv2.rectangle], and [box_and_text] with it: nothing is drawn,
    neither box nor label. *)
Theorem box_and_text_rejects_non_numbers
        {L : Libs} {T : TextLibs} b box_color label text_color thickness img :
  is_number (box_xmin b) && is_number (box_ymin b)
  && is_number (box_xmax b) && is_number (box_ymax b) = false ->
  CV2Labels.box b box_color thickness img = (img, None)
  /\ CV2Labels.box_and_text b box_color label text_color img = (img, None).
Proof.
  intro H. split; [apply box_not_numbers; exact H|].
  unfold CV2Labels.box_and_text, bind.
  rewrite (@box_not_numbers _ _ b box_color 2%Z img H). reflexivity.
Qed.

Lemma box_and_text_rejects_non_numbers_witness :
  CV2Labels.box (T := Sheet.text_libs) Sheet.broken Examples.red 2
    (Sheet.Blank 480 640) = (Sheet.Blank 480 640, None)
  /\ CV2Labels.box_and_text (T := Sheet.text_libs) Sheet.broken Examples.red
       Words.cup Examples.magenta (Sheet.Blank 480 640)
     = (Sheet.Blank 480 640, None).
Proof.
  apply (@box_and_text_rejects_non_numbers Sheet.libs Sheet.text_libs
           Sheet.broken Examples.red Words.cup Examples.magenta 2%Z
           (Sheet.Blank 480 640)).
  reflexivity.
Defined.

(** [box_and_text] draws the box and then the label above its upper
    left corner, moved so that it stays inside the image: for a label
    that fits the image, the label's lower-left corner [(x, y)] has
    [0 <= x <= image_width - text_width] and
    [text_height <= y <= image_height], also for a detection that
    starts outside the image. *)
Theorem box_and_text_label_inside
        {L : Libs} {T : TextLibs} b box_color label text_color img :
  let size := cv2_getTextSize label FONT_HERSHEY_SIMPLEX
                (S754_finite false 4503599627370496 (-53)) 1 in
  let text_width := (fst (fst size) + 3 * 2)%Z in
  let text_height := (snd (fst size) + 3 * 2)%Z in
  let image_width := snd (image_shape img) in
  let image_height := fst (image_shape img) in
  F64.valid (box_xmin b) = true -> F64.isnan (box_xmin b) = false ->
  F64.valid (box_ymin b) = true -> F64.isnan (box_ymin b) = false ->
  (0 <= image_width - text_width < 2 ^ 53)%Z ->
  (Z.abs text_height < 2 ^ 53)%Z ->
  (text_height <= image_height < 2 ^ 53)%Z ->
  exists x y,
    (0 <= x <= image_width - text_width)%Z
    /\ (text_height <= y <= image_height)%Z
    /\ CV2Labels.box_and_text b box_color label text_color img
       = bind (CV2Labels.box b box_color 2)
              (fun _ => label_at label (x, y) text_width text_height
                          text_color 1 true box_color 3) img.
Proof.
  intros size text_width text_height image_width image_height
         Vx Nx Vy Ny Hw Hth Hh.
  assert (H2 : (Z.abs 2 < 2 ^ 53)%Z) by (vm_compute; reflexivity).
  assert (H3 : (Z.abs 3 < 2 ^ 53)%Z) by (vm_compute; reflexivity).
  destruct (@shifted_float (box_xmin b) 2%Z Vx Nx H2) as [_ [Vx' Nx']].
  destruct (@shifted_float (box_ymin b) 2%Z Vy Ny H2) as [_ [Vy' Ny']].
  destruct (@anchor_placed
              (py.Float (F64.sub (box_xmin b) (F64.of_Z 2)))
              (py.Float (F64.sub (box_ymin b) (F64.of_Z 2)))
              3%Z text_width text_height image_width image_height
              (conj Vx' Nx') (conj Vy' Ny') H3 Hth ltac:(lia) ltac:(lia))
    as [x [y [Ea [[Bx _] [By _]]]]].
  exists x, y. split; [apply Bx; lia|]. split; [apply By; lia|].
  unfold CV2Labels.box_and_text, bind.
  destruct (CV2Labels.box b box_color 2 img) as [img1 [[]|]] eqn:Eb;
    [|reflexivity].
  rewrite text_eq. cbn [fst snd].
  rewrite (box_shape _ _ _ _ Eb).
  fold size. fold text_width. fold text_height.
  fold image_width. fold image_height.
  rewrite Ea. reflexivity.
Qed.

Lemma box_and_text_label_inside_witness :
  exists x y,
    (0 <= x <= 640 - 36)%Z /\ (17 <= y <= 480)%Z
    /\ CV2Labels.box_and_text (T := Sheet.text_libs) Sheet.detection
         Examples.red Words.cup Examples.magenta (Sheet.Blank 480 640)
       = bind (CV2Labels.box (T := Sheet.text_libs) Sheet.detection
                 Examples.red 2)
              (fun _ => label_at (T := Sheet.text_libs) Words.cup (x, y) 36 17
                          Examples.magenta 1 true Examples.red 3)
              (Sheet.Blank 480 640).
Proof.
  apply (@box_and_text_label_inside Sheet.libs Sheet.text_libs
           Sheet.detection Examples.red Words.cup Examples.magenta
           (Sheet.Blank 480 640)).
  - reflexivity.
  - reflexivity.
  - reflexivity.
  - reflexivity.
  - split; [discriminate|reflexivity].
  - reflexivity.
  - split; [discriminate|reflexivity].
Defined.

(** * plot_result *)
Section PlotFacts.

Context {P : MPL.Pyplot}.

Lemma plot_bind_raises_left {A B} (c : MPL.Plot A) (k : A -> MPL.Plot B) s :
  snd (c s) = None -> snd (MPL.bind c k s) = None.
Proof.
  unfold MPL.bind. destruct (c s) as [s' [a|]]; [discriminate|reflexivity].
Qed.

Lemma plot_bind_raises_right {A B} (c : MPL.Plot A) (k : A -> MPL.Plot B) s :
  (forall a s', snd (k a s') = None) -> snd (MPL.bind c k s) = None.
Proof.
  intro Hk. unfold MPL.bind. destruct (c s) as [s' [a|]]; [apply Hk|reflexivity].
Qed.

Lemma plot_for_each_raises {A} (xs : list A) (body : A -> MPL.Plot unit) x :
  In x xs -> (forall s, snd (body x s) = None) ->
  forall s, snd (MPL.for_each xs body s) = None.
Proof.
  intros Hin Hx. induction xs as [|a xs IH]; [destruct Hin|].
  intro s. simpl. unfold MPL.bind.
  destruct (body a s) as [s' [[]|]] eqn:Ea; [|reflexivity].
  destruct Hin as [->|Hin].
  - specialize (Hx s). rewrite Ea in Hx. discriminate.
  - apply IH. exact Hin.
Qed.

Lemma plot_for_each_app {A} (xs ys : list A) (f : A -> MPL.Plot unit) s :
  MPL.for_each (xs ++ ys) f s
  = MPL.bind (MPL.for_each xs f) (fun _ => MPL.for_each ys f) s.
Proof.
  revert s. induction xs as [|a xs IH]; intro s; [reflexivity|].
  simpl. unfold MPL.bind.
  destruct (f a s) as [s' [[]|]]; [|reflexivity].
  rewrite IH. reflexivity.
Qed.

Lemma plot_for_each_map {A B} (h : A -> B) (xs : list A)
      (f : B -> MPL.Plot unit) s :
  MPL.for_each (map h xs) f s = MPL.for_each xs (fun a => f (h a)) s.
Proof.
  revert s. induction xs as [|a xs IH]; intro s; [reflexivity|].
  simpl. unfold MPL.bind.
  destruct (f (h a) s) as [s' [[]|]]; [|reflexivity].
  apply IH.
Qed.

Lemma in_enumerate_from {A} (xs : list A) k i v :
  nth_error xs i = Some v -> In ((k + i)%nat, v) (combine (seq k (length xs)) xs).
Proof.
  revert k i. induction xs as [|a xs IH]; intros k i Hi.
  - destruct i; discriminate.
  - destruct i as [|i]; simpl in Hi.
    + injection Hi as ->. left. rewrite Nat.add_0_r. reflexivity.
    + right. simpl. replace (k + S i)%nat with (S k + i)%nat by lia.
      apply IH. exact Hi.
Qed.

Lemma in_enumerate {A} (xs : list A) i v :
  nth_error xs i = Some v -> In (i, v) (MPL.enumerate xs).
Proof. intro H. apply (in_enumerate_from xs 0 i H). Qed.

Lemma comprehension_raises {A B} (f : A -> option B) xs v :
  In v xs -> f v = None -> MPL.comprehension f xs = None.
Proof.
  intros Hin Hv. induction xs as [|a xs IH]; [destruct Hin|].
  simpl. destruct Hin as [->|Hin].
  - rewrite Hv. reflexivity.
  - destruct (f a); [|reflexivity]. rewrite (IH Hin). reflexivity.
Qed.

Lemma slice_columns (trajectory : MPL.Trajectory) :
  trajectory <> [] ->
  MPL.slice_column (map (fun pose => [MPL.x pose; MPL.y pose]) trajectory) 0
  = Some (map MPL.x trajectory)
  /\ MPL.slice_column (map (fun pose => [MPL.x pose; MPL.y pose]) trajectory) 1
     = Some (map MPL.y trajectory).
Proof.
  intro Hne. destruct trajectory as [|p rest]; [congruence|].
  assert (Hcol : forall k (f : gtsam.Pose3 -> float),
             (forall pose, np.get1 [MPL.x pose; MPL.y pose] k = f pose) ->
             (k <? 2)%nat = true ->
             MPL.slice_column
               (map (fun pose => [MPL.x pose; MPL.y pose]) (p :: rest)) k
             = Some (map f (p :: rest))).
  { intros k f Hf Hk. unfold MPL.slice_column.
    change (map (fun pose => [MPL.x pose; MPL.y pose]) (p :: rest))
      with ([MPL.x p; MPL.y p]
            :: map (fun pose => [MPL.x pose; MPL.y pose]) rest).
    cbv iota.
    change (np.shape1 ([MPL.x p; MPL.y p]
                       :: map (fun pose => [MPL.x pose; MPL.y pose]) rest))
      with 2.
    rewrite Hk. f_equal. unfold np.column.
    change ([MPL.x p; MPL.y p]
            :: map (fun pose => [MPL.x pose; MPL.y pose]) rest)
      with (map (fun pose => [MPL.x pose; MPL.y pose]) (p :: rest)).
    unfold vec, mat. rewrite map_map. apply map_ext. exact Hf. }
  split; apply Hcol; reflexivity.
Qed.

End PlotFacts.

(** [plot_result] raises (an IndexError) in each of these cases: a
    trajectory without poses, fewer colors than trajectories, a map
    that has a quadric but no color, more names than colors.  A map
    without quadrics needs no color. *)
Theorem plot_result_index_errors
        {P : MPL.Pyplot} figname trajectories maps colors names s :
  In [] trajectories
  \/ length colors < length trajectories
  \/ (exists i quadrics,
        nth_error maps i = Some quadrics /\ quadrics <> []
        /\ length colors <= i)
  \/ (exists labels, names = Some labels /\ length colors < length labels) ->
  snd (MPL.plot_result figname trajectories maps colors names s) = None.
Proof.
  intro H. unfold MPL.plot_result.
  apply plot_bind_raises_right. intros fig s1.
  apply plot_bind_raises_right. intros _ s2.
  destruct H as [Ha|[Hb|[Hc|Hd]]].
  - apply plot_bind_raises_left.
    apply In_nth_error in Ha. destruct Ha as [i Hi].
    apply (@plot_for_each_raises _ _ _ _ (i, []) (in_enumerate _ _ Hi)).
    intro s3. reflexivity.
  - apply plot_bind_raises_left.
    destruct (nth_error trajectories (length colors)) as [t|] eqn:Ht;
      [|apply nth_error_None in Ht; lia].
    apply (@plot_for_each_raises _ _ _ _ (length colors, t)
             (in_enumerate _ _ Ht)).
    intro s3. cbn [fst snd].
    apply plot_bind_raises_right. intros xs s4.
    apply plot_bind_raises_right. intros ys s5.
    apply plot_bind_raises_left.
    replace (nth_error colors (length colors)) with (@None MPL.MColor)
      by (symmetry; apply nth_error_None; lia).
    reflexivity.
  - apply plot_bind_raises_right. intros _ s3.
    apply plot_bind_raises_left.
    destruct Hc as [i [quadrics [Hi [Hne Hlen]]]].
    apply (@plot_for_each_raises _ _ _ _ (i, quadrics) (in_enumerate _ _ Hi)).
    intro s4. cbn [fst snd].
    destruct quadrics as [|q rest]; [congruence|].
    simpl. apply plot_bind_raises_left. apply plot_bind_raises_left.
    replace (nth_error colors i) with (@None MPL.MColor)
      by (symmetry; apply nth_error_None; lia).
    reflexivity.
  - apply plot_bind_raises_right. intros _ s3.
    apply plot_bind_raises_right. intros _ s4.
    apply plot_bind_raises_left.
    destruct Hd as [labels [-> Hlen]].
    apply plot_bind_raises_left.
    rewrite (@comprehension_raises _ _ _ (seq 0 (length labels))
               (length colors)).
    + reflexivity.
    + apply in_seq. lia.
    + replace (nth_error colors (length colors)) with (@None MPL.MColor)
        by (symmetry; apply nth_error_None; lia).
      reflexivity.
Qed.

Lemma plot_result_index_errors_witness :
  snd (MPL.plot_result (P := MPL.Recorder.pyplot) MPL.Recorder.fig
         [[MPL.Recorder.at_xy 0 0; MPL.Recorder.at_xy 1 0]; []] []
         [MPL.Recorder.red; MPL.Recorder.blue] None [])
  = None.
Proof.
  apply (@plot_result_index_errors MPL.Recorder.pyplot).
  left. right. left. reflexivity.
Defined.

Section PlotRequests.

Context {P : MPL.Pyplot}.

Lemma plot_bind_ext {A B} (c c' : MPL.Plot A) (k k' : A -> MPL.Plot B) s :
  (forall s0, c s0 = c' s0) -> (forall a s0, k a s0 = k' a s0) ->
  MPL.bind c k s = MPL.bind c' k' s.
Proof.
  intros Hc Hk. unfold MPL.bind. rewrite Hc.
  destruct (c' s) as [s' [a|]]; [apply Hk|reflexivity].
Qed.

Lemma plot_bind_ret (c : MPL.Plot unit) s :
  MPL.bind c (fun _ => MPL.ret tt) s = c s.
Proof.
  unfold MPL.bind, MPL.ret. destruct (c s) as [s' [[]|]]; reflexivity.
Qed.

Lemma plot_for_each_ext {A} (xs : list A) (f g : A -> MPL.Plot unit) :
  (forall a s, In a xs -> f a s = g a s) ->
  forall s, MPL.for_each xs f s = MPL.for_each xs g s.
Proof.
  induction xs as [|a xs IH]; intros Hfg s; [reflexivity|].
  simpl. apply plot_bind_ext.
  - intro s0. apply Hfg. left. reflexivity.
  - intros _ s0. apply IH. intros b s1 Hb. apply Hfg. right. exact Hb.
Qed.

Variable colors : list MPL.MColor.

Lemma trajectory_loop (l : list MPL.Trajectory) :
  forall k pre cs,
    colors = pre ++ cs -> length pre = k ->
    ~ In [] l -> length l <= length cs ->
    forall s,
      MPL.for_each (combine (seq k (length l)) l) (MPL.trajectory_body colors) s
      = MPL.run (map MPL.trajectory_request
                   (combine (combine (seq k (length l)) l) cs)) s.
Proof.
  induction l as [|t l IH]; intros k pre cs Hc Hk Hne Hlen s; [reflexivity|].
  destruct cs as [|c cs]; [simpl in Hlen; lia|].
  simpl. unfold MPL.run. simpl. apply plot_bind_ext.
  - intro s0. unfold MPL.trajectory_body. cbn [fst snd].
    destruct (@slice_columns t) as [E0 E1];
      [intros ->; apply Hne; left; reflexivity|].
    rewrite E0, E1.
    replace (nth_error colors k) with (Some c).
    + reflexivity.
    + rewrite Hc, nth_error_app2 by lia.
      replace (k - length pre) with 0 by lia. reflexivity.
  - intros _ s0.
    apply (IH (S k) (pre ++ [c]) cs).
    + rewrite <- app_assoc. exact Hc.
    + rewrite length_app. simpl. lia.
    + intro Hin. apply Hne. right. exact Hin.
    + simpl in Hlen. lia.
Qed.

Lemma quadric_loop_empty (l : list MPL.Quadrics) :
  forall k, (forall q, In q l -> q = []) ->
  forall s, MPL.for_each (combine (seq k (length l)) l) (MPL.quadric_body colors) s
            = (s, Some tt).
Proof.
  induction l as [|m l IH]; intros k Hall s; [reflexivity|].
  simpl. unfold MPL.bind, MPL.quadric_body at 1. cbn [fst snd].
  rewrite (Hall m (or_introl eq_refl)). simpl.
  apply IH. intros q Hq. apply Hall. right. exact Hq.
Qed.

Lemma quadric_loop (l : list MPL.Quadrics) :
  forall k pre cs,
    colors = pre ++ cs -> length pre = k ->
    (forall i q, nth_error l i = Some q -> q <> [] -> i < length cs) ->
    forall s,
      MPL.for_each (combine (seq k (length l)) l) (MPL.quadric_body colors) s
      = MPL.run (flat_map MPL.quadric_request
                   (combine (combine (seq k (length l)) l) cs)) s.
Proof.
  induction l as [|m l IH]; intros k pre cs Hc Hk Hcol s; [reflexivity|].
  destruct cs as [|c cs].
  - rewrite quadric_loop_empty.
    + destruct (combine (seq k (length (m :: l))) (m :: l)); reflexivity.
    + intros q Hq. destruct q as [|q0 q]; [reflexivity|].
      apply In_nth_error in Hq. destruct Hq as [i Hi].
      specialize (Hcol i _ Hi ltac:(discriminate)). simpl in Hcol. lia.
  - simpl. unfold MPL.run. rewrite plot_for_each_app.
    apply plot_bind_ext.
    + intro s0. unfold MPL.quadric_body, MPL.quadric_request. cbn [fst snd].
      rewrite plot_for_each_map. apply plot_for_each_ext.
      intros q s1 _.
      replace (nth_error colors k) with (Some c).
      * reflexivity.
      * rewrite Hc, nth_error_app2 by lia.
        replace (k - length pre) with 0 by lia. reflexivity.
    + intros _ s0.
      apply (IH (S k) (pre ++ [c]) cs).
      * rewrite <- app_assoc. exact Hc.
      * rewrite length_app. simpl. lia.
      * intros i q Hi Hq. specialize (Hcol (S i) q Hi Hq). simpl in Hcol. lia.
Qed.

Lemma legend_colors :
  forall n k pre cs,
    colors = pre ++ cs -> length pre = k -> n <= length cs ->
    MPL.comprehension
      (fun i => match nth_error colors i with
                | Some c => MPL.Line2D [0%Z] [0%Z] c 2
                | None => None
                end) (seq k n)
    = MPL.comprehension (fun c => MPL.Line2D [0%Z] [0%Z] c 2) (firstn n cs).
Proof.
  induction n as [|n IH]; intros k pre cs Hc Hk Hn; [reflexivity|].
  destruct cs as [|c cs]; [simpl in Hn; lia|].
  simpl.
  replace (nth_error colors k) with (Some c).
  - destruct (MPL.Line2D [0%Z] [0%Z] c 2); [|reflexivity].
    rewrite (IH (S k) (pre ++ [c]) cs).
    + reflexivity.
    + rewrite <- app_assoc. exact Hc.
    + rewrite length_app. simpl. lia.
    + simpl in Hn. lia.
  - rewrite Hc, nth_error_app2 by lia.
    replace (k - length pre) with 0 by lia. reflexivity.
Qed.

Lemma quadric_requests_length (l : list MPL.Quadrics) :
  forall k (cs : list MPL.MColor),
    (forall i q, nth_error l i = Some q -> q <> [] -> i < length cs) ->
    length (flat_map MPL.quadric_request
              (combine (combine (seq k (length l)) l) cs))
    = list_sum (map (@length _) l).
Proof.
  induction l as [|m l IH]; intros k cs Hcol; [reflexivity|].
  destruct cs as [|c cs].
  - assert (Hall : forall q, In q (m :: l) -> q = []).
    { intros q Hq. destruct q as [|q0 q]; [reflexivity|].
      apply In_nth_error in Hq. destruct Hq as [i Hi].
      specialize (Hcol i _ Hi ltac:(discriminate)). simpl in Hcol. lia. }
    replace (combine (combine (seq k (length (m :: l))) (m :: l)) [])
      with (@nil (nat * MPL.Quadrics * MPL.MColor))
      by (destruct (combine (seq k (length (m :: l))) (m :: l)); reflexivity).
    simpl flat_map. simpl length at 1.
    clear Hcol. induction (m :: l) as [|a r IHr]; [reflexivity|].
    simpl. rewrite (Hall a (or_introl eq_refl)). simpl.
    apply IHr. intros q Hq. apply Hall. right. exact Hq.
  - simpl. rewrite length_app. unfold MPL.quadric_request at 1. cbn [fst snd].
    rewrite length_map. f_equal.
    apply IH. intros i q Hi Hq. specialize (Hcol (S i) q Hi Hq).
    simpl in Hcol. lia.
Qed.

End PlotRequests.

(** With poses in every trajectory and a color for everything that is
    drawn, [plot_result] makes exactly these calls, in this order:
    [plt.figure], [figure.clf], one [plt.plot] per trajectory with the
    x and the y of its poses, one [plt.plot] per quadric with the x
    and y of its centre, [figure.legend] when names are given, with one
    handle per name, and [plt.show].  It stops at the first of them
    that raises. *)
Theorem plot_result_requests
        {P : MPL.Pyplot} figname trajectories maps colors names s :
  ~ In [] trajectories ->
  length trajectories <= length colors ->
  (forall i quadrics,
     nth_error maps i = Some quadrics -> quadrics <> [] ->
     i < length colors) ->
  (forall labels, names = Some labels -> length labels <= length colors) ->
  MPL.plot_result figname trajectories maps colors names s
  = MPL.bind (MPL.figure figname)
      (fun fig =>
         MPL.run (MPL.Clf fig
                  :: MPL.trajectory_requests trajectories colors
                  ++ MPL.quadric_requests maps colors
                  ++ MPL.legend_requests fig colors names
                  ++ [MPL.Show])) s
  /\ length (MPL.trajectory_requests trajectories colors)
     = length trajectories
  /\ length (MPL.quadric_requests maps colors)
     = list_sum (map (@length _) maps).
Proof.
  intros Hne Hlen Hcol Hnames. split; [|split].
  - unfold MPL.plot_result. apply plot_bind_ext; [reflexivity|].
    intros fig s1. unfold MPL.run. simpl MPL.for_each.
    apply plot_bind_ext; [reflexivity|]. intros _ s2.
    rewrite plot_for_each_app. apply plot_bind_ext.
    { intro s3. apply (@trajectory_loop P colors trajectories 0 [] colors);
        try reflexivity; assumption. }
    intros _ s3.
    rewrite plot_for_each_app. apply plot_bind_ext.
    { intro s4. apply (@quadric_loop P colors maps 0 [] colors);
        try reflexivity; assumption. }
    intros _ s4.
    destruct names as [labels|]; simpl MPL.legend_requests.
    + simpl. apply plot_bind_ext.
      * intro s5. unfold MPL.perform.
        rewrite (@legend_colors P colors (length labels) 0 [] colors
                   eq_refl eq_refl (Hnames labels eq_refl)).
        reflexivity.
      * intros _ s5. symmetry. apply plot_bind_ret.
    + simpl. unfold MPL.bind at 1. unfold MPL.ret at 1.
      symmetry. apply plot_bind_ret.
  - unfold MPL.trajectory_requests, MPL.enumerate.
    unfold MPL.Trajectory in *.
    rewrite length_map, !length_combine, length_seq. lia.
  - apply (@quadric_requests_length P maps 0 colors Hcol).
Qed.

Lemma plot_result_requests_witness :
  MPL.plot_result (P := MPL.Recorder.pyplot) MPL.Recorder.fig
    [[MPL.Recorder.at_xy 0 0; MPL.Recorder.at_xy 1 0];
     [MPL.Recorder.at_xy 0 1]]
    [[MPL.Recorder.ball 2 2]; []; []]
    [MPL.Recorder.red; MPL.Recorder.blue]
    (Some [MPL.Recorder.odometry; MPL.Recorder.slam]) []
  = MPL.bind (P := MPL.Recorder.pyplot) (MPL.figure MPL.Recorder.fig)
      (fun fig =>
         MPL.run (P := MPL.Recorder.pyplot) (MPL.Clf fig
                  :: MPL.trajectory_requests (P := MPL.Recorder.pyplot)
                       [[MPL.Recorder.at_xy 0 0; MPL.Recorder.at_xy 1 0];
                        [MPL.Recorder.at_xy 0 1]]
                       [MPL.Recorder.red; MPL.Recorder.blue]
                  ++ MPL.quadric_requests (P := MPL.Recorder.pyplot)
                       [[MPL.Recorder.ball 2 2]; []; []]
                       [MPL.Recorder.red; MPL.Recorder.blue]
                  ++ MPL.legend_requests (P := MPL.Recorder.pyplot) fig
                       [MPL.Recorder.red; MPL.Recorder.blue]
                       (Some [MPL.Recorder.odometry; MPL.Recorder.slam])
                  ++ [MPL.Show])) []
  /\ length (MPL.trajectory_requests (P := MPL.Recorder.pyplot)
               [[MPL.Recorder.at_xy 0 0; MPL.Recorder.at_xy 1 0];
                [MPL.Recorder.at_xy 0 1]]
               [MPL.Recorder.red; MPL.Recorder.blue]) = 2
  /\ length (MPL.quadric_requests (P := MPL.Recorder.pyplot)
               [[MPL.Recorder.ball 2 2]; []; []]
               [MPL.Recorder.red; MPL.Recorder.blue]) = 1.
Proof.
  apply (@plot_result_requests MPL.Recorder.pyplot MPL.Recorder.fig
           [[MPL.Recorder.at_xy 0 0; MPL.Recorder.at_xy 1 0];
            [MPL.Recorder.at_xy 0 1]]
           [[MPL.Recorder.ball 2 2]; []; []]
           [MPL.Recorder.red; MPL.Recorder.blue]
           (Some [MPL.Recorder.odometry; MPL.Recorder.slam]) []).
  - intros [H|[H|[]]]; discriminate.
  - simpl. lia.
  - intros i quadrics Hi Hq.
    destruct i as [|[|[|i]]]; simpl in Hi.
    + simpl. lia.
    + injection Hi as <-. congruence.
    + injection Hi as <-. congruence.
    + destruct i; discriminate.
  - intros labels H. injection H as <-. simpl. lia.
Defined.

(** * The calls as the library sees them *)
Section LibraryFacts.

Context {L : Libs}.

Lemma perform_cv2_call c img :
  perform c img
  = match cv2_call c img with
    | Some img' => (img', Some tt)
    | None => (img, None)
    end.
Proof. destruct c; reflexivity. Qed.

(** When the library accepts every call, [run] ends with the image
    the library made of them. *)
Lemma run_accepted cs :
  forall img img', cv2_calls cs img = Some img' -> run cs img = (img', Some tt).
Proof.
  induction cs as [|c cs IH]; intros img img' H; simpl in H.
  - injection H as <-. reflexivity.
  - unfold run. simpl. unfold bind. rewrite perform_cv2_call.
    destruct (cv2_call c img) as [img1|]; [|discriminate].
    apply IH. exact H.
Qed.

(** When the library rejects one of the calls, [run] raises. *)
Lemma run_rejected cs :
  forall img, cv2_calls cs img = None -> snd (run cs img) = None.
Proof.
  induction cs as [|c cs IH]; intros img H; simpl in H; [discriminate|].
  unfold run. simpl. unfold bind. rewrite perform_cv2_call.
  destruct (cv2_call c img) as [img1|]; [|reflexivity].
  apply IH. exact H.
Qed.

(** A [run] that returns has had every call accepted. *)
Lemma run_returned cs img img' :
  run cs img = (img', Some tt) -> cv2_calls cs img = Some img'.
Proof.
  intro H. destruct (cv2_calls cs img) as [img1|] eqn:E.
  - rewrite (run_accepted _ _ E) in H. congruence.
  - apply run_rejected in E. rewrite H in E. discriminate.
Qed.

Lemma segments_are_lines (points_2D : list (list (list Z))) color es :
  Forall (fun c => is_line c = true) (map (segment points_2D color) es).
Proof. induction es; simpl; constructor; [reflexivity|assumption]. Qed.

End LibraryFacts.

(** C4: on a grid of m x n projected points the loops of [quadric] make
    one [cv2.line] call per pair of neighbours and no other call:
    m (n - 1) segments from (i, j) to (i, j + 1), then (m - 1) n segments
    from (i, j) to (i + 1, j), that is (m - 1) n + m (n - 1) in all.
    When OpenCV accepts them, the image that results is the one
    [cv2.line] made of all of them in this order; when it rejects one,
    the loops raise.  Both ends of a segment are cells of the grid, so
    the last row or column is never joined to the first, and an axis
    with a single sample has no segment along it.  [quadric] runs these
    loops on the 10 x 10 grid of [generate_uv_spherical] and goes on to
    the blend with the image of all 180 segments. *)
Theorem wireframe_edge_count
        {L : Libs} (points_2D : list (list (list Z))) color m n img :
  has_shape points_2D m n ->
  let calls :=
    map (segment points_2D color) (row_edges m n ++ col_edges m n) in
  (forall img',
      cv2_calls calls img = Some img' ->
      CV2Drawing.wireframe points_2D color img = (img', Some tt))
  /\ (cv2_calls calls img = None ->
      snd (CV2Drawing.wireframe points_2D color img) = None)
  /\ Forall (fun c => is_line c = true) calls
  /\ length (row_edges m n) = m * (n - 1)
  /\ length (col_edges m n) = (m - 1) * n
  /\ length calls = (m - 1) * n + m * (n - 1)
  /\ Forall (fun e : edge =>
               fst (snd e) = fst (fst e) /\ snd (snd e) = S (snd (fst e))
               /\ fst (fst e) < m /\ snd (snd e) < n)
            (row_edges m n)
  /\ Forall (fun e : edge =>
               snd (snd e) = snd (fst e) /\ fst (snd e) = S (fst (fst e))
               /\ snd (fst e) < n /\ fst (snd e) < m)
            (col_edges m n)
  /\ (forall pose quadric calibration alpha g,
         generate_uv_spherical quadric pose calibration 10 10 = Some g ->
         has_shape (CV2Drawing.to_pixels g) 10 10
         /\ length (row_edges 10 10 ++ col_edges 10 10) = 180
         /\ forall img',
              cv2_calls (map (segment (CV2Drawing.to_pixels g)
                                      (CV2Drawing.bgr color))
                             (row_edges 10 10 ++ col_edges 10 10)) img
              = Some img' ->
              CV2Drawing.quadric pose quadric calibration color alpha img
              = finish alpha img img').
Proof.
  intros Hs calls.
  split.
  { intros img' H. rewrite (wireframe_run _ _ Hs). apply run_accepted. exact H. }
  split.
  { intro H. rewrite (wireframe_run _ _ Hs). apply run_rejected. exact H. }
  split; [apply segments_are_lines|].
  split; [apply row_edges_length|].
  split; [apply col_edges_length|].
  split.
  { unfold calls.
    rewrite length_map, length_app, row_edges_length, col_edges_length. lia. }
  split; [apply row_edges_adjacent|].
  split; [apply col_edges_adjacent|].
  intros pose quadric calibration alpha g Hg.
  assert (Hs10 : has_shape (CV2Drawing.to_pixels g) 10 10)
    by (apply to_pixels_shape; eapply generate_uv_spherical_shape; exact Hg).
  split; [exact Hs10|].
  split; [reflexivity|].
  intros img' H.
  rewrite (quadric_eq _ _ _ _ _ _ Hg). unfold bind.
  rewrite (wireframe_run _ _ Hs10), (run_accepted _ _ H).
  reflexivity.
Qed.

Lemma wireframe_edge_count_witness :
  exists img',
    CV2Drawing.wireframe (L := Ref.libs) Inputs.grid_2x3 Examples.red Ref.Blank
    = (img', Some tt)
    /\ Ref.lines img' = 7.
Proof.
  assert (Hs : has_shape Inputs.grid_2x3 2 3).
  { split; [reflexivity|]. repeat constructor. }
  destruct (@wireframe_edge_count Ref.libs Inputs.grid_2x3 Examples.red 2 3
              Ref.Blank Hs) as [Hdrawn _].
  exists (match cv2_calls (L := Ref.libs)
                  (map (segment Inputs.grid_2x3 Examples.red)
                       (row_edges 2 3 ++ col_edges 2 3)) Ref.Blank with
          | Some img' => img'
          | None => Ref.Blank
          end).
  split; [apply Hdrawn|]; vm_compute; reflexivity.
Defined.

(** C7: when no corner of the box has a negative depth and every
    projected coordinate is finite, [bounds_3D] makes twenty OpenCV
    calls: the eight corner dots, then exactly twelve [cv2.line] calls
    joining the corners of indices
    (0,1),(1,3),(3,2),(2,0),(4,5),(5,7),(7,6),(6,4),(2,6),(1,5),(0,4),(3,7)
    in this order; corner 4a + 2b + c is (x_a, y_b, z_c), the bounds
    being enumerated with x outermost, then y, then z.  When OpenCV
    accepts the calls, the image that results is the one it made of
    all twenty; when it rejects one, [bounds_3D] raises. *)
Theorem bounds_3D_draws_twelve_edges
        {L : Libs} box3D pose calibration color img :
  (forall point, In point (CV2Drawing.corners box3D) ->
                 F64.ltb (CV2Drawing.depth pose point) F64.zero = false) ->
  (forall row c,
      In row (CV2Drawing.project_corners pose calibration
                (CV2Drawing.corners box3D)) ->
      In c row -> F64.isinf c = false /\ F64.isnan c = false) ->
  let points_2D :=
    CV2Drawing.project_corners pose calibration (CV2Drawing.corners box3D) in
  let dots :=
    map (fun point =>
           CircleAt (CV2Drawing.pixel point) 1 (0, 0, 255)%Z (-1) LINE_AA)
        points_2D in
  let lines :=
    map (fun index =>
           LineTo (CV2Drawing.pixel (nth (fst index) points_2D []))
                  (CV2Drawing.pixel (nth (snd index) points_2D []))
                  color 1 LINE_AA)
        [(0,1); (1,3); (3,2); (2,0); (4,5); (5,7); (7,6); (6,4);
         (2,6); (1,5); (0,4); (3,7)] in
  CV2Drawing.corners box3D
  = [[quadricslam.xmin box3D; quadricslam.ymin box3D; quadricslam.zmin box3D];
     [quadricslam.xmin box3D; quadricslam.ymin box3D; quadricslam.zmax box3D];
     [quadricslam.xmin box3D; quadricslam.ymax box3D; quadricslam.zmin box3D];
     [quadricslam.xmin box3D; quadricslam.ymax box3D; quadricslam.zmax box3D];
     [quadricslam.xmax box3D; quadricslam.ymin box3D; quadricslam.zmin box3D];
     [quadricslam.xmax box3D; quadricslam.ymin box3D; quadricslam.zmax box3D];
     [quadricslam.xmax box3D; quadricslam.ymax box3D; quadricslam.zmin box3D];
     [quadricslam.xmax box3D; quadricslam.ymax box3D; quadricslam.zmax box3D]]
  /\ length dots = 8
  /\ length lines = 12
  /\ (forall img',
         cv2_calls (dots ++ lines) img = Some img' ->
         CV2Drawing.bounds_3D box3D pose calibration color img
         = (img', Some tt))
  /\ (cv2_calls (dots ++ lines) img = None ->
      snd (CV2Drawing.bounds_3D box3D pose calibration color img) = None).
Proof.
  intros Hfront Hfin points_2D dots lines.
  assert (Hrun : CV2Drawing.bounds_3D box3D pose calibration color img
                 = run (dots ++ lines) img).
  { apply bounds_3D_draws; [exact Hfront|].
    intros row c Hrow Hc. destruct (Hfin row c Hrow Hc) as [Hi Hn].
    unfold finite. now rewrite Hi, Hn. }
  split; [apply corners_eq|].
  split.
  { unfold dots, points_2D. rewrite length_map. apply project_corners_length. }
  split; [reflexivity|].
  split.
  - intros img' H. rewrite Hrun. apply run_accepted. exact H.
  - intro H. rewrite Hrun. apply run_rejected. exact H.
Qed.

Lemma bounds_3D_draws_twelve_edges_witness :
  exists img',
    CV2Drawing.bounds_3D (L := Ref.libs) (Examples.box 4 6)
      Ref.identity_pose Examples.cal Examples.magenta Ref.Blank
    = (img', Some tt)
    /\ Ref.lines img' = 12.
Proof.
  assert (Hfront : forall point,
             In point (CV2Drawing.corners (Examples.box 4 6)) ->
             F64.ltb (CV2Drawing.depth (L := Ref.libs) Ref.identity_pose point)
                     F64.zero = false)
    by (apply none_negative; vm_compute; reflexivity).
  assert (Hfin : forall row c,
             In row (CV2Drawing.project_corners (L := Ref.libs)
                       Ref.identity_pose Examples.cal
                       (CV2Drawing.corners (Examples.box 4 6))) ->
             In c row -> F64.isinf c = false /\ F64.isnan c = false)
    by (apply all_finite; vm_compute; reflexivity).
  destruct (@bounds_3D_draws_twelve_edges Ref.libs (Examples.box 4 6)
              Ref.identity_pose Examples.cal Examples.magenta Ref.Blank
              Hfront Hfin) as [_ [_ [_ [Hdrawn _]]]].
  exists (match cv2_calls (L := Ref.libs)
                  (box_calls (L := Ref.libs) (Examples.box 4 6)
                     Ref.identity_pose Examples.cal Examples.magenta)
                  Ref.Blank with
          | Some img' => img'
          | None => Ref.Blank
          end).
  split; [apply Hdrawn|]; vm_compute; reflexivity.
Defined.

(** ** bounds_3D: all or nothing *)

Lemma corner_calls_are_dots (points_2D : mat) :
  Forall (fun c => is_line c = false) (corner_calls points_2D).
Proof.
  induction points_2D; simpl; constructor; [reflexivity|assumption].
Qed.

Lemma edge_calls_are_lines (points_2D : mat) color pairs :
  Forall (fun c => is_line c = true) (edge_calls points_2D color pairs).
Proof. induction pairs; simpl; constructor; [reflexivity|assumption]. Qed.

(** [bounds_3D] never returns with a part of the box drawn: when it
    returns, the image is either the one it was given or the one
    OpenCV made of all twenty calls, the eight dots followed by the
    twelve lines.  A partly drawn box can only come with an exception
    of OpenCV, and [bounds_3D] raises only when OpenCV does. *)
Theorem bounds_3D_all_or_nothing
        {L : Libs} box3D pose calibration color img img' :
  CV2Drawing.bounds_3D box3D pose calibration color img = (img', Some tt) ->
  let calls := box_calls box3D pose calibration color in
  (img' = img \/ cv2_calls calls img = Some img')
  /\ (exists dots lines,
         calls = dots ++ lines
         /\ length dots = 8 /\ Forall (fun c => is_line c = false) dots
         /\ length lines = 12 /\ Forall (fun c => is_line c = true) lines)
  /\ (forall img1,
         snd (CV2Drawing.bounds_3D box3D pose calibration color img1) = None ->
         cv2_calls calls img1 = None).
Proof.
  intros Hret calls. split; [|split].
  - destruct (bounds_3D_cases box3D pose calibration color img)
      as [[Hsame|Hrun] _].
    + left. congruence.
    + right. apply run_returned. fold calls in Hrun. congruence.
  - exists (corner_calls
              (CV2Drawing.project_corners pose calibration
                 (CV2Drawing.corners box3D))),
           (edge_calls
              (CV2Drawing.project_corners pose calibration
                 (CV2Drawing.corners box3D)) color CV2Drawing.edges).
    split; [reflexivity|].
    split.
    { unfold corner_calls. rewrite length_map. apply project_corners_length. }
    split; [apply corner_calls_are_dots|].
    split; [reflexivity|apply edge_calls_are_lines].
  - intros img1 Hnone.
    destruct (bounds_3D_cases box3D pose calibration color img1)
      as [[Hsame1|Hrun1] _].
    + rewrite Hsame1 in Hnone. discriminate.
    + destruct (cv2_calls calls img1) as [img2|] eqn:E; [|reflexivity].
      fold calls in Hrun1.
      rewrite Hrun1, (run_accepted _ _ E) in Hnone. discriminate.
Qed.

Lemma bounds_3D_all_or_nothing_witness :
  cv2_calls (L := Ref.libs)
    (box_calls (L := Ref.libs) (Examples.box 4 6) Ref.identity_pose
       Examples.cal Examples.magenta) Ref.Blank
  = Some (fst (CV2Drawing.bounds_3D (L := Ref.libs) (Examples.box 4 6)
                 Ref.identity_pose Examples.cal Examples.magenta Ref.Blank))
  /\ Ref.lines (fst (CV2Drawing.bounds_3D (L := Ref.libs) (Examples.box 4 6)
                       Ref.identity_pose Examples.cal Examples.magenta
                       Ref.Blank)) = 12.
Proof.
  assert (Hret : CV2Drawing.bounds_3D (L := Ref.libs) (Examples.box 4 6)
                   Ref.identity_pose Examples.cal Examples.magenta Ref.Blank
                 = (fst (CV2Drawing.bounds_3D (L := Ref.libs) (Examples.box 4 6)
                           Ref.identity_pose Examples.cal Examples.magenta
                           Ref.Blank), Some tt))
    by (vm_compute; reflexivity).
  destruct (@bounds_3D_all_or_nothing Ref.libs (Examples.box 4 6)
              Ref.identity_pose Examples.cal Examples.magenta Ref.Blank _ Hret)
    as [[Hsame|Hall] _].
  - exfalso. vm_compute in Hsame. discriminate.
  - split; [exact Hall|vm_compute; reflexivity].
Defined.

(** ** generate_uv_spherical: when it raises *)

(** With Python ints for the sample counts, [generate_uv_spherical]
    raises exactly when a count is negative ([np.linspace] raises) or
    both counts are positive and [np.linalg.inv] raises on the rotation
    matrix of the quadric; with a count of zero and none negative the
    loop body never runs, the inverse is never asked for, and the result
    is the empty grid. *)
Theorem generate_uv_spherical_raises_iff
        {L : Libs} quadric pose calibration (m n : Z) :
  (Counts.generate_uv_spherical quadric pose calibration m n = None
   <-> (m < 0 \/ n < 0
        \/ (0 < m /\ 0 < n
            /\ np_linalg_inv
                 (gtsam.matrix (gtsam.rotation (quadricslam.pose quadric)))
               = None))%Z)
  /\ ((0 <= m)%Z -> (0 <= n)%Z -> (m = 0 \/ n = 0)%Z ->
      Counts.generate_uv_spherical quadric pose calibration m n
      = Some (repeat [] (Z.to_nat m))).
Proof.
  unfold Counts.generate_uv_spherical.
  assert (Hnat : forall a b : nat,
             generate_uv_spherical quadric pose calibration a b = None
             <-> 0 < a /\ 0 < b
                 /\ np_linalg_inv
                      (gtsam.matrix
                         (gtsam.rotation (quadricslam.pose quadric))) = None).
  { intros a b. rewrite generate_uv_spherical_eq.
    destruct a as [|a']; [simpl; split; [discriminate|intros [H _]; lia]|].
    destruct b as [|b']; [simpl; split; [discriminate|intros [_ [H _]]; lia]|].
    simpl orb. cbv iota.
    destruct (np_linalg_inv _) as [rinv|].
    - split; [discriminate|intros [_ [_ H]]; discriminate].
    - split; [intros _; repeat split; lia|reflexivity]. }
  split.
  - destruct (Z.ltb_spec m 0) as [Hm|Hm]; simpl orb.
    { split; [intros _; left; exact Hm|reflexivity]. }
    destruct (Z.ltb_spec n 0) as [Hn|Hn]; cbv iota.
    { split; [intros _; right; left; exact Hn|reflexivity]. }
    rewrite Hnat. split.
    + intros [Ha [Hb Hinv]]. right. right. repeat split; try lia. exact Hinv.
    + intros [H|[H|[Ha [Hb Hinv]]]]; try lia.
      repeat split; try lia. exact Hinv.
  - intros Hm Hn Hz.
    replace ((m <? 0)%Z) with false by (symmetry; apply Z.ltb_ge; exact Hm).
    replace ((n <? 0)%Z) with false by (symmetry; apply Z.ltb_ge; exact Hn).
    simpl orb. cbv iota. rewrite generate_uv_spherical_eq.
    destruct Hz as [-> | ->]; [reflexivity|].
    change (Z.to_nat 0) with 0. rewrite Nat.eqb_refl, orb_true_r. reflexivity.
Qed.

(** * The depth of a corner and the third coordinate of its projection *)
Section ZeroSign.

Lemma add_comm x y : F64.add x y = F64.add y x.
Proof.
  destruct x as [sx|sx| |sx mx ex], y as [sy|sy| |sy my ey];
    try reflexivity.
  - destruct sx, sy; reflexivity.
  - destruct sx, sy; reflexivity.
  - unfold F64.add, SFadd.
    rewrite (Z.min_comm ey ex).
    rewrite (Z.add_comm (cond_Zopp sy _)). reflexivity.
Qed.

Lemma same_refl x : same_but_sign_of_zero x x.
Proof. left. reflexivity. Qed.

Lemma same_trans x y z :
  same_but_sign_of_zero x y -> same_but_sign_of_zero y z ->
  same_but_sign_of_zero x z.
Proof.
  intros [->|[Hx Hy]] [->|[Hy' Hz]].
  - left. reflexivity.
  - right. split; assumption.
  - right. split; assumption.
  - right. split; assumption.
Qed.

Lemma same_is_zero x y :
  same_but_sign_of_zero x y -> F64.is_zero x = F64.is_zero y.
Proof. intros [->|[Hx Hy]]; [reflexivity|congruence]. Qed.

Lemma add_same x x' y y' :
  same_but_sign_of_zero x x' -> same_but_sign_of_zero y y' ->
  same_but_sign_of_zero (F64.add x y) (F64.add x' y').
Proof.
  intros [->|[Hx Hx']] [->|[Hy Hy']].
  - left. reflexivity.
  - destruct y as [sy| | |]; try discriminate.
    destruct y' as [sy'| | |]; try discriminate.
    destruct x' as [sx|sx| |sx mx ex]; try (left; reflexivity).
    right. split; [destruct sx, sy|destruct sx, sy']; reflexivity.
  - destruct x as [sx| | |]; try discriminate.
    destruct x' as [sx'| | |]; try discriminate.
    destruct y' as [sy|sy| |sy my ey]; try (left; reflexivity).
    right. split; [destruct sx, sy|destruct sx', sy]; reflexivity.
  - destruct x as [sx| | |]; try discriminate.
    destruct x' as [sx'| | |]; try discriminate.
    destruct y as [sy| | |]; try discriminate.
    destruct y' as [sy'| | |]; try discriminate.
    right. split; [destruct sx, sy|destruct sx', sy']; reflexivity.
Qed.

Lemma mul_same x x' y y' :
  same_but_sign_of_zero x x' -> same_but_sign_of_zero y y' ->
  same_but_sign_of_zero (F64.mul x y) (F64.mul x' y').
Proof.
  intros [->|[Hx Hx']] [->|[Hy Hy']].
  - left. reflexivity.
  - destruct y as [sy| | |]; try discriminate.
    destruct y' as [sy'| | |]; try discriminate.
    destruct x' as [sx|sx| |sx mx ex];
      try (left; reflexivity); right; split; reflexivity.
  - destruct x as [sx| | |]; try discriminate.
    destruct x' as [sx'| | |]; try discriminate.
    destruct y' as [sy|sy| |sy my ey];
      try (left; reflexivity); right; split; reflexivity.
  - destruct x as [sx| | |]; try discriminate.
    destruct x' as [sx'| | |]; try discriminate.
    destruct y as [sy| | |]; try discriminate.
    destruct y' as [sy'| | |]; try discriminate.
    right. split; reflexivity.
Qed.

Lemma add_zero_same z y :
  F64.is_zero z = true -> same_but_sign_of_zero (F64.add z y) y.
Proof.
  destruct z as [sz| | |]; try discriminate. intros _.
  destruct y as [sy|sy| |sy my ey]; try (left; reflexivity).
  right. split; [destruct sz, sy|]; reflexivity.
Qed.

Lemma zero_mul_number u :
  is_number u = true -> F64.is_zero (F64.mul F64.zero u) = true.
Proof. destruct u; try discriminate; reflexivity. Qed.

Lemma add_zeros z w :
  F64.is_zero z = true -> F64.is_zero w = true ->
  F64.is_zero (F64.add z w) = true.
Proof.
  destruct z as [sz| | |], w as [sw| | |]; try discriminate.
  intros _ _. destruct sz, sw; reflexivity.
Qed.

Lemma regular_valid x : regular x = true -> F64.valid x = true.
Proof. unfold regular. intro H. apply andb_true_iff in H. apply H. Qed.

Lemma regular_number x : regular x = true -> is_number x = true.
Proof. unfold regular. intro H. apply andb_true_iff in H. apply H. Qed.

(** The third row of K [R|t]^-1 is the third row of [R|t]^-1. *)
Lemma third_row_entry u v w :
  regular u = true -> regular v = true -> regular w = true ->
  same_but_sign_of_zero
    (F64.add (F64.add (F64.add F64.zero (F64.mul F64.zero u))
                      (F64.mul F64.zero v))
             (F64.mul F64.one w))
    w.
Proof.
  intros Hu Hv Hw.
  rewrite (@mul_one_valid w (@regular_valid w Hw)).
  apply add_zero_same. apply add_zeros.
  - apply add_zeros; [reflexivity|].
    apply zero_mul_number, regular_number, Hu.
  - apply zero_mul_number, regular_number, Hv.
Qed.

Lemma mul_one_right w : F64.valid w = true -> F64.mul w F64.one = w.
Proof. intro Hw. rewrite mul_comm. apply mul_one_valid. exact Hw. Qed.

(** The third homogeneous coordinate of a point, computed as
    [bounds_3D] does with the matrix K [R|t]^-1, is the depth
    [between] gives, up to the sign of a zero. *)
Lemma third_coordinate_is_depth a b c d e f g h i t0 t1 t2 x y z :
  regular a = true -> regular b = true -> regular c = true ->
  regular d = true -> regular e = true -> regular f = true ->
  regular g = true -> regular h = true -> regular i = true ->
  regular t0 = true -> regular t1 = true -> regular t2 = true ->
  let row := fun u v w =>
    F64.add (F64.add (F64.add F64.zero (F64.mul F64.zero u))
                     (F64.mul F64.zero v))
            (F64.mul F64.one w) in
  same_but_sign_of_zero
    (F64.add
       (F64.add
          (F64.add (F64.add F64.zero (F64.mul (row a b c) x))
                   (F64.mul (row d e f) y))
          (F64.mul (row g h i) z))
       (F64.mul (row t0 t1 t2) F64.one))
    (F64.add t2
       (F64.add (F64.add (F64.add F64.zero (F64.mul c x)) (F64.mul f y))
                (F64.mul i z))).
Proof.
  intros Ha Hb Hc Hd He Hf Hg Hh Hi H0 H1 H2 row.
  rewrite (add_comm t2).
  apply add_same.
  - apply add_same; [apply add_same; [apply add_same|]|].
    + apply same_refl.
    + apply mul_same; [apply third_row_entry; assumption|apply same_refl].
    + apply mul_same; [apply third_row_entry; assumption|apply same_refl].
    + apply mul_same; [apply third_row_entry; assumption|apply same_refl].
  - rewrite <- (@mul_one_right t2 (@regular_valid t2 H2)) at 2.
    apply mul_same; [apply third_row_entry; assumption|apply same_refl].
Qed.

End ZeroSign.

Lemma reference_third_coordinate pose calibration box3D k :
  k < 8 ->
  regular_pose (Ref.inverse pose) = true ->
  same_but_sign_of_zero
    (np.get2 F64.zero
       (np.dot_mm (gtsam.array34 (Ref.image_T_world pose calibration))
          (np.transpose (CV2Drawing.corners box3D)
           ++ [np.ones (np.shape0 (CV2Drawing.corners box3D))])) 2 k)
    (last (gtsam.vector
             (gtsam.translation
                (Ref.between pose
                   {| gtsam.rotation := gtsam.Rot3;
                      gtsam.translation :=
                        gtsam.Point3 (nth k (CV2Drawing.corners box3D) []) |})))
          F64.zero).
Proof.
  intros Hk Hreg.
  destruct pose as [[[[[a b] c] [[d e] f]] [[g h] i]] [[tx ty] tz]].
  destruct box3D as [x0 x1 y0 y1 z0 z1].
  cbv -[F64.add F64.mul F64.zero F64.one Ref.neg regular andb] in Hreg.
  repeat match type of Hreg with
         | _ && _ = true => apply andb_true_iff in Hreg; destruct Hreg as [? Hreg]
         end.
  repeat match goal with
         | H : _ && _ = true |- _ => apply andb_true_iff in H; destruct H
         end.
  do 8 (destruct k as [|k];
        [cbv -[F64.add F64.mul F64.zero F64.one Ref.neg
               same_but_sign_of_zero];
         apply third_coordinate_is_depth; assumption|]).
  lia.
Qed.

(** C8: the behind-camera test is strict, so a corner whose depth is
    exactly zero does not stop [bounds_3D]: with no other corner behind
    the camera the method goes on to the projection, and draws the box
    if the projection is finite.  With the pinhole camera
    P = K [R|t]^-1 it never is: the third homogeneous coordinate of
    the corner is then the zero its depth is, both of its pixel
    coordinates are the result of a division by that zero, infinite or
    NaN, the second test returns, and the image buffer is unchanged. *)
Theorem bounds_3D_zero_depth_corner
        {L : Libs} box3D pose calibration color img k :
  k < 8 ->
  let corner := nth k (CV2Drawing.corners box3D) [] in
  let H := CV2Drawing.homogeneous_corners pose calibration
             (CV2Drawing.corners box3D) in
  let row := nth k (CV2Drawing.project_corners pose calibration
                      (CV2Drawing.corners box3D)) [] in
  F64.is_zero (CV2Drawing.depth pose corner) = true ->
  ((forall point, In point (CV2Drawing.corners box3D) -> point <> corner ->
                  F64.ltb (CV2Drawing.depth pose point) F64.zero = false) ->
   (forall r c,
       In r (CV2Drawing.project_corners pose calibration
               (CV2Drawing.corners box3D)) ->
       In c r -> F64.isinf c = false /\ F64.isnan c = false) ->
   forall img',
     cv2_calls (box_calls box3D pose calibration color) img = Some img' ->
     CV2Drawing.bounds_3D box3D pose calibration color img = (img', Some tt))
  /\ (Pose3_between = Ref.between ->
      transformToImage = Ref.image_T_world ->
      regular_pose (Ref.inverse pose) = true ->
      F64.is_zero (np.get2 F64.zero H 2 k) = true
      /\ row = [F64.div (np.get2 F64.zero H 0 k) (np.get2 F64.zero H 2 k);
                F64.div (np.get2 F64.zero H 1 k) (np.get2 F64.zero H 2 k)]
      /\ Forall (fun c => F64.isinf c = true \/ F64.isnan c = true) row
      /\ CV2Drawing.bounds_3D box3D pose calibration color img
         = (img, Some tt)).
Proof.
  intros Hk corner H row Hdepth. split.
  - intros Hothers Hfin img' Hcalls.
    rewrite bounds_3D_draws.
    + apply run_accepted. exact Hcalls.
    + intros point Hin.
      destruct (F64.ltb (CV2Drawing.depth pose point) F64.zero) eqn:E;
        [|reflexivity].
      rewrite <- E. apply Hothers; [exact Hin|].
      intros ->. fold corner in E.
      rewrite (zero_not_negative _ Hdepth) in E. discriminate.
    + intros r c Hr Hc. destruct (Hfin r c Hr Hc) as [Hi Hn].
      unfold finite. now rewrite Hi, Hn.
  - intros Hbetween Hcamera Hreg.
    assert (Hw : F64.is_zero (np.get2 F64.zero H 2 k) = true).
    { rewrite <- Hdepth. apply same_is_zero.
      unfold H, CV2Drawing.homogeneous_corners, corner, CV2Drawing.depth.
      rewrite Hbetween, Hcamera.
      apply reference_third_coordinate; assumption. }
    assert (Hrow : row = [F64.div (np.get2 F64.zero H 0 k)
                                  (np.get2 F64.zero H 2 k);
                          F64.div (np.get2 F64.zero H 1 k)
                                  (np.get2 F64.zero H 2 k)])
      by (apply project_corners_row; exact Hk).
    assert (Hnf : forall x,
               F64.isinf (F64.div x (np.get2 F64.zero H 2 k)) = true
               \/ F64.isnan (F64.div x (np.get2 F64.zero H 2 k)) = true).
    { intro x. pose proof (div_by_zero_not_finite x _ Hw) as Hx.
      unfold finite in Hx. apply negb_false_iff, orb_true_iff in Hx. exact Hx. }
    split; [exact Hw|]. split; [exact Hrow|]. split.
    + rewrite Hrow. constructor; [apply Hnf|].
      constructor; [apply Hnf|constructor].
    + apply (@bounds_3D_guard L box3D pose calibration color img row
               (F64.div (np.get2 F64.zero H 0 k) (np.get2 F64.zero H 2 k))).
      * apply nth_In. rewrite project_corners_length. exact Hk.
      * rewrite Hrow. left. reflexivity.
      * apply div_by_zero_not_finite. exact Hw.
Qed.

Lemma bounds_3D_zero_depth_corner_witness :
  CV2Drawing.bounds_3D (L := Ref.libs) (Examples.box 0 2)
    Ref.identity_pose Examples.cal Examples.magenta Ref.Blank
  = (Ref.Blank, Some tt)
  /\ exists img',
       CV2Drawing.bounds_3D (L := Parallel.libs) (Examples.box 0 2)
         Ref.identity_pose Examples.cal Examples.magenta Ref.Blank
       = (img', Some tt)
       /\ Ref.lines img' = 12.
Proof.
  assert (Hk : 0 < 8) by lia.
  split.
  - destruct (@bounds_3D_zero_depth_corner Ref.libs (Examples.box 0 2)
                Ref.identity_pose Examples.cal Examples.magenta Ref.Blank 0 Hk)
      as [_ Hpinhole]; [vm_compute; reflexivity|].
    destruct Hpinhole as [_ [_ [_ Hret]]];
      [reflexivity|reflexivity|vm_compute; reflexivity|exact Hret].
  - destruct (@bounds_3D_zero_depth_corner Parallel.libs (Examples.box 0 2)
                Ref.identity_pose Examples.cal Examples.magenta Ref.Blank 0 Hk)
      as [Hdrawn _]; [vm_compute; reflexivity|].
    exists (match cv2_calls (L := Parallel.libs)
                    (box_calls (L := Parallel.libs) (Examples.box 0 2)
                       Ref.identity_pose Examples.cal Examples.magenta)
                    Ref.Blank with
            | Some img' => img'
            | None => Ref.Blank
            end).
    split; [|vm_compute; reflexivity].
    apply Hdrawn.
    + intros point Hin _. revert point Hin.
      apply (@none_negative Parallel.libs). vm_compute. reflexivity.
    + apply all_finite. vm_compute. reflexivity.
    + vm_compute. reflexivity.
Defined.
